(** * VectorSmith: backend adapters, aggregator, embedding providers and registry

    A shallow embedding of the TypeScript sources

    - the adapters [RedisAdapter], [PgVectorAdapter], [SqliteAdapter] and
      [QdrantAdapter] of [src/adapter], and their aggregator
      [VectorSmithAdapter];
    - the providers [JinaAIEmbeddingProvider] and [OpenAIEmbeddingProvider]
      of [src/embedding], and their registry [VectorSmithEmbedding].

    Every class becomes a module: its private fields a record, each method
    a computation in the monad [M] below, which threads the instance state,
    carries the thrown error, and logs every call made to a vendor driver
    (Redis client, pg pool, better-sqlite3 handle, Qdrant client, [fetch]).
    What a driver answers is not code of this repository: it is read from a
    [world], over which the theorems quantify.

    A method runs from its call to its end with no other code of the
    process in between, except where the code itself starts several
    methods before it awaits them: [connect] and [disconnect] of the
    aggregator are modelled with the turns of the event loop, the world
    choosing which pending promise settles next.

    Kept out of the model: the listeners registered for driver errors; the
    text of SQL statements, which are kept as their template with the
    values interpolated or bound; the bytes of a vector blob and the
    rounding of its entries; timers, a request that times out being one
    whose [fetch] throws the abort error. *)

From Stdlib Require Import List String Ascii ZArith QArith Bool Lia DecimalString.
Import ListNotations.
Close Scope Q_scope.
Open Scope string_scope.
Open Scope list_scope.

Set Implicit Arguments.

(** ** Values *)

(** A JavaScript [number] that is a measurement (vector entry, distance) is
    an exact rational; one that the code only hands on to a driver or
    prints (limit, id, timeout, a Redis port) is an integer. *)
Definition num : Type := Q.
Definition vector : Type := list num.

(** A [number] the code itself tests (compares with zero or with a length,
    takes as a condition) is any value of the type: a finite one, an
    infinity, or [NaN], which every comparison answers with false. *)
Inductive number : Type :=
| NaN
| Infinity (negative : bool)
| Finite (q : Q).

Definition zero : number := Finite 0%Q.

(** [a <= b] *)
Definition number_leb (a b : number) : bool :=
  match a, b with
  | NaN, _ | _, NaN => false
  | Infinity true, _ | _, Infinity false => true
  | Infinity false, _ | _, Infinity true => false
  | Finite p, Finite q => Qle_bool p q
  end.

(** [a < b] *)
Definition number_ltb (a b : number) : bool :=
  number_leb a b && negb (number_leb b a).

(** [a === b] *)
Definition number_eqb (a b : number) : bool :=
  match a, b with
  | Infinity s, Infinity s' => Bool.eqb s s'
  | Finite p, Finite q => Qeq_bool p q
  | _, _ => false
  end.

(** [array.length === n] *)
Definition is_length (n : number) (length : nat) : bool :=
  number_eqb n (Finite (inject_Z (Z.of_nat length))).

(** A JSON document is kept as its text. *)
Definition json : Type := string.

(** An object handed over as metadata, by what [JSON.stringify] makes of
    it: the text of a document, or the [TypeError] it throws on an object
    that holds a BigInt or refers to itself. *)
Inductive record : Type :=
| Document (text : json)
| Unserializable (message : string).

Infix "+++" := String.append (at level 60, right associativity).

Definition string_of_Z (z : Z) : string := NilZero.string_of_int (Z.to_int z).

(** Truthiness of optional values, as [if (x)] and [x || d] read them. *)
Definition truthy_string (s : option string) : bool :=
  match s with
  | Some EmptyString | None => false
  | Some _ => true
  end.

Definition truthy_number (n : option number) : bool :=
  match n with
  | Some NaN | None => false
  | Some x => negb (number_eqb x zero)
  end.

(** [a || d] on strings and numbers; [a ?? d] is [or_else]. *)
Definition or_string (a : option string) (d : string) : string :=
  match a with
  | Some EmptyString | None => d
  | Some s => s
  end.

Definition or_number (a : option number) (d : number) : number :=
  match a with
  | Some x => if truthy_number (Some x) then x else d
  | None => d
  end.

Definition or_else {A : Type} (a : option A) (d : A) : A :=
  match a with
  | Some x => x
  | None => d
  end.

Definition dquote : string := String (ascii_of_nat 34) EmptyString.

(** [identifier.replace] of every double quote by two of them. *)
Fixpoint double_quotes (s : string) : string :=
  match s with
  | EmptyString => EmptyString
  | String c rest =>
      if Ascii.eqb c (ascii_of_nat 34)
      then String c (String c (double_quotes rest))
      else String c (double_quotes rest)
  end.

(** [escapeIdentifier], the same private method in the pgvector and the
    SQLite adapter. *)
Definition escapeIdentifier (identifier : string) : string :=
  dquote +++ double_quotes identifier +++ dquote.

(** ** Errors *)

Inductive backend : Type := Redis | PgVector | Sqlite | Qdrant.

(** [EmbeddingProviderType] *)
Inductive EmbeddingProviderType : Type := Jina | OpenAI.

(** One constructor for each [throw new Error(...)] of the sources, and
    [Thrown] for what a driver or the runtime throws ([name], [message]). *)
Inductive error : Type :=
| NotConnected (b : backend)
    (* "<backend> ... is not connected. Call connect() first." *)
| NotConfigured (b : backend)
    (* "<backend> adapter is not configured." *)
| NoAdaptersConfigured
    (* "No database adapters configured. Provide at least one database configuration." *)
| DimensionNotPositive
    (* "Vector dimension must be greater than zero." *)
| DimensionMismatch (expected : number) (received : nat)
    (* "Vector dimension mismatch. Expected <e>, received <r>." *)
| UnsupportedVectorType (vectorType : string)
| UnsupportedDistanceMetric (metric : string)
| DistanceMetricMismatch (configured requested : string)
    (* "Configured distance metric '<c>' does not match requested metric '<r>'." *)
| ApiKeyRequired (p : EmbeddingProviderType)
| ModelRequired (p : EmbeddingProviderType)
| EmptyTexts
    (* "embed: provide a non-empty array of texts" *)
| EmbeddingsFailed (p : EmbeddingProviderType) (status : Z) (body : string)
| UnexpectedResponseShape (p : EmbeddingProviderType)
| EmbeddingDimensionMismatch (p : EmbeddingProviderType) (expected : number)
                             (got : option nat)
    (* "... dimension mismatch (expected <e>, got <n | invalid>)" *)
| EmbeddingsTimedOut (p : EmbeddingProviderType) (timeoutMs : Z)
| NoProviderConfigured
    (* "VectorSmithEmbedding: configure at least one embedding provider." *)
| DefaultProviderNotConfigured (p : EmbeddingProviderType)
| CannotSetDefault (p : EmbeddingProviderType)
| NoDefaultProvider
    (* "... no default provider configured; specify a provider type." *)
| ProviderNotConfigured (p : EmbeddingProviderType)
| Thrown (name message : string).

Inductive result (A : Type) : Type :=
| Ok (a : A)
| Err (e : error).
Arguments Ok {A} a.
Arguments Err {A} e.

Definition is_ok {A : Type} (r : result A) : bool :=
  match r with
  | Ok _ => true
  | Err _ => false
  end.

Definition JSON_stringify (o : record) : result string :=
  match o with
  | Document text => Ok text
  | Unserializable message => Err (Thrown "TypeError" message)
  end.

(** [metadata ? JSON.stringify(metadata) : null] *)
Definition stringify_metadata (metadata : option record)
  : result (option string) :=
  match metadata with
  | None => Ok None
  | Some o =>
      match JSON_stringify o with
      | Ok text => Ok (Some text)
      | Err e => Err e
      end
  end.

(** [error.name === "AbortError"]; every [new Error(...)] is named "Error". *)
Definition isAbortError (e : error) : bool :=
  match e with
  | Thrown name _ => String.eqb name "AbortError"
  | _ => false
  end.

(** ** Calls to the vendor drivers *)

(** *** PostgreSQL with pgvector *)

Inductive pg_connection : Type :=
| ConnectionString (url : string)
| ConnectionFields (host : string) (port : number) (user : string)
                   (password : option string) (database : string)
                   (ssl : option bool).

(** pgvector's distance operators: [<->], [<#>], [<=>]. *)
Inductive pg_operator : Type := OpL2 | OpNegInnerProduct | OpCosine.

(** An expression over the [embedding] column and the bound [$1::vector]. *)
Inductive pg_expr : Type :=
| Distance (op : pg_operator)        (* embedding <op> $1::vector *)
| OneMinus (e : pg_expr).            (* 1 - (e) *)

(** The SQL texts the adapter sends, by template; [table] is the escaped
    identifier, the rest are the interpolated or bound values. *)
Inductive pg_statement : Type :=
| PgSelectOne                                     (* SELECT 1 *)
| PgCreateExtension                               (* CREATE EXTENSION IF NOT EXISTS vector *)
| PgCreateTable (table : string) (vectorDimension : Z)
| PgInsert (table : string) (embedding : vector) (metadata : option string)
| PgSelectSimilar (table : string) (distanceExpr orderBy : pg_expr)
                  (queryVector : vector) (limit : Z)
| PgDelete (table : string) (id : Z)
| PgDropTable (table : string).

Record pg_row : Type := PgRow {
  pg_id : Z;
  pg_embedding : vector;
  pg_metadata : option json;
  pg_distance : num
}.

Record pg_result : Type := PgResult {
  pg_rows : list pg_row;
  pg_rowCount : option Z
}.

(** *** SQLite with the vector extension *)

Inductive sqlite_statement : Type :=
| SqCreateTable (table column : string)
| SqVectorInit                    (* SELECT vector_init(@table, @column, @params) *)
| SqQuantizeCleanup               (* SELECT vector_quantize_cleanup(@table, @column) *)
| SqDropTable (table : string)
| SqInsert (table column wrapped : string)
| SqUpsert (table column wrapped : string)
| SqDelete (table : string)
| SqSearch (table column wrapped : string).

(** The [params] text of [vector_init], by its values. *)
Record vector_init_params : Type := VectorInitParams {
  init_type : string;
  init_dimension : number;
  init_distance : string
}.

(** The named parameters bound when a prepared statement is executed.  A
    vector is bound as a [Buffer] of 32-bit floats; the buffer is kept as
    the vector it was made from. *)
Inductive sqlite_binding : Type :=
| BindInit (table column : string) (params : vector_init_params)
| BindCleanup (table column : string)
| BindInsert (embedding : vector) (metadata : option string)
| BindUpsert (id : Z) (embedding : vector) (metadata : option string)
| BindDelete (id : Z)
| BindSearch (table column : string) (queryVector : vector) (limit : Z).

Record sqlite_run_result : Type := RunResult {
  changes : Z;
  lastInsertRowid : Z
}.

Record sqlite_row : Type := SqliteRow {
  sq_id : Z;
  sq_embedding_blob : vector;
  sq_metadata : option string;
  sq_distance : num
}.

(** *** Qdrant *)

Record QdrantPointInput : Type := Point {
  point_id : Z + string;
  point_vector : vector;
  point_payload : option json
}.

Record QdrantSearchResult : Type := ScoredPoint {
  scored_id : Z + string;
  scored_score : num;
  scored_payload : option json
}.

(** *** Embeddings over HTTP *)

(** An item of the response's [data] array that is not [null]; its
    [embedding] is [None] when it is missing or not an array. *)
Record EmbeddingItem : Type := Item {
  embedding : option vector
}.

(** The parsed body: [DataArray] when [json.data] is an array, [NoData]
    when the body is null, or [data] is missing or not an array.  An item
    of the array is [None] when it is [null]. *)
Inductive EmbeddingResponse : Type :=
| NoData
| DataArray (data : list (option EmbeddingItem)).

Record Response : Type := HttpResponse {
  res_ok : bool;
  res_status : Z;
  res_text : result string;
  res_json : result EmbeddingResponse
}.

(** *** The calls *)

Inductive call : Type :=
(* redis *)
| RedisCreateClient (url : string)
| RedisConnect
| RedisQuit
| RedisGet (key : string)
| RedisSet (key value : string)
| RedisSetEx (key : string) (ttlSeconds : number) (value : string)
| RedisDel (key : string)
| RedisExists (key : string)
| RedisKeys (pattern : string)
(* pg *)
| PgNewPool (connectionConfig : pg_connection)
| PgPoolConnect
| PgClientQuery (statement : pg_statement)
| PgClientRelease
| PgPoolEnd
(* better-sqlite3 and @sqliteai/sqlite-vector *)
| SqliteOpen (databasePath : string)
| SqlitePragma (source : string)
| SqliteGetExtensionPath
| SqliteRequirePlatformPackage
| SqliteLoadExtension (path : string) (entryPoint : option string)
| SqliteExec (statement : sqlite_statement)
| SqlitePrepare (statement : sqlite_statement)
| SqliteStatementGet (statement : sqlite_statement) (parameters : sqlite_binding)
| SqliteStatementRun (statement : sqlite_statement) (parameters : sqlite_binding)
| SqliteStatementAll (statement : sqlite_statement) (parameters : sqlite_binding)
| SqliteClose
(* @qdrant/js-client-rest *)
| QdrantNewClient (url : string) (apiKey : option string) (timeout : Z)
| QdrantGetCollections
| QdrantCreateCollection (name : string) (size : Z) (distance : string)
| QdrantDeleteCollection (name : string)
| QdrantUpsert (collectionName : string) (wait : bool)
               (points : list QdrantPointInput)
| QdrantSearch (collectionName : string) (query : vector) (limit : Z)
               (filter : option json) (score_threshold : option num)
               (with_payload : bool)
(* fetch *)
| Fetch (url authorization model : string) (input : list string).

(** What each call gives back when it does not throw. *)
Definition reply (c : call) : Type :=
  match c with
  | RedisGet _ => option string
  | RedisDel _ | RedisExists _ => Z
  | RedisKeys _ => list string
  | PgClientQuery _ => pg_result
  | SqliteGetExtensionPath => string
  | SqliteRequirePlatformPackage => option string
  | SqliteStatementRun _ _ => sqlite_run_result
  | SqliteStatementAll _ _ => list sqlite_row
  | QdrantGetCollections => option (list string)
  | QdrantSearch _ _ _ _ _ _ => list QdrantSearchResult
  | Fetch _ _ _ _ => Response
  | _ => unit
  end.

Definition trace : Type := list call.

(** The outside: what a driver answers to a call, given the calls answered
    so far; the process environment; [JSON.parse] ([None]: it throws); and,
    while the promises of several backends are pending, the backend whose
    promise is the next to settle. *)
Record world : Type := World {
  driver : trace -> forall c : call, result (reply c);
  env : string -> option string;
  JSON_parse : string -> option json;
  settles_next : trace -> backend
}.

(** ** The monad of methods *)

(** A method runs in a world, on an instance state [S] and a trace; an
    exception leaves the state as it was when thrown. *)
Definition M (S A : Type) : Type :=
  world -> S -> trace -> result A * S * trace.

Definition ret {S A : Type} (a : A) : M S A :=
  fun _ s t => (Ok a, s, t).

Definition bind {S A B : Type} (m : M S A) (k : A -> M S B) : M S B :=
  fun w s t =>
    match m w s t with
    | (Ok a, s', t') => k a w s' t'
    | (Err e, s', t') => (Err e, s', t')
    end.

Definition throw {S A : Type} (e : error) : M S A :=
  fun _ s t => (Err e, s, t).

Definition get {S : Type} : M S S :=
  fun _ s t => (Ok s, s, t).

Definition put {S : Type} (s : S) : M S unit :=
  fun _ _ t => (Ok tt, s, t).

Definition ask {S : Type} : M S world :=
  fun w s t => (Ok w, s, t).

(** The calls answered so far. *)
Definition history {S : Type} : M S trace :=
  fun _ s t => (Ok t, s, t).

(** A call to a driver: answered by the world, and logged with its answer.
    A call that is awaited is logged when its promise settles. *)
Definition invoke {S : Type} (c : call) : M S (reply c) :=
  fun w s t => (driver w t c, s, t ++ [c]).

(** A value computed by a function that may throw. *)
Definition lift_result {S A : Type} (r : result A) : M S A :=
  match r with
  | Ok a => ret a
  | Err e => throw e
  end.

(** [try { body } finally { fin }] *)
Definition try_finally {S A : Type} (body : M S A) (fin : M S unit) : M S A :=
  fun w s t =>
    match body w s t with
    | (r, s', t') =>
        match fin w s' t' with
        | (Ok _, s'', t'') => (r, s'', t'')
        | (Err e, s'', t'') => (Err e, s'', t'')
        end
    end.

(** [try { body } catch (error) { handler error }] *)
Definition try_catch {S A : Type} (body : M S A) (handler : error -> M S A)
  : M S A :=
  fun w s t =>
    match body w s t with
    | (Ok a, s', t') => (Ok a, s', t')
    | (Err e, s', t') => handler e w s' t'
    end.

(** The settled outcome of a promise: never throws. *)
Definition settle {S A : Type} (m : M S A) : M S (result A) :=
  fun w s t =>
    match m w s t with
    | (r, s', t') => (Ok r, s', t')
    end.

(** A method of a member object, run on the member's state. *)
Definition zoom {S T A : Type} (member : T) (update : T -> S) (m : M T A)
  : M S A :=
  fun w _ t =>
    match m w member t with
    | (r, member', t') => (r, update member', t')
    end.

Declare Scope monad_scope.
Delimit Scope monad_scope with monad.
Notation "x <- m ;; k" := (bind m (fun x => k))
  (at level 100, m at next level, right associativity) : monad_scope.
Notation "m ;; k" := (bind m (fun _ => k))
  (at level 100, right associativity) : monad_scope.
Open Scope monad_scope.

Definition when {S : Type} (b : bool) (m : M S unit) : M S unit :=
  if b then m else ret tt.

(** [for (const x of xs) { body x }] *)
Fixpoint for_each {S A : Type} (xs : list A) (body : A -> M S unit) : M S unit :=
  match xs with
  | [] => ret tt
  | x :: rest => body x ;; for_each rest body
  end.

(** *** Asynchronous methods

    A call of an [async] method runs its body up to the first [await] on a
    promise of a driver; the event loop resumes the body when that promise
    has settled, and the body runs on to the next such [await] or to its
    end.  A call is modelled by the code it runs at once, which answers the
    segments of the body still to run: each starts where an awaited promise
    has settled, with the answer of its call.  A throw, at once or in a
    segment, rejects the promise of the call, and the segments after it
    never run; the promise is fulfilled when the last segment has
    returned.

    [uninterrupted] is the run the other sections look at: the segments
    run one after the other, with nothing else in between. *)
Fixpoint uninterrupted {S : Type} (segments : list (M S unit)) : M S unit :=
  match segments with
  | [] => ret tt
  | segment :: rest => segment ;; uninterrupted rest
  end.

Definition result_of {A S : Type} (x : result A * S * trace) : result A :=
  fst (fst x).
Definition state_of {A S : Type} (x : result A * S * trace) : S :=
  snd (fst x).
Definition trace_of {A S : Type} (x : result A * S * trace) : trace :=
  snd x.

(** The driver calls a run has added to the trace it started from. *)
Definition issued {A S : Type} (before : trace) (x : result A * S * trace)
  : trace :=
  skipn (List.length before) (trace_of x).

(** ** RedisAdapter *)

Module RedisAdapter.

Record Config : Type := mkConfig {
  url : option string;
  host : option string;
  port : option Z;
  password : option string;
  database : option Z
}.

(** The driver's client object; [isOpen] is the driver's flag, raised by
    a [connect()] that resolves. *)
Record Client : Type := mkClient {
  isOpen : bool
}.

Record t : Type := mk {
  client : option Client;
  config : Config
}.

Definition constructor (config : Config) : t :=
  mk None config.

(** [this.client?.isOpen] *)
Definition client_isOpen (a : t) : bool :=
  match client a with
  | Some c => isOpen c
  | None => false
  end.

Definition buildConnectionUrl (a : t) : string :=
  let host := or_else (host (config a)) "localhost" in
  let port := or_else (port (config a)) 6379%Z in
  let auth :=
    if truthy_string (password (config a))
    then ":" +++ or_else (password (config a)) EmptyString +++ "@"
    else EmptyString in
  let db :=
    match database (config a) with
    | Some d => "/" +++ string_of_Z d
    | None => EmptyString
    end in
  "redis://" +++ auth +++ host +++ ":" +++ string_of_Z port +++ db.

Definition connect : M t unit :=
  a <- get ;;
  if client_isOpen a then ret tt
  else
    let connectionUrl := or_else (url (config a)) (buildConnectionUrl a) in
    invoke (RedisCreateClient connectionUrl) ;;
    put (mk (Some (mkClient false)) (config a)) ;;
    invoke RedisConnect ;;
    put (mk (Some (mkClient true)) (config a)).

Definition disconnect : M t unit :=
  a <- get ;;
  if client_isOpen a then
    invoke RedisQuit ;;
    put (mk None (config a))
  else ret tt.

(** [connect] and [disconnect] by their awaits: [await this.client.connect()]
    and [await this.client.quit()]. *)
Definition connect_async : M t (list (M t unit)) :=
  a <- get ;;
  if client_isOpen a then ret []
  else
    let connectionUrl := or_else (url (config a)) (buildConnectionUrl a) in
    invoke (RedisCreateClient connectionUrl) ;;
    put (mk (Some (mkClient false)) (config a)) ;;
    ret [invoke RedisConnect ;;
         a <- get ;;
         put (mk (Some (mkClient true)) (config a))].

Definition disconnect_async : M t (list (M t unit)) :=
  a <- get ;;
  if client_isOpen a then
    ret [invoke RedisQuit ;;
         a <- get ;;
         put (mk None (config a))]
  else ret [].

Definition ensureConnected : M t unit :=
  a <- get ;;
  if negb (client_isOpen a) then throw (NotConnected Redis) else ret tt.

Definition get_ (key : string) : M t (option string) :=
  ensureConnected ;;
  invoke (RedisGet key).

Definition set (key value : string) (ttlSeconds : option number) : M t unit :=
  ensureConnected ;;
  if truthy_number ttlSeconds
  then invoke (RedisSetEx key (or_else ttlSeconds zero) value)
  else invoke (RedisSet key value).

Definition delete (key : string) : M t bool :=
  ensureConnected ;;
  result <- invoke (RedisDel key) ;;
  ret (Z.ltb 0 result).

Definition exists_ (key : string) : M t bool :=
  ensureConnected ;;
  result <- invoke (RedisExists key) ;;
  ret (Z.ltb 0 result).

Definition keys (pattern : string) : M t (list string) :=
  ensureConnected ;;
  invoke (RedisKeys pattern).

Definition isConnected (a : t) : bool :=
  client_isOpen a.

End RedisAdapter.

(** ** PgVectorAdapter *)

Module PgVectorAdapter.

Record Config : Type := mkConfig {
  url : option string;
  host : option string;
  port : option number;
  user : option string;
  password : option string;
  database : option string;
  ssl : option bool
}.

(** [pool] holds the configuration the pool was made with. *)
Record t : Type := mk {
  pool : option pg_connection;
  config : Config
}.

Inductive DistanceFunction : Type := cosine | l2 | inner_product.

Record SearchResult : Type := mkSearchResult {
  id : Z;
  embedding : vector;
  metadata : option json;
  distance : num
}.

Definition constructor (config : Config) : t :=
  mk None config.

Definition ensureConnected : M t unit :=
  a <- get ;;
  match pool a with
  | None => throw (NotConnected PgVector)
  | Some _ => ret tt
  end.

Definition ensurePgVectorExtension : M t unit :=
  invoke (PgClientQuery PgCreateExtension) ;; ret tt.

Definition connect : M t unit :=
  a <- get ;;
  match pool a with
  | Some _ => ret tt
  | None =>
      let c := config a in
      let connectionConfig :=
        if truthy_string (url c)
        then ConnectionString (or_else (url c) EmptyString)
        else ConnectionFields (or_string (host c) "localhost")
                              (or_number (port c) (Finite 5432%Q))
                              (or_string (user c) "postgres")
                              (password c)
                              (or_string (database c) "postgres")
                              (ssl c) in
      invoke (PgNewPool connectionConfig) ;;
      put (mk (Some connectionConfig) c) ;;
      invoke PgPoolConnect ;;
      try_finally
        (invoke (PgClientQuery PgSelectOne) ;;
         ensurePgVectorExtension)
        (invoke PgClientRelease)
  end.

Definition disconnect : M t unit :=
  a <- get ;;
  match pool a with
  | Some _ =>
      invoke PgPoolEnd ;;
      put (mk None (config a))
  | None => ret tt
  end.

(** [connect] by its awaits: [await this.pool.connect()],
    [await client.query("SELECT 1")] and
    [await this.ensurePgVectorExtension(client)], the last two inside the
    [try] whose [finally] releases the client. *)
Definition connect_async : M t (list (M t unit)) :=
  a <- get ;;
  match pool a with
  | Some _ => ret []
  | None =>
      let c := config a in
      let connectionConfig :=
        if truthy_string (url c)
        then ConnectionString (or_else (url c) EmptyString)
        else ConnectionFields (or_string (host c) "localhost")
                              (or_number (port c) (Finite 5432%Q))
                              (or_string (user c) "postgres")
                              (password c)
                              (or_string (database c) "postgres")
                              (ssl c) in
      invoke (PgNewPool connectionConfig) ;;
      put (mk (Some connectionConfig) c) ;;
      ret [(invoke PgPoolConnect : M t unit);
           try_catch (invoke (PgClientQuery PgSelectOne) ;; ret tt)
                     (fun error => invoke PgClientRelease ;; throw error);
           try_finally ensurePgVectorExtension (invoke PgClientRelease)]
  end.

(** [disconnect] by its await: [await this.pool.end()]. *)
Definition disconnect_async : M t (list (M t unit)) :=
  a <- get ;;
  match pool a with
  | Some _ =>
      ret [invoke PgPoolEnd ;;
           a <- get ;;
           put (mk None (config a))]
  | None => ret []
  end.

Definition createTable (tableName : string) (vectorDimension : Z) : M t unit :=
  ensureConnected ;;
  invoke PgPoolConnect ;;
  try_finally
    (invoke (PgClientQuery
               (PgCreateTable (escapeIdentifier tableName) vectorDimension)) ;;
     ret tt)
    (invoke PgClientRelease).

Definition insertVector (tableName : string) (embedding : vector)
                        (metadata : option record) : M t Z :=
  ensureConnected ;;
  invoke PgPoolConnect ;;
  try_finally
    (serialized <- lift_result (stringify_metadata metadata) ;;
     result <- invoke (PgClientQuery
                         (PgInsert (escapeIdentifier tableName) embedding
                                   serialized)) ;;
     match pg_rows result with
     | row :: _ => ret (pg_id row)
     | [] => throw (Thrown "TypeError"
                      "Cannot read properties of undefined (reading 'id')")
     end)
    (invoke PgClientRelease).

(** The [switch] of [searchSimilar]. *)
Definition distanceExpr (distanceFunction : DistanceFunction) : pg_expr :=
  match distanceFunction with
  | cosine => OneMinus (Distance OpCosine)
  | l2 => Distance OpL2
  | inner_product => Distance OpNegInnerProduct
  end.

Definition searchSimilar (tableName : string) (queryVector : vector)
                         (limit : option Z)
                         (distanceFunction : option DistanceFunction)
  : M t (list SearchResult) :=
  let limit := or_else limit 10%Z in
  let distanceFunction := or_else distanceFunction cosine in
  ensureConnected ;;
  invoke PgPoolConnect ;;
  try_finally
    (result <- invoke (PgClientQuery
                         (PgSelectSimilar (escapeIdentifier tableName)
                                          (distanceExpr distanceFunction)
                                          (Distance OpL2)
                                          queryVector limit)) ;;
     ret (map (fun row => mkSearchResult (pg_id row) (pg_embedding row)
                                         (pg_metadata row) (pg_distance row))
              (pg_rows result)))
    (invoke PgClientRelease).

Definition deleteVector (tableName : string) (id : Z) : M t bool :=
  ensureConnected ;;
  invoke PgPoolConnect ;;
  try_finally
    (result <- invoke (PgClientQuery
                         (PgDelete (escapeIdentifier tableName) id)) ;;
     ret (Z.ltb 0 (or_else (pg_rowCount result) 0%Z)))
    (invoke PgClientRelease).

Definition dropTable (tableName : string) : M t unit :=
  ensureConnected ;;
  invoke PgPoolConnect ;;
  try_finally
    (invoke (PgClientQuery (PgDropTable (escapeIdentifier tableName))) ;;
     ret tt)
    (invoke PgClientRelease).

Definition isConnected (a : t) : bool :=
  match pool a with
  | Some _ => true
  | None => false
  end.

End PgVectorAdapter.

(** ** SqliteAdapter *)

Module SqliteAdapter.

Record ExtensionConfig : Type := mkExtension {
  path : string;
  entryPoint : option string
}.

(** [pragmas] maps a pragma to its value as printed in the statement. *)
Record Config : Type := mkConfig {
  databasePath : string;
  vectorDimension : number;
  defaultTable : option string;
  distanceMetric_ : option string;
  vectorType_ : option string;
  pragmas : option (list (string * string));
  extensions : option (list ExtensionConfig)
}.

Record SearchResult : Type := mkSearchResult {
  id : Z;
  embedding : vector;
  metadata : option json;
  distance : num
}.

(** [database] is the open handle, [None] for [null]. *)
Record t : Type := mk {
  database : option unit;
  config : Config;
  vectorType : string;
  distanceMetric : string
}.

Definition vectorColumnName : string := "embedding".

Definition mapDistanceMetric (metric : option string) : result string :=
  if negb (truthy_string metric) then Ok "cosine"
  else
    let metric := or_else metric EmptyString in
    if String.eqb metric "inner_product" then Ok "dot"
    else if String.eqb metric "cosine" || String.eqb metric "l2"
            || String.eqb metric "dot"
    then Ok metric
    else Err (UnsupportedDistanceMetric metric).

Definition constructor (config : Config) : result t :=
  if number_leb (vectorDimension config) zero then Err DimensionNotPositive
  else
    match mapDistanceMetric (distanceMetric_ config) with
    | Ok m => Ok (mk None config (or_else (vectorType_ config) "FLOAT32") m)
    | Err e => Err e
    end.

Definition lift {A : Type} (r : result A) : M t A :=
  match r with
  | Ok a => ret a
  | Err e => throw e
  end.

Definition ensureConnected : M t unit :=
  a <- get ;;
  match database a with
  | None => throw (NotConnected Sqlite)
  | Some _ => ret tt
  end.

Definition ensureDimension (v : vector) : M t unit :=
  a <- get ;;
  if negb (is_length (vectorDimension (config a)) (List.length v))
  then throw (DimensionMismatch (vectorDimension (config a)) (List.length v))
  else ret tt.

Definition wrapVectorFunction (parameter : string) : M t string :=
  a <- get ;;
  if String.eqb (vectorType a) "FLOAT32"
  then ret ("vector_as_f32(" +++ parameter +++ ")")
  else throw (UnsupportedVectorType (vectorType a)).

Definition serializeVector (v : vector) : M t vector :=
  ensureDimension v ;;
  a <- get ;;
  if String.eqb (vectorType a) "FLOAT32"
  then ret v
  else throw (UnsupportedVectorType (vectorType a)).

Definition deserializeVector (buffer : vector) : M t vector :=
  a <- get ;;
  if String.eqb (vectorType a) "FLOAT32"
  then ret buffer
  else throw (UnsupportedVectorType (vectorType a)).

(** The text [type=<vectorType>,dimension=<vectorDimension>,distance=<distanceMetric>],
    kept as the three values it is made of. *)
Definition buildVectorInitParams (a : t) : vector_init_params :=
  VectorInitParams (vectorType a) (vectorDimension (config a))
                   (distanceMetric a).

Definition parseMetadata (serialized : option string) : M t (option json) :=
  match serialized with
  | None => ret None
  | Some text => w <- ask ;; ret (JSON_parse w text)
  end.

Definition assertDistanceMetric (metric : option string) : M t unit :=
  normalized <- lift (mapDistanceMetric metric) ;;
  a <- get ;;
  if negb (String.eqb normalized (distanceMetric a))
  then throw (DistanceMetricMismatch (distanceMetric a) normalized)
  else ret tt.

Definition createTable (tableName : string) : M t unit :=
  ensureConnected ;;
  let escapedTable := escapeIdentifier tableName in
  invoke (SqliteExec (SqCreateTable escapedTable vectorColumnName)) ;;
  invoke (SqlitePrepare SqVectorInit) ;;
  a <- get ;;
  invoke (SqliteStatementGet SqVectorInit
            (BindInit tableName vectorColumnName (buildVectorInitParams a))).

Definition dropTable (tableName : string) : M t unit :=
  ensureConnected ;;
  let escapedTable := escapeIdentifier tableName in
  try_catch
    (invoke (SqlitePrepare SqQuantizeCleanup) ;;
     invoke (SqliteStatementGet SqQuantizeCleanup
               (BindCleanup tableName vectorColumnName)))
    (fun _ => ret tt) ;;
  invoke (SqliteExec (SqDropTable escapedTable)).

Definition insertVector (tableName : string) (v : vector)
                        (metadata : option record) : M t Z :=
  ensureConnected ;;
  let escapedTable := escapeIdentifier tableName in
  wrapped <- wrapVectorFunction "@embedding" ;;
  let statement := SqInsert escapedTable vectorColumnName wrapped in
  invoke (SqlitePrepare statement) ;;
  blob <- serializeVector v ;;
  serialized <- lift (stringify_metadata metadata) ;;
  result <- invoke (SqliteStatementRun statement
                      (BindInsert blob serialized)) ;;
  ret (lastInsertRowid result).

Definition upsertVector (tableName : string) (id : Z) (v : vector)
                        (metadata : option record) : M t unit :=
  ensureConnected ;;
  let escapedTable := escapeIdentifier tableName in
  wrapped <- wrapVectorFunction "@embedding" ;;
  let statement := SqUpsert escapedTable vectorColumnName wrapped in
  invoke (SqlitePrepare statement) ;;
  blob <- serializeVector v ;;
  serialized <- lift (stringify_metadata metadata) ;;
  invoke (SqliteStatementRun statement (BindUpsert id blob serialized)) ;;
  ret tt.

Definition deleteVector (tableName : string) (id : Z) : M t bool :=
  ensureConnected ;;
  let escapedTable := escapeIdentifier tableName in
  let statement := SqDelete escapedTable in
  invoke (SqlitePrepare statement) ;;
  result <- invoke (SqliteStatementRun statement (BindDelete id)) ;;
  ret (Z.ltb 0 (changes result)).

Fixpoint map_rows (rows : list sqlite_row) : M t (list SearchResult) :=
  match rows with
  | [] => ret []
  | row :: rest =>
      e <- deserializeVector (sq_embedding_blob row) ;;
      m <- parseMetadata (sq_metadata row) ;;
      results <- map_rows rest ;;
      ret (mkSearchResult (sq_id row) e m (sq_distance row) :: results)
  end.

Definition searchSimilar (tableName : string) (queryVector : vector)
                         (limit : option Z) (metric : option string)
  : M t (list SearchResult) :=
  a <- get ;;
  let limit := or_else limit 10%Z in
  let metric :=
    match metric with
    | Some m => Some m
    | None => Some (or_else (distanceMetric_ (config a)) "cosine")
    end in
  ensureConnected ;;
  ensureDimension queryVector ;;
  assertDistanceMetric metric ;;
  let escapedTable := escapeIdentifier tableName in
  wrapped <- wrapVectorFunction "@queryVector" ;;
  let statement := SqSearch escapedTable vectorColumnName wrapped in
  invoke (SqlitePrepare statement) ;;
  blob <- serializeVector queryVector ;;
  rows <- invoke (SqliteStatementAll statement
                    (BindSearch tableName vectorColumnName blob limit)) ;;
  map_rows rows.

Definition tryResolvePlatformPackage : M t (option string) :=
  try_catch
    (moduleExportPath <- invoke SqliteRequirePlatformPackage ;;
     if truthy_string moduleExportPath then ret moduleExportPath
     else ret None)
    (fun _ => ret None).

Definition resolveExtensionPath : M t string :=
  try_catch
    (invoke SqliteGetExtensionPath)
    (fun error =>
       match error with
       | Thrown name _ =>
           if String.eqb name "ExtensionNotFoundError" then
             fallback <- tryResolvePlatformPackage ;;
             match fallback with
             | Some p => ret p
             | None => throw error
             end
           else throw error
       | _ => throw error
       end).

Definition loadSqliteVectorExtension : M t unit :=
  a <- get ;;
  match database a with
  | None => ret tt
  | Some _ =>
      p <- resolveExtensionPath ;;
      invoke (SqliteLoadExtension p None)
  end.

Definition loadAdditionalExtensions : M t unit :=
  a <- get ;;
  match database a, extensions (config a) with
  | Some _, Some exts =>
      for_each exts (fun extension =>
        if truthy_string (entryPoint extension)
        then invoke (SqliteLoadExtension (path extension) (entryPoint extension))
        else invoke (SqliteLoadExtension (path extension) None))
  | _, _ => ret tt
  end.

Definition applyPragmas : M t unit :=
  a <- get ;;
  match database a, pragmas (config a) with
  | Some _, Some entries =>
      for_each entries (fun entry =>
        invoke (SqlitePragma (fst entry +++ " = " +++ snd entry)))
  | _, _ => ret tt
  end.

Definition connect : M t unit :=
  a <- get ;;
  match database a with
  | Some _ => ret tt
  | None =>
      invoke (SqliteOpen (databasePath (config a))) ;;
      put (mk (Some tt) (config a) (vectorType a) (distanceMetric a)) ;;
      applyPragmas ;;
      loadSqliteVectorExtension ;;
      loadAdditionalExtensions ;;
      if truthy_string (defaultTable (config a))
      then createTable (or_else (defaultTable (config a)) EmptyString)
      else ret tt
  end.

Definition disconnect : M t unit :=
  a <- get ;;
  match database a with
  | Some _ =>
      invoke SqliteClose ;;
      put (mk None (config a) (vectorType a) (distanceMetric a))
  | None => ret tt
  end.

Definition isConnected (a : t) : bool :=
  match database a with
  | Some _ => true
  | None => false
  end.

End SqliteAdapter.

(** ** QdrantAdapter *)

(** [haystack.includes(needle)] *)
Fixpoint includes (haystack needle : string) : bool :=
  if prefix needle haystack then true
  else
    match haystack with
    | EmptyString => false
    | String _ rest => includes rest needle
    end.

(** [s.replace(/\/$/, ...)] with the empty replacement: a final slash is
    dropped. *)
Fixpoint drop_final_slash (s : string) : string :=
  match s with
  | EmptyString => EmptyString
  | String c EmptyString =>
      if Ascii.eqb c (ascii_of_nat 47) then EmptyString else s
  | String c rest => String c (drop_final_slash rest)
  end.

Module QdrantAdapter.

Record Config : Type := mkConfig {
  url : option string;
  endpoint : option string;
  clusterId : option string;
  apiKey : option string;
  timeoutMs : option Z;
  defaultCollection : option string
}.

Record SearchOptions : Type := mkSearchOptions {
  limit : option Z;
  filter : option json;
  scoreThreshold : option num;
  withPayload : option bool
}.

Record t : Type := mk {
  client : option unit;
  connected : bool;
  config : Config
}.

Definition constructor (config : Config) : t :=
  mk None false config.

Definition resolveUrl (w : world) (a : t) : string :=
  if truthy_string (url (config a)) then or_else (url (config a)) EmptyString
  else
    let endpoint :=
      match endpoint (config a) with
      | Some e => e
      | None => or_else (env w "QDRANT_ENDPOINT") "http://localhost:6333"
      end in
    let clusterId :=
      match clusterId (config a) with
      | Some c => Some c
      | None => env w "QDRANT_CLUSTER_ID"
      end in
    if truthy_string clusterId
       && negb (includes endpoint (or_else clusterId EmptyString))
    then drop_final_slash endpoint +++ "/" +++ or_else clusterId EmptyString
    else endpoint.

Definition resolveApiKey (w : world) (a : t) : option string :=
  match apiKey (config a) with
  | Some k => Some k
  | None =>
      let envKey := env w "QDRANT_API_KEY" in
      if truthy_string envKey then envKey else None
  end.

Definition connect : M t unit :=
  a <- get ;;
  if connected a then ret tt
  else
    w <- ask ;;
    invoke (QdrantNewClient (resolveUrl w a) (resolveApiKey w a)
                            (or_else (timeoutMs (config a)) 10000%Z)) ;;
    put (mk (Some tt) (connected a) (config a)) ;;
    invoke QdrantGetCollections ;;
    put (mk (Some tt) true (config a)).

Definition disconnect : M t unit :=
  a <- get ;;
  put (mk None false (config a)).

(** [connect] by its await: [await this.client.getCollections()];
    [disconnect] awaits nothing. *)
Definition connect_async : M t (list (M t unit)) :=
  a <- get ;;
  if connected a then ret []
  else
    w <- ask ;;
    invoke (QdrantNewClient (resolveUrl w a) (resolveApiKey w a)
                            (or_else (timeoutMs (config a)) 10000%Z)) ;;
    put (mk (Some tt) (connected a) (config a)) ;;
    ret [invoke QdrantGetCollections ;;
         a <- get ;;
         put (mk (client a) true (config a))].

Definition disconnect_async : M t (list (M t unit)) :=
  disconnect ;; ret [].

Definition isConnected (a : t) : bool :=
  connected a.

Definition ensureConnected : M t unit :=
  a <- get ;;
  match client a with
  | None => throw (NotConnected Qdrant)
  | Some _ =>
      if negb (connected a) then throw (NotConnected Qdrant) else ret tt
  end.

Definition createCollection (name : string) (vectorSize : Z)
                            (distance : option string) : M t unit :=
  let distance := or_else distance "Cosine" in
  ensureConnected ;;
  invoke (QdrantCreateCollection name vectorSize distance).

Definition deleteCollection (name : string) : M t unit :=
  ensureConnected ;;
  invoke (QdrantDeleteCollection name).

Definition listCollections : M t (list string) :=
  ensureConnected ;;
  response <- invoke QdrantGetCollections ;;
  ret (or_else response []).

Definition upsert (collectionName : string) (points : list QdrantPointInput)
                  (wait : option bool) : M t unit :=
  let wait := or_else wait true in
  ensureConnected ;;
  let payload :=
    map (fun point => Point (point_id point) (point_vector point)
                            (point_payload point)) points in
  invoke (QdrantUpsert collectionName wait payload).

Definition search (collectionName : string) (v : vector)
                  (options : option SearchOptions)
  : M t (list QdrantSearchResult) :=
  let options := or_else options (mkSearchOptions None None None None) in
  ensureConnected ;;
  invoke (QdrantSearch collectionName v
            (or_else (limit options) 10%Z)
            (filter options)
            (scoreThreshold options)
            (or_else (withPayload options) true)).

End QdrantAdapter.

(** ** VectorSmithAdapter, the aggregator *)

Definition backend_eqb (a b : backend) : bool :=
  match a, b with
  | Redis, Redis | PgVector, PgVector | Sqlite, Sqlite | Qdrant, Qdrant => true
  | _, _ => false
  end.

Module VectorSmithAdapter.

Record Config : Type := mkConfig {
  redis_config : option RedisAdapter.Config;
  pgvector_config : option PgVectorAdapter.Config;
  qdrant_config : option QdrantAdapter.Config;
  sqlite_config : option SqliteAdapter.Config
}.

Record t : Type := mk {
  redis : option RedisAdapter.t;
  pgvector : option PgVectorAdapter.t;
  qdrant : option QdrantAdapter.t;
  sqlite : option SqliteAdapter.t;
  config : Config
}.

Definition constructor (config : Config) : result t :=
  let redis := option_map RedisAdapter.constructor (redis_config config) in
  let pgvector :=
    option_map PgVectorAdapter.constructor (pgvector_config config) in
  match sqlite_config config with
  | Some c =>
      match SqliteAdapter.constructor c with
      | Ok sqlite =>
          Ok (mk redis pgvector
                 (option_map QdrantAdapter.constructor (qdrant_config config))
                 (Some sqlite) config)
      | Err e => Err e
      end
  | None =>
      Ok (mk redis pgvector
             (option_map QdrantAdapter.constructor (qdrant_config config))
             None config)
  end.

Definition set_redis (a : t) (r : RedisAdapter.t) : t :=
  mk (Some r) (pgvector a) (qdrant a) (sqlite a) (config a).
Definition set_pgvector (a : t) (p : PgVectorAdapter.t) : t :=
  mk (redis a) (Some p) (qdrant a) (sqlite a) (config a).
Definition set_qdrant (a : t) (q : QdrantAdapter.t) : t :=
  mk (redis a) (pgvector a) (Some q) (sqlite a) (config a).
Definition set_sqlite (a : t) (s : SqliteAdapter.t) : t :=
  mk (redis a) (pgvector a) (qdrant a) (Some s) (config a).

Definition getRedis (a : t) : result RedisAdapter.t :=
  match redis a with
  | None => Err (NotConfigured Redis)
  | Some r => Ok r
  end.

Definition getPgVector (a : t) : result PgVectorAdapter.t :=
  match pgvector a with
  | None => Err (NotConfigured PgVector)
  | Some p => Ok p
  end.

Definition getSqlite (a : t) : result SqliteAdapter.t :=
  match sqlite a with
  | None => Err (NotConfigured Sqlite)
  | Some s => Ok s
  end.

Definition getQdrant (a : t) : result QdrantAdapter.t :=
  match qdrant a with
  | None => Err (NotConfigured Qdrant)
  | Some q => Ok q
  end.

(** *** The promises of [connect] and [disconnect]

    [connect] and [disconnect] call the method of every backend, collect
    the promises, and wait for them with [await Promise.all(...)], which is
    rejected as soon as one of the promises is, while the others are still
    pending, and fulfilled once all of them are.

    A promise of a driver settles in a later turn of the event loop than
    the one that made the call; which of the pending ones settles next is
    the world's choice.  The job queued with [Promise.resolve().then(...)]
    waits for no driver: it runs before any driver's promise settles, and
    before the rejection of a promise reaches the [await]. *)
Inductive promise : Type :=
| Fulfilled
| Rejected (reason : error)
| Queued (job : M t unit)
| Awaiting (next : M t unit) (rest : list (M t unit)).

(** What the run of a segment makes of the promise. *)
Definition settlement (r : result unit) (rest : list (M t unit)) : promise :=
  match r with
  | Err e => Rejected e
  | Ok _ =>
      match rest with
      | [] => Fulfilled
      | next :: rest' => Awaiting next rest'
      end
  end.

Definition rejection {A : Type} (r : result A) : option error :=
  match r with
  | Err e => Some e
  | Ok _ => None
  end.

(** A method of the adapter a getter hands out, the aggregator's own, run
    on the adapter as it is by then. *)
Definition on_adapter {T A : Type} (getter : t -> result T)
                      (update : t -> T -> t) (m : M T A) : M t A :=
  a <- get ;;
  match getter a with
  | Ok adapter => zoom adapter (update a) m
  | Err e => throw e
  end.

(** [promises.push(member.method())], under the guard: the method runs up
    to its first [await]. *)
Definition push {T : Type} (b : backend) (member : option T)
                (guard : T -> bool) (getter : t -> result T)
                (update : t -> T -> t) (method : M T (list (M T unit)))
  : M t (list (backend * promise)) :=
  a <- get ;;
  match member with
  | Some m =>
      if guard m
      then
        r <- settle (zoom m (update a) method) ;;
        ret [(b, match r with
                 | Ok segments =>
                     settlement (Ok tt)
                                (map (on_adapter getter update) segments)
                 | Err e => Rejected e
                 end)]
      else ret []
  | None => ret []
  end.

(** [promises.push(Promise.resolve().then(() => { member.method(); }))],
    under the guard. *)
Definition push_job {T : Type} (b : backend) (member : option T)
                    (guard : T -> bool) (job : M t unit)
  : M t (list (backend * promise)) :=
  match member with
  | Some m => if guard m then ret [(b, Queued job)] else ret []
  | None => ret []
  end.

Definition always {T : Type} (_ : T) : bool := true.

(** The array [connections] of [connect], filled. *)
Definition connections : M t (list (backend * promise)) :=
  a <- get ;;
  c1 <- push Redis (redis a) always getRedis set_redis
             RedisAdapter.connect_async ;;
  a <- get ;;
  c2 <- push PgVector (pgvector a) always getPgVector set_pgvector
             PgVectorAdapter.connect_async ;;
  a <- get ;;
  c3 <- push_job Sqlite (sqlite a) always
                 (on_adapter getSqlite set_sqlite SqliteAdapter.connect) ;;
  a <- get ;;
  c4 <- push Qdrant (qdrant a) always getQdrant set_qdrant
             QdrantAdapter.connect_async ;;
  ret (c1 ++ c2 ++ c3 ++ c4).

(** The array [disconnections] of [disconnect], filled. *)
Definition disconnections : M t (list (backend * promise)) :=
  a <- get ;;
  d1 <- push Redis (redis a) RedisAdapter.isConnected getRedis set_redis
             RedisAdapter.disconnect_async ;;
  a <- get ;;
  d2 <- push PgVector (pgvector a) PgVectorAdapter.isConnected getPgVector
             set_pgvector PgVectorAdapter.disconnect_async ;;
  a <- get ;;
  d3 <- push_job Sqlite (sqlite a) SqliteAdapter.isConnected
                 (on_adapter getSqlite set_sqlite SqliteAdapter.disconnect) ;;
  a <- get ;;
  d4 <- push Qdrant (qdrant a) QdrantAdapter.isConnected getQdrant set_qdrant
             QdrantAdapter.disconnect_async ;;
  ret (d1 ++ d2 ++ d3 ++ d4).

Fixpoint promise_of (b : backend) (promises : list (backend * promise))
  : option promise :=
  match promises with
  | [] => None
  | (b', p) :: rest => if backend_eqb b b' then Some p else promise_of b rest
  end.

Fixpoint replace (b : backend) (p : promise)
                 (promises : list (backend * promise))
  : list (backend * promise) :=
  match promises with
  | [] => []
  | (b', p') :: rest =>
      if backend_eqb b b' then (b', p) :: rest
      else (b', p') :: replace b p rest
  end.

(** The first promise whose job is queued, and the first that waits for a
    driver. *)
Fixpoint queued (promises : list (backend * promise)) : option backend :=
  match promises with
  | [] => None
  | (b, Queued _) :: _ => Some b
  | _ :: rest => queued rest
  end.

Fixpoint awaiting (promises : list (backend * promise)) : option backend :=
  match promises with
  | [] => None
  | (b, Awaiting _ _) :: _ => Some b
  | _ :: rest => awaiting rest
  end.

(** The backend whose awaited promise settles next: the one the world
    names when it waits for a driver, else the first that does. *)
Definition settles (w : world) (answered : trace)
                   (promises : list (backend * promise)) : option backend :=
  match promise_of (settles_next w answered) promises with
  | Some (Awaiting _ _) => Some (settles_next w answered)
  | _ => awaiting promises
  end.

(** The promise of a backend moves on: its job runs, or the segment that
    waited. *)
Definition resume (b : backend) (promises : list (backend * promise))
  : M t (list (backend * promise) * option error) :=
  match promise_of b promises with
  | Some (Queued job) =>
      r <- settle job ;;
      ret (replace b (settlement r []) promises, rejection r)
  | Some (Awaiting next rest) =>
      r <- settle next ;;
      ret (replace b (settlement r rest) promises, rejection r)
  | _ => ret (promises, None)
  end.

(** One turn of the event loop: a queued job, or else the segment behind
    the promise that settles next. *)
Definition turn (promises : list (backend * promise))
  : M t (list (backend * promise) * option error) :=
  match queued promises with
  | Some b => resume b promises
  | None =>
      w <- ask ;;
      answered <- history ;;
      match settles w answered promises with
      | Some b => resume b promises
      | None => ret (promises, None)
      end
  end.

(** The turns the promises can still take. *)
Definition steps (p : promise) : nat :=
  match p with
  | Queued _ => 1
  | Awaiting _ rest => S (List.length rest)
  | Fulfilled | Rejected _ => 0
  end.

Definition pending (promises : list (backend * promise)) : nat :=
  list_sum (map (fun x => steps (snd x)) promises).

(** The promise rejected first among those rejected when pushed. *)
Fixpoint first_rejection (promises : list (backend * promise))
  : option error :=
  match promises with
  | [] => None
  | (_, Rejected e) :: _ => Some e
  | _ :: rest => first_rejection rest
  end.

Definition is_some {A : Type} (x : option A) : bool :=
  match x with
  | Some _ => true
  | None => false
  end.

(** [await Promise.all(promises)]: the loop turns while a job is queued,
    or nothing is rejected and a promise waits; then the [await] ends, with
    the first rejection if there is one.  The promises are answered as
    they are then. *)
Fixpoint await_all (turns : nat) (promises : list (backend * promise))
                   (rejected : option error)
  : M t (result unit * list (backend * promise)) :=
  let outcome :=
    match rejected with
    | Some e => Err e
    | None => Ok tt
    end in
  match turns with
  | 0 => ret (outcome, promises)
  | S turns' =>
      if is_some (queued promises)
         || (negb (is_some rejected) && is_some (awaiting promises))
      then
        x <- turn promises ;;
        await_all turns' (fst x)
                  (match rejected with
                   | Some e => Some e
                   | None => snd x
                   end)
      else ret (outcome, promises)
  end.

Definition Promise_all (promises : list (backend * promise))
  : M t (result unit * list (backend * promise)) :=
  await_all (pending promises) promises (first_rejection promises).

Definition connect : M t unit :=
  connections <- connections ;;
  if Nat.eqb (List.length connections) 0
  then throw NoAdaptersConfigured
  else
    x <- Promise_all connections ;;
    lift_result (fst x).

Definition disconnect : M t unit :=
  disconnections <- disconnections ;;
  x <- Promise_all disconnections ;;
  lift_result (fst x).

(** The event loop goes on turning after the [await] has ended. *)
Fixpoint later (turns : nat) (promises : list (backend * promise))
  : M t (list (backend * promise)) :=
  match turns with
  | 0 => ret promises
  | S turns' => x <- turn promises ;; later turns' (fst x)
  end.

Definition isConnected (a : t) : bool :=
  let connected := false in
  let connected :=
    match redis a with
    | Some r => connected || RedisAdapter.isConnected r
    | None => connected
    end in
  let connected :=
    match pgvector a with
    | Some p => connected || PgVectorAdapter.isConnected p
    | None => connected
    end in
  let connected :=
    match sqlite a with
    | Some s => connected || SqliteAdapter.isConnected s
    | None => connected
    end in
  let connected :=
    match qdrant a with
    | Some q => connected || QdrantAdapter.isConnected q
    | None => connected
    end in
  connected.

(** [isConnected()] of the adapter in a slot; an empty slot has none. *)
Definition backend_isConnected (b : backend) (a : t) : bool :=
  match b with
  | Redis =>
      match redis a with
      | Some r => RedisAdapter.isConnected r
      | None => false
      end
  | PgVector =>
      match pgvector a with
      | Some p => PgVectorAdapter.isConnected p
      | None => false
      end
  | Sqlite =>
      match sqlite a with
      | Some s => SqliteAdapter.isConnected s
      | None => false
      end
  | Qdrant =>
      match qdrant a with
      | Some q => QdrantAdapter.isConnected q
      | None => false
      end
  end.

(** [getRedis().disconnect()] and its like: the adapter handed out by a
    getter is the aggregator's own, so disconnecting it is seen by the
    aggregator. *)
Definition disconnect_backend (b : backend) : M t unit :=
  a <- get ;;
  match b with
  | Redis =>
      match getRedis a with
      | Ok r => zoom r (set_redis a) RedisAdapter.disconnect
      | Err e => throw e
      end
  | PgVector =>
      match getPgVector a with
      | Ok p => zoom p (set_pgvector a) PgVectorAdapter.disconnect
      | Err e => throw e
      end
  | Sqlite =>
      match getSqlite a with
      | Ok s => zoom s (set_sqlite a) SqliteAdapter.disconnect
      | Err e => throw e
      end
  | Qdrant =>
      match getQdrant a with
      | Ok q => zoom q (set_qdrant a) QdrantAdapter.disconnect
      | Err e => throw e
      end
  end.

End VectorSmithAdapter.

(** ** Embedding providers *)

(** [safeReadText] *)
Definition safeReadText (res : Response) : string :=
  match res_text res with
  | Ok text => text
  | Err _ => "<no body>"
  end.

Definition reading_embedding_of_null : error :=
  Thrown "TypeError" "Cannot read properties of null (reading 'embedding')".

(** [json.data.map((d) => d.embedding)]: reading [embedding] of an item
    that is [null] throws, at the first such item. *)
Fixpoint embeddings (data : list (option EmbeddingItem))
  : result (list (option vector)) :=
  match data with
  | [] => Ok []
  | None :: _ => Err reading_embedding_of_null
  | Some d :: rest =>
      match embeddings rest with
      | Ok vectors => Ok (embedding d :: vectors)
      | Err e => Err e
      end
  end.

Module JinaAIEmbeddingProvider.

Record Options : Type := mkOptions {
  baseUrl_ : option string;
  timeoutMs_ : option Z;
  expectedDimensions_ : option number
}.

Record t : Type := mk {
  apiKey : string;
  model : string;
  baseUrl : string;
  timeoutMs : Z;
  expectedDimensions : option number
}.

Definition constructor (apiKey model : string) (options : option Options)
  : result t :=
  let options := or_else options (mkOptions None None None) in
  if negb (truthy_string (Some apiKey)) then Err (ApiKeyRequired Jina)
  else if negb (truthy_string (Some model)) then Err (ModelRequired Jina)
  else Ok (mk apiKey model
              (or_else (baseUrl_ options) "https://api.jina.ai/v1")
              (or_else (timeoutMs_ options) 60000%Z)
              (expectedDimensions_ options)).

(** The loop over [vectors] when [expectedDimensions] is set. *)
Fixpoint check_dimensions (expected : number)
                          (vectors : list (option vector)) : M t unit :=
  match vectors with
  | [] => ret tt
  | None :: _ => throw (EmbeddingDimensionMismatch Jina expected None)
  | Some v :: rest =>
      if negb (is_length expected (List.length v))
      then throw (EmbeddingDimensionMismatch Jina expected
                    (Some (List.length v)))
      else check_dimensions expected rest
  end.

Definition embed (texts : list string) : M t (list (option vector)) :=
  if Nat.eqb (List.length texts) 0 then throw EmptyTexts
  else
    p <- get ;;
    try_catch
      (res <- invoke (Fetch (baseUrl p +++ "/embeddings")
                            ("Bearer " +++ apiKey p) (model p) texts) ;;
       if negb (res_ok res)
       then throw (EmbeddingsFailed Jina (res_status res) (safeReadText res))
       else
         match res_json res with
         | Err e => throw e
         | Ok NoData => throw (UnexpectedResponseShape Jina)
         | Ok (DataArray data) =>
             vectors <- lift_result (embeddings data) ;;
             match expectedDimensions p with
             | Some expected => check_dimensions expected vectors
             | None => ret tt
             end ;;
             ret vectors
         end)
      (fun error =>
         if isAbortError error
         then throw (EmbeddingsTimedOut Jina (timeoutMs p))
         else throw error).

Definition embedOne (text : string) : M t (option vector) :=
  vectors <- embed [text] ;;
  match vectors with
  | v :: _ => ret v
  | [] => ret None
  end.

End JinaAIEmbeddingProvider.

Module OpenAIEmbeddingProvider.

Record Options : Type := mkOptions {
  baseUrl_ : option string;
  timeoutMs_ : option Z;
  expectedDimensions_ : option number
}.

Record t : Type := mk {
  apiKey : string;
  model : string;
  baseUrl : string;
  timeoutMs : Z;
  expectedDimensions : option number
}.

Definition constructor (apiKey model : string) (options : option Options)
  : result t :=
  let options := or_else options (mkOptions None None None) in
  if negb (truthy_string (Some apiKey)) then Err (ApiKeyRequired OpenAI)
  else if negb (truthy_string (Some model)) then Err (ModelRequired OpenAI)
  else Ok (mk apiKey model
              (or_else (baseUrl_ options) "https://api.openai.com/v1")
              (or_else (timeoutMs_ options) 60000%Z)
              (expectedDimensions_ options)).

Fixpoint check_dimensions (expected : number)
                          (vectors : list (option vector)) : M t unit :=
  match vectors with
  | [] => ret tt
  | None :: _ => throw (EmbeddingDimensionMismatch OpenAI expected None)
  | Some v :: rest =>
      if negb (is_length expected (List.length v))
      then throw (EmbeddingDimensionMismatch OpenAI expected
                    (Some (List.length v)))
      else check_dimensions expected rest
  end.

Definition embed (texts : list string) : M t (list (option vector)) :=
  if Nat.eqb (List.length texts) 0 then throw EmptyTexts
  else
    p <- get ;;
    try_catch
      (res <- invoke (Fetch (baseUrl p +++ "/embeddings")
                            ("Bearer " +++ apiKey p) (model p) texts) ;;
       if negb (res_ok res)
       then throw (EmbeddingsFailed OpenAI (res_status res) (safeReadText res))
       else
         match res_json res with
         | Err e => throw e
         | Ok NoData => throw (UnexpectedResponseShape OpenAI)
         | Ok (DataArray data) =>
             vectors <- lift_result (embeddings data) ;;
             match expectedDimensions p with
             | Some expected => check_dimensions expected vectors
             | None => ret tt
             end ;;
             ret vectors
         end)
      (fun error =>
         if isAbortError error
         then throw (EmbeddingsTimedOut OpenAI (timeoutMs p))
         else throw error).

Definition embedOne (text : string) : M t (option vector) :=
  vectors <- embed [text] ;;
  match vectors with
  | v :: _ => ret v
  | [] => ret None
  end.

End OpenAIEmbeddingProvider.

(** ** VectorSmithEmbedding, the registry *)

Definition EmbeddingProviderType_eqb (a b : EmbeddingProviderType) : bool :=
  match a, b with
  | Jina, Jina | OpenAI, OpenAI => true
  | _, _ => false
  end.

(** A JavaScript [Map] keyed by provider type: entries in insertion order,
    one entry for a key. *)
Section ProviderMap.

Variable V : Type.

Definition Map : Type := list (EmbeddingProviderType * V).

Fixpoint Map_set (m : Map) (k : EmbeddingProviderType) (v : V) : Map :=
  match m with
  | [] => [(k, v)]
  | (k', v') :: rest =>
      if EmbeddingProviderType_eqb k k' then (k', v) :: rest
      else (k', v') :: Map_set rest k v
  end.

Fixpoint Map_get (m : Map) (k : EmbeddingProviderType) : option V :=
  match m with
  | [] => None
  | (k', v') :: rest =>
      if EmbeddingProviderType_eqb k k' then Some v' else Map_get rest k
  end.

Definition Map_has (m : Map) (k : EmbeddingProviderType) : bool :=
  match Map_get m k with
  | Some _ => true
  | None => false
  end.

Definition Map_size (m : Map) : nat := List.length m.

(** [m.keys().next().value] *)
Definition Map_first_key (m : Map) : option EmbeddingProviderType :=
  match m with
  | [] => None
  | (k, _) :: _ => Some k
  end.

End ProviderMap.

Module VectorSmithEmbedding.

Record JinaEmbeddingConfig : Type := mkJinaConfig {
  jina_apiKey : string;
  jina_model : string;
  jina_options : option JinaAIEmbeddingProvider.Options
}.

Record OpenAIEmbeddingConfig : Type := mkOpenAIConfig {
  openai_apiKey : string;
  openai_model : string;
  openai_options : option OpenAIEmbeddingProvider.Options
}.

Record Config : Type := mkConfig {
  defaultProvider_ : option EmbeddingProviderType;
  jina : option JinaEmbeddingConfig;
  openai : option OpenAIEmbeddingConfig
}.

(** The implementations of the [EmbeddingProvider] interface. *)
Inductive EmbeddingProvider : Type :=
| JinaProvider (p : JinaAIEmbeddingProvider.t)
| OpenAIProvider (p : OpenAIEmbeddingProvider.t).

Record t : Type := mk {
  providers : Map EmbeddingProvider;
  defaultProvider : option EmbeddingProviderType
}.

Definition constructor (config : Config) : result t :=
  let providers : result (Map EmbeddingProvider) := Ok [] in
  let providers :=
    match providers, jina config with
    | Ok m, Some c =>
        match JinaAIEmbeddingProvider.constructor
                (jina_apiKey c) (jina_model c) (jina_options c) with
        | Ok p => Ok (Map_set m Jina (JinaProvider p))
        | Err e => Err e
        end
    | _, _ => providers
    end in
  let providers :=
    match providers, openai config with
    | Ok m, Some c =>
        match OpenAIEmbeddingProvider.constructor
                (openai_apiKey c) (openai_model c) (openai_options c) with
        | Ok p => Ok (Map_set m OpenAI (OpenAIProvider p))
        | Err e => Err e
        end
    | _, _ => providers
    end in
  match providers with
  | Err e => Err e
  | Ok m =>
      if Nat.eqb (Map_size m) 0 then Err NoProviderConfigured
      else
        match defaultProvider_ config with
        | Some d =>
            if negb (Map_has m d) then Err (DefaultProviderNotConfigured d)
            else Ok (mk m (Some d))
        | None =>
            if Nat.eqb (Map_size m) 1 then Ok (mk m (Map_first_key m))
            else Ok (mk m None)
        end
  end.

Definition hasProvider (e : t) (type : EmbeddingProviderType) : bool :=
  Map_has (providers e) type.

Definition setDefaultProvider (type : EmbeddingProviderType) : M t unit :=
  e <- get ;;
  if negb (Map_has (providers e) type) then throw (CannotSetDefault type)
  else put (mk (providers e) (Some type)).

Definition getDefaultProviderType (e : t) : option EmbeddingProviderType :=
  defaultProvider e.

Definition getProvider (e : t) (type : option EmbeddingProviderType)
  : result EmbeddingProvider :=
  let resolvedType :=
    match type with
    | Some ty => Some ty
    | None => defaultProvider e
    end in
  match resolvedType with
  | None => Err NoDefaultProvider
  | Some resolved =>
      match Map_get (providers e) resolved with
      | None => Err (ProviderNotConfigured resolved)
      | Some provider => Ok provider
      end
  end.

(** Providers hold no mutable state: their methods run on the instance
    and leave the registry as it is. *)
Definition on_provider {A : Type} (provider : EmbeddingProvider)
                       (jina : M JinaAIEmbeddingProvider.t A)
                       (openai : M OpenAIEmbeddingProvider.t A) : M t A :=
  e <- get ;;
  match provider with
  | JinaProvider p => zoom p (fun _ => e) jina
  | OpenAIProvider p => zoom p (fun _ => e) openai
  end.

Definition embed (texts : list string) (type : option EmbeddingProviderType)
  : M t (list (option vector)) :=
  e <- get ;;
  match getProvider e type with
  | Err err => throw err
  | Ok provider =>
      on_provider provider (JinaAIEmbeddingProvider.embed texts)
                           (OpenAIEmbeddingProvider.embed texts)
  end.

Definition embedOne (text : string) (type : option EmbeddingProviderType)
  : M t (option vector) :=
  e <- get ;;
  match getProvider e type with
  | Err err => throw err
  | Ok provider =>
      on_provider provider (JinaAIEmbeddingProvider.embedOne text)
                           (OpenAIEmbeddingProvider.embedOne text)
  end.

End VectorSmithEmbedding.

(** ** Worlds *)

(** A reply that says nothing, for every call. *)
Definition quiet_reply (c : call) : reply c :=
  match c return reply c with
  | RedisGet _ => None
  | RedisDel _ | RedisExists _ => 0%Z
  | RedisKeys _ => []
  | PgClientQuery _ => PgResult [] None
  | SqliteGetExtensionPath => "vector.so"
  | SqliteRequirePlatformPackage => None
  | SqliteStatementRun _ _ => RunResult 0 0
  | SqliteStatementAll _ _ => []
  | QdrantGetCollections => Some []
  | QdrantSearch _ _ _ _ _ _ => []
  | Fetch _ _ _ _ =>
      HttpResponse true 200 (Ok EmptyString) (Ok (DataArray []))
  | RedisCreateClient _ | RedisConnect | RedisQuit | RedisSet _ _
  | RedisSetEx _ _ _ | PgNewPool _ | PgPoolConnect | PgClientRelease
  | PgPoolEnd | SqliteOpen _ | SqlitePragma _ | SqliteLoadExtension _ _
  | SqliteExec _ | SqlitePrepare _ | SqliteStatementGet _ _ | SqliteClose
  | QdrantNewClient _ _ _ | QdrantCreateCollection _ _ _
  | QdrantDeleteCollection _ | QdrantUpsert _ _ _ => tt
  end.

Definition no_env : string -> option string := fun _ => None.

(** Pending promises settle in the order of the array they were pushed
    to. *)
Definition in_array_order : trace -> backend := fun _ => Redis.

(** The world in which every driver call succeeds with the quiet reply. *)
Definition quiet_world : world :=
  World (fun _ c => Ok (quiet_reply c)) no_env (fun text => Some text) in_array_order.

(** *** A pgvector server

    What PostgreSQL with the [vector] extension answers to the statements
    of [PgVectorAdapter], for a database of one table.  The operators
    follow pgvector: [<->] is the Euclidean distance, [<#>] the negated
    inner product, [<=>] the cosine distance.  The first and the last are
    not rational in general; the server below orders and reports by a
    strictly increasing function of them (the squared distance; one minus
    the signed square of the cosine), which leaves the order of rows as the
    server's.  [<#>] is exact. *)
Module Pgvector.

Record stored : Type := Stored {
  stored_id : Z;
  stored_embedding : vector;
  stored_metadata : option json
}.

Record table : Type := Table {
  table_name : string;
  dimension : nat;
  rows : list stored
}.

Fixpoint inner_product (a b : vector) : Q :=
  match a, b with
  | x :: a', y :: b' => (x * y + inner_product a' b')%Q
  | _, _ => 0%Q
  end.

Fixpoint squared_distance (a b : vector) : Q :=
  match a, b with
  | x :: a', y :: b' => ((x - y) * (x - y) + squared_distance a' b')%Q
  | _, _ => 0%Q
  end.

Definition signed_square (x : Q) : Q :=
  if Qle_bool 0 x then (x * x)%Q else (- (x * x))%Q.

Definition operator (op : pg_operator) (e q : vector) : Q :=
  match op with
  | OpL2 => squared_distance e q
  | OpNegInnerProduct => (- inner_product e q)%Q
  | OpCosine =>
      (1 - signed_square (inner_product e q)
           / (inner_product e e * inner_product q q))%Q
  end.

Fixpoint eval (x : pg_expr) (e q : vector) : Q :=
  match x with
  | Distance op => operator op e q
  | OneMinus y => (1 - eval y e q)%Q
  end.

(** [ORDER BY key] ascending, by insertion. *)
Fixpoint insert_by (key : stored -> Q) (r : stored) (sorted : list stored)
  : list stored :=
  match sorted with
  | [] => [r]
  | r' :: rest =>
      if Qle_bool (key r) (key r') then r :: sorted
      else r' :: insert_by key r rest
  end.

Fixpoint order_by (key : stored -> Q) (l : list stored) : list stored :=
  match l with
  | [] => []
  | r :: rest => insert_by key r (order_by key rest)
  end.

Definition select_similar (tb : table) (distanceExpr orderBy : pg_expr)
                          (q : vector) (limit : Z) : result pg_result :=
  if negb (Nat.eqb (List.length q) (dimension tb))
  then Err (Thrown "error"
              ("different vector dimensions "
                 +++ string_of_Z (Z.of_nat (dimension tb)) +++ " and "
                 +++ string_of_Z (Z.of_nat (List.length q))))
  else if Z.ltb limit 0
  then Err (Thrown "error" "LIMIT must not be negative")
  else
    let ordered :=
      order_by (fun r => eval orderBy (stored_embedding r) q) (rows tb) in
    let selected := firstn (Z.to_nat limit) ordered in
    Ok (PgResult
          (map (fun r => PgRow (stored_id r) (stored_embedding r)
                               (stored_metadata r)
                               (Qred (eval distanceExpr (stored_embedding r) q)))
               selected)
          (Some (Z.of_nat (List.length selected)))).

Definition insert (tb : table) (e : vector) (metadata : option string)
  : result pg_result :=
  if negb (Nat.eqb (List.length e) (dimension tb))
  then Err (Thrown "error"
              ("expected " +++ string_of_Z (Z.of_nat (dimension tb))
                 +++ " dimensions, not "
                 +++ string_of_Z (Z.of_nat (List.length e))))
  else
    Ok (PgResult
          [PgRow (Z.of_nat (S (List.length (rows tb)))) [] None 0%Q]
          (Some 1%Z)).

Definition execute (tb : table) (statement : pg_statement)
  : result pg_result :=
  let known (name : string) (answer : result pg_result) :=
    if String.eqb name (escapeIdentifier (table_name tb)) then answer
    else Err (Thrown "error" "relation does not exist") in
  match statement with
  | PgSelectSimilar name distanceExpr orderBy q limit =>
      known name (select_similar tb distanceExpr orderBy q limit)
  | PgInsert name e metadata => known name (insert tb e metadata)
  | _ => Ok (PgResult [] None)
  end.

Definition server (tb : table) : trace -> forall c : call, result (reply c) :=
  fun _ c =>
    match c return result (reply c) with
    | PgClientQuery statement => execute tb statement
    | other => Ok (quiet_reply other)
    end.

Definition serving (tb : table) : world :=
  World (server tb) no_env (fun text => Some text) in_array_order.

End Pgvector.

(** Closest first under a pgvector metric: the metric's operator, applied
    to the returned embeddings and the query, never decreases along the
    results. *)
Definition metric_operator (f : PgVectorAdapter.DistanceFunction) : pg_operator :=
  match f with
  | PgVectorAdapter.cosine => OpCosine
  | PgVectorAdapter.l2 => OpL2
  | PgVectorAdapter.inner_product => OpNegInnerProduct
  end.

Fixpoint ascending (keys : list Q) : bool :=
  match keys with
  | [] => true
  | k :: rest =>
      match rest with
      | [] => true
      | k' :: _ => Qle_bool k k' && ascending rest
      end
  end.

Definition closest_first (f : PgVectorAdapter.DistanceFunction) (q : vector)
                         (results : list PgVectorAdapter.SearchResult) : bool :=
  ascending (map (fun r => Pgvector.operator (metric_operator f)
                             (PgVectorAdapter.embedding r) q) results).

(** ** Retrievers *)

(** [RetrieveRequest<TQuery>] *)
Record RetrieveRequest (TQuery : Type) : Type := Request {
  query : TQuery
}.

(** A retriever holds the adapter it was given, the aggregator's own: its
    [retrieve] runs on that adapter. *)
Module RedisRetriever.

Record Query : Type := mkQuery {
  key : string
}.

Definition retrieve (request : RetrieveRequest Query)
  : M RedisAdapter.t (option string) :=
  RedisAdapter.get_ (key (query request)).

End RedisRetriever.

Module PgVectorRetriever.

Record Query : Type := mkQuery {
  tableName : string;
  queryVector : vector;
  limit : option Z;
  distanceFunction : option PgVectorAdapter.DistanceFunction
}.

Definition retrieve (request : RetrieveRequest Query)
  : M PgVectorAdapter.t (list PgVectorAdapter.SearchResult) :=
  let q := query request in
  PgVectorAdapter.searchSimilar (tableName q) (queryVector q) (limit q)
                                (distanceFunction q).

End PgVectorRetriever.

Module QdrantRetriever.

Record Query : Type := mkQuery {
  collectionName : string;
  vector_ : vector;
  options : option QdrantAdapter.SearchOptions
}.

Definition retrieve (request : RetrieveRequest Query)
  : M QdrantAdapter.t (list QdrantSearchResult) :=
  let q := query request in
  QdrantAdapter.search (collectionName q) (vector_ q) (options q).

End QdrantRetriever.

(** ** Providers from the environment *)

(** [allowed.join(", ")] *)
Fixpoint join (separator : string) (items : list string) : string :=
  match items with
  | [] => EmptyString
  | [item] => item
  | item :: rest => item +++ separator +++ join separator rest
  end.

(** [allowed.includes(value)] *)
Definition includes_string (allowed : list string) (value : string) : bool :=
  existsb (String.eqb value) allowed.

(** [Object.values(JinaEmbeddingModel)] *)
Definition JinaEmbeddingModel_values : list string :=
  ["jina-code-embeddings-0.5b"; "jina-code-embeddings-1.5b";
   "jina-embeddings-v2-base-code"].

(** [Object.values(OpenAIEmbeddingModel)] *)
Definition OpenAIEmbeddingModel_values : list string :=
  ["text-embedding-3-small"; "text-embedding-3-large"].

Definition toJinaEmbeddingModel (value : string) : result string :=
  let allowed := JinaEmbeddingModel_values in
  if includes_string allowed value then Ok value
  else Err (Thrown "Error"
              ("Invalid JINA_EMBEDDING_MODEL " +++ dquote +++ value +++ dquote
                 +++ ". Valid values: " +++ join ", " allowed)).

Definition toOpenAIEmbeddingModel (value : string) : result string :=
  let allowed := OpenAIEmbeddingModel_values in
  if includes_string allowed value then Ok value
  else Err (Thrown "Error"
              ("Invalid OPENAI_EMBEDDING_MODEL " +++ dquote +++ value +++ dquote
                 +++ ". Valid values: " +++ join ", " allowed)).

(** [JinaAIEmbeddingProvider.fromEnv] *)
Definition JinaAIEmbeddingProvider_fromEnv
             (w : world) (options : option JinaAIEmbeddingProvider.Options)
  : result JinaAIEmbeddingProvider.t :=
  let apiKey := or_else (env w "JINA_API_KEY") EmptyString in
  let modelStr := or_else (env w "JINA_EMBEDDING_MODEL") EmptyString in
  match toJinaEmbeddingModel modelStr with
  | Ok model => JinaAIEmbeddingProvider.constructor apiKey model options
  | Err e => Err e
  end.

(** [OpenAIEmbeddingProvider.fromEnv] *)
Definition OpenAIEmbeddingProvider_fromEnv
             (w : world) (options : option OpenAIEmbeddingProvider.Options)
  : result OpenAIEmbeddingProvider.t :=
  let apiKey := or_else (env w "OPENAI_API_KEY") EmptyString in
  let modelStr :=
    or_else (env w "OPENAI_EMBEDDING_MODEL") "text-embedding-3-small" in
  match toOpenAIEmbeddingModel modelStr with
  | Ok model => OpenAIEmbeddingProvider.constructor apiKey model options
  | Err e => Err e
  end.

(** ** Reading a delimited identifier

    How SQL reads the text of a delimited identifier: after the opening
    quote, two quotes stand for one quote of the name and a single quote
    closes it; the text is one identifier when the closing quote is its
    last character. *)
Fixpoint read_delimited (body : string) : option string :=
  match body with
  | EmptyString => None
  | String c rest =>
      if Ascii.eqb c (ascii_of_nat 34) then
        match rest with
        | EmptyString => Some EmptyString
        | String c' rest' =>
            if Ascii.eqb c' (ascii_of_nat 34)
            then option_map (String c) (read_delimited rest')
            else None
        end
      else option_map (String c) (read_delimited rest)
  end.

Definition read_identifier (text : string) : option string :=
  match text with
  | EmptyString => None
  | String c body =>
      if Ascii.eqb c (ascii_of_nat 34) then read_delimited body else None
  end.

(** * Vocabulary of the properties *)

(** ** Predicates on methods *)

(** [refused b m s]: on the instance [s], the method [m] throws the
    not-connected error of backend [b], leaves the instance as it is, and
    calls no driver. *)
Definition refused {S A : Type} (b : backend) (m : M S A) (s : S) : Prop :=
  forall w t, m w s t = (Err (NotConnected b), s, t).

(** [readonly m]: the method [m] never assigns to a field of [this]. *)
Definition readonly {S A : Type} (m : M S A) : Prop :=
  forall w s t, state_of (m w s t) = s.

(** [extends m]: the method [m] adds its driver calls to the trace and
    leaves what was there. *)
Definition extends {S A : Type} (m : M S A) : Prop :=
  forall w s t, exists t', trace_of (m w s t) = t ++ t'.

(** The promises of [connect], each with its backend, as they are when
    its [await] ends. *)
Definition promises_of_connect (w : world) (a : VectorSmithAdapter.t)
                               (t : trace)
  : list (backend * VectorSmithAdapter.promise) :=
  match VectorSmithAdapter.connections w a t with
  | (Ok connections, a', t') =>
      match result_of (VectorSmithAdapter.Promise_all connections w a' t') with
      | Ok x => snd x
      | Err _ => []
      end
  | (Err _, _, _) => []
  end.

(** The calls that take a connection down. *)
Definition disconnects (c : call) : bool :=
  match c with
  | RedisQuit | PgPoolEnd | SqliteClose => true
  | _ => false
  end.

(** The provider types a configuration configures, in the order the
    constructor registers them. *)
Definition configured (config : VectorSmithEmbedding.Config)
  : list EmbeddingProviderType :=
  match VectorSmithEmbedding.jina config with
  | Some _ => [Jina]
  | None => []
  end
  ++
  match VectorSmithEmbedding.openai config with
  | Some _ => [OpenAI]
  | None => []
  end.


(** ** Instances and worlds used as examples *)

(** A world where the PostgreSQL server cannot be reached. *)
Definition postgres_unreachable : world :=
  World (fun _ c =>
           match c return result (reply c) with
           | PgPoolConnect => Err (Thrown "Error" "connect ECONNREFUSED")
           | other => Ok (quiet_reply other)
           end)
        no_env (fun text => Some text) in_array_order.

(** An aggregator of a Redis and a pgvector adapter, as constructed. *)
Definition redis_and_pgvector : VectorSmithAdapter.Config :=
  VectorSmithAdapter.mkConfig
    (Some (RedisAdapter.mkConfig None None None None None))
    (Some (PgVectorAdapter.mkConfig None None None None None None None))
    None None.

Definition fresh_redis_and_pgvector : VectorSmithAdapter.t :=
  VectorSmithAdapter.mk
    (Some (RedisAdapter.constructor
             (RedisAdapter.mkConfig None None None None None)))
    (Some (PgVectorAdapter.constructor
             (PgVectorAdapter.mkConfig None None None None None None None)))
    None None redis_and_pgvector.

(** Connected adapters. *)
Definition sqlite_three_dimensions : SqliteAdapter.t :=
  SqliteAdapter.mk (Some tt)
    (SqliteAdapter.mkConfig "vectors.db" (Finite 3%Q) None None None None
                            None)
    "FLOAT32" "cosine".

Definition pgvector_connected : PgVectorAdapter.t :=
  PgVectorAdapter.mk
    (Some (ConnectionString "postgres://db"))
    (PgVectorAdapter.mkConfig (Some "postgres://db") None None None None None
                              None).

(** A table of two dimensions holding [3,0] and [1,1]. *)
Definition two_items : Pgvector.table :=
  Pgvector.Table "items" 2
    [Pgvector.Stored 1 [3%Q; 0%Q] None; Pgvector.Stored 2 [1%Q; 1%Q] None].

(** A world whose embeddings endpoint answers one vector of three
    entries. *)
Definition three_entries : Response :=
  HttpResponse true 200 (Ok EmptyString)
               (Ok (DataArray [Some (Item (Some [1%Q; 2%Q; 3%Q]))])).

Definition embeddings_of_three : world :=
  World (fun _ c =>
           match c return result (reply c) with
           | Fetch _ _ _ _ => Ok three_entries
           | other => Ok (quiet_reply other)
           end)
        no_env (fun text => Some text) in_array_order.

(** A world whose embeddings endpoint answers [null] and then a vector of
    three entries. *)
Definition null_and_three_entries : Response :=
  HttpResponse true 200 (Ok EmptyString)
               (Ok (DataArray [None; Some (Item (Some [1%Q; 2%Q; 3%Q]))])).

Definition embeddings_after_null : world :=
  World (fun _ c =>
           match c return result (reply c) with
           | Fetch _ _ _ _ => Ok null_and_three_entries
           | other => Ok (quiet_reply other)
           end)
        no_env (fun text => Some text) in_array_order.

Definition jina_896 : JinaAIEmbeddingProvider.t :=
  JinaAIEmbeddingProvider.mk "key" "jina-code-embeddings-0.5b"
                             "https://api.jina.ai/v1" 60000
                             (Some (Finite 896%Q)).

Definition jina_only : VectorSmithEmbedding.Config :=
  VectorSmithEmbedding.mkConfig None
    (Some (VectorSmithEmbedding.mkJinaConfig "key" "jina-code-embeddings-0.5b"
                                             None))
    None.

(** ** Vocabulary and instances of the further properties *)

(** Whether the aggregator holds an adapter for a backend. *)
Definition configured_backend (b : backend) (a : VectorSmithAdapter.t) : bool :=
  match b with
  | Redis => match VectorSmithAdapter.redis a with Some _ => true | None => false end
  | PgVector => match VectorSmithAdapter.pgvector a with Some _ => true | None => false end
  | Sqlite => match VectorSmithAdapter.sqlite a with Some _ => true | None => false end
  | Qdrant => match VectorSmithAdapter.qdrant a with Some _ => true | None => false end
  end.

(** The metrics the SQLite adapter accepts in its configuration: none, the
    empty name, or one of the four names. *)
Definition supported_metric (metric : option string) : Prop :=
  match metric with
  | None => True
  | Some m => m = EmptyString
              \/ In m ["inner_product"; "cosine"; "l2"; "dot"]
  end.

(** The connection configuration [PgVectorAdapter.connect] builds. *)
Definition pg_connection_of (c : PgVectorAdapter.Config) : pg_connection :=
  if truthy_string (PgVectorAdapter.url c)
  then ConnectionString (or_else (PgVectorAdapter.url c) EmptyString)
  else ConnectionFields (or_string (PgVectorAdapter.host c) "localhost")
                        (or_number (PgVectorAdapter.port c) (Finite 5432%Q))
                        (or_string (PgVectorAdapter.user c) "postgres")
                        (PgVectorAdapter.password c)
                        (or_string (PgVectorAdapter.database c) "postgres")
                        (PgVectorAdapter.ssl c).

(** The metric [SqliteAdapter.searchSimilar] checks: the one passed, or by
    default the configured one, or cosine. *)
Definition sqlite_requested_metric (a : SqliteAdapter.t)
                                   (metric : option string) : option string :=
  match metric with
  | Some m => Some m
  | None =>
      Some (or_else (SqliteAdapter.distanceMetric_ (SqliteAdapter.config a))
                    "cosine")
  end.

(** The cluster id [QdrantAdapter.resolveUrl] uses. *)
Definition qdrant_clusterId (w : world) (a : QdrantAdapter.t) : option string :=
  match QdrantAdapter.clusterId (QdrantAdapter.config a) with
  | Some c => Some c
  | None => env w "QDRANT_CLUSTER_ID"
  end.

(** A world where the pool cannot even be created. *)
Definition pool_refused : world :=
  World (fun _ c =>
           match c return result (reply c) with
           | PgNewPool _ => Err (Thrown "TypeError" "invalid connection")
           | other => Ok (quiet_reply other)
           end)
        no_env (fun text => Some text) in_array_order.

(** A world where the Qdrant server cannot be reached. *)
Definition qdrant_unreachable : world :=
  World (fun _ c =>
           match c return result (reply c) with
           | QdrantGetCollections => Err (Thrown "Error" "fetch failed")
           | other => Ok (quiet_reply other)
           end)
        no_env (fun text => Some text) in_array_order.

(** A world whose SQLite tables were never quantized: the cleanup throws. *)
Definition never_quantized : world :=
  World (fun _ c =>
           match c return result (reply c) with
           | SqliteStatementGet SqQuantizeCleanup _ =>
               Err (Thrown "SqliteError" "no such table")
           | other => Ok (quiet_reply other)
           end)
        no_env (fun text => Some text) in_array_order.

(** A world whose embeddings endpoint never answers in time. *)
Definition endpoint_times_out : world :=
  World (fun _ c =>
           match c return result (reply c) with
           | Fetch _ _ _ _ =>
               Err (Thrown "AbortError" "This operation was aborted")
           | other => Ok (quiet_reply other)
           end)
        no_env (fun text => Some text) in_array_order.

(** The dimension check a returned vector passes. *)
Definition has_dimension (expected : number) (v : option vector) : Prop :=
  exists u, v = Some u /\ is_length expected (List.length u) = true.

(** A registry holding the Jina provider alone. *)
Definition registry_of_jina : VectorSmithEmbedding.t :=
  VectorSmithEmbedding.mk [(Jina, VectorSmithEmbedding.JinaProvider jina_896)]
                          (Some Jina).

(** A world with the two Jina variables, and one with the OpenAI key
    only. *)
Definition jina_environment : world :=
  World (fun _ c => Ok (quiet_reply c))
        (fun name =>
           if String.eqb name "JINA_API_KEY" then Some "key"
           else if String.eqb name "JINA_EMBEDDING_MODEL"
                then Some "jina-code-embeddings-0.5b"
                else None)
        (fun text => Some text) in_array_order.

Definition openai_key_only : world :=
  World (fun _ c => Ok (quiet_reply c))
        (fun name =>
           if String.eqb name "OPENAI_API_KEY" then Some "key" else None)
        (fun text => Some text) in_array_order.

(** A world where the vector extension is found in the platform package
    only. *)
Definition extension_in_platform_package : world :=
  World (fun _ c =>
           match c return result (reply c) with
           | SqliteGetExtensionPath =>
               Err (Thrown "ExtensionNotFoundError" "not found")
           | SqliteRequirePlatformPackage => Ok (Some "platform/vector.so")
           | other => Ok (quiet_reply other)
           end)
        no_env (fun text => Some text) in_array_order.

(** A Qdrant adapter configured with an endpoint and a cluster id. *)
Definition qdrant_in_cluster : QdrantAdapter.t :=
  QdrantAdapter.constructor
    (QdrantAdapter.mkConfig None (Some "https://host/") (Some "abc") None None
                            None).

(** ** Vocabulary of the event loop *)

(** [slot_kept b a a']: the adapter of backend [b] is in [a'] what it is in
    [a]. *)
Definition slot_kept (b : backend) (a a' : VectorSmithAdapter.t) : Prop :=
  match b with
  | Redis => VectorSmithAdapter.redis a' = VectorSmithAdapter.redis a
  | PgVector => VectorSmithAdapter.pgvector a' = VectorSmithAdapter.pgvector a
  | Sqlite => VectorSmithAdapter.sqlite a' = VectorSmithAdapter.sqlite a
  | Qdrant => VectorSmithAdapter.qdrant a' = VectorSmithAdapter.qdrant a
  end.

(** [calls_only allowed m]: the method [m] leaves the trace it finds and
    adds allowed calls only. *)
Definition calls_only {S A : Type} (allowed : call -> bool) (m : M S A)
  : Prop :=
  forall w s t,
    exists added,
      trace_of (m w s t) = t ++ added /\ forallb allowed added = true.

Definition no_disconnect (c : call) : bool := negb (disconnects c).

(** [belongs_to allowed b m]: [m] is code of backend [b]'s adapter: it
    leaves the adapters of the other backends alone, empties no slot, and
    makes allowed calls only. *)
Definition belongs_to (allowed : call -> bool) (b : backend)
                      (m : M VectorSmithAdapter.t unit) : Prop :=
  calls_only allowed m
  /\ forall w a t,
       (forall b', b' <> b -> slot_kept b' a (state_of (m w a t)))
       /\ (forall b', configured_backend b' (state_of (m w a t))
                      = configured_backend b' a).

(** [leads goal b segments a]: from [a], whatever happens to the other
    adapters in between, if each of the segments returns, the adapter of
    [b] ends with [isConnected()] at [goal]. *)
Fixpoint leads (goal : bool) (b : backend)
               (segments : list (M VectorSmithAdapter.t unit))
               (a : VectorSmithAdapter.t) : Prop :=
  match segments with
  | [] => VectorSmithAdapter.backend_isConnected b a = goal
  | segment :: rest =>
      forall w a1 t,
        slot_kept b a a1 ->
        result_of (segment w a1 t) = Ok tt ->
        leads goal b rest (state_of (segment w a1 t))
  end.

(** The same for the segments of a method of one adapter. *)
Fixpoint adapter_leads {T : Type} (isConnected : T -> bool) (goal : bool)
                       (segments : list (M T unit)) (adapter : T) : Prop :=
  match segments with
  | [] => isConnected adapter = goal
  | segment :: rest =>
      forall w t,
        result_of (segment w adapter t) = Ok tt ->
        adapter_leads isConnected goal rest (state_of (segment w adapter t))
  end.

(** [starts allowed isConnected goal method]: the asynchronous [method] of
    an adapter makes allowed calls only, at once and in its segments, and
    when it starts, its segments lead the adapter to [goal]. *)
Definition starts {T : Type} (allowed : call -> bool)
                  (isConnected : T -> bool) (goal : bool)
                  (method : M T (list (M T unit))) : Prop :=
  calls_only allowed method
  /\ forall w adapter t,
       match result_of (method w adapter t) with
       | Ok segments =>
           adapter_leads isConnected goal segments
                         (state_of (method w adapter t))
           /\ Forall (calls_only allowed) segments
       | Err _ => True
       end.

(** What is left to run behind a promise. *)
Definition remaining (p : VectorSmithAdapter.promise)
  : list (M VectorSmithAdapter.t unit) :=
  match p with
  | VectorSmithAdapter.Queued job => [job]
  | VectorSmithAdapter.Awaiting next rest => next :: rest
  | VectorSmithAdapter.Fulfilled | VectorSmithAdapter.Rejected _ => []
  end.

(** [on_track allowed goal b p a]: what is left to run behind the promise
    [p] of backend [b] is code of its adapter, and leads it to [goal]
    unless the promise is rejected. *)
Definition on_track (allowed : call -> bool) (goal : bool) (b : backend)
                    (p : VectorSmithAdapter.promise)
                    (a : VectorSmithAdapter.t) : Prop :=
  Forall (belongs_to allowed b) (remaining p)
  /\ match p with
     | VectorSmithAdapter.Rejected _ => True
     | _ => leads goal b (remaining p) a
     end.

(** [on_course allowed goal promises a]: the promises are those of
    different backends, each on track; so the adapter of a backend whose
    promise is fulfilled is at [goal]. *)
Definition on_course (allowed : call -> bool) (goal : bool)
                     (promises : list (backend * VectorSmithAdapter.promise))
                     (a : VectorSmithAdapter.t) : Prop :=
  NoDup (map fst promises)
  /\ forall b p, In (b, p) promises -> on_track allowed goal b p a.

(** [pushed member guard]: whether [push] and [push_job] add a promise. *)
Definition pushed {T : Type} (member : option T) (guard : T -> bool) : bool :=
  match member with
  | Some m => guard m
  | None => false
  end.

(** [is_slot b getter update isConnected]: [getter] reads, [update] assigns
    and [isConnected] asks the adapter in the slot of backend [b], and no
    other slot. *)
Definition is_slot {T : Type} (b : backend)
                   (getter : VectorSmithAdapter.t -> result T)
                   (update : VectorSmithAdapter.t -> T -> VectorSmithAdapter.t)
                   (isConnected : T -> bool) : Prop :=
  (forall a x, getter (update a x) = Ok x)
  /\ (forall a x b', b' <> b -> slot_kept b' a (update a x))
  /\ (forall a x x' b',
        getter a = Ok x ->
        configured_backend b' (update a x') = configured_backend b' a)
  /\ (forall a a1 x, slot_kept b a a1 -> getter a = Ok x -> getter a1 = Ok x)
  /\ (forall a x,
        getter a = Ok x ->
        VectorSmithAdapter.backend_isConnected b a = isConnected x).

(** [rejected] is the first rejection among the promises. *)
Definition first_rejected (rejected : option error)
                          (promises : list (backend * VectorSmithAdapter.promise))
  : Prop :=
  match rejected with
  | Some e => exists b, In (b, VectorSmithAdapter.Rejected e) promises
  | None => forall b e, ~ In (b, VectorSmithAdapter.Rejected e) promises
  end.

(** [moved allowed goal promises a t promises' a' t']: turns of the event
    loop have taken the promises, the aggregator and the trace from the
    first to the second: with allowed calls only, the promises still on
    course and of the same backends, the adapters of the other backends
    untouched, no slot emptied or filled, and no settled promise
    unsettled. *)
Definition moved (allowed : call -> bool) (goal : bool)
                 (promises : list (backend * VectorSmithAdapter.promise))
                 (a : VectorSmithAdapter.t) (t : trace)
                 (promises' : list (backend * VectorSmithAdapter.promise))
                 (a' : VectorSmithAdapter.t) (t' : trace) : Prop :=
  (exists added, t' = t ++ added /\ forallb allowed added = true)
  /\ on_course allowed goal promises' a'
  /\ map fst promises' = map fst promises
  /\ (forall b, ~ In b (map fst promises) -> slot_kept b a a')
  /\ (forall b, configured_backend b a' = configured_backend b a)
  /\ (forall b, In (b, VectorSmithAdapter.Fulfilled) promises ->
                In (b, VectorSmithAdapter.Fulfilled) promises')
  /\ (forall b e, In (b, VectorSmithAdapter.Rejected e) promises ->
                  In (b, VectorSmithAdapter.Rejected e) promises')
  /\ VectorSmithAdapter.pending promises'
     <= VectorSmithAdapter.pending promises.

(** *** Worlds for the event loop *)

(** A world where the Redis server cannot be reached, and an aggregator of
    a Redis and a Qdrant adapter, as constructed. *)
Definition redis_unreachable : world :=
  World (fun _ c =>
           match c return result (reply c) with
           | RedisConnect => Err (Thrown "Error" "connect ECONNREFUSED")
           | other => Ok (quiet_reply other)
           end)
        no_env (fun text => Some text) in_array_order.

(** The same world, where the promise of Qdrant settles before that of
    Redis. *)
Definition redis_unreachable_and_last : world :=
  World (driver redis_unreachable) no_env (fun text => Some text)
        (fun _ => Qdrant).

Definition fresh_redis_and_qdrant : VectorSmithAdapter.t :=
  VectorSmithAdapter.mk
    (Some (RedisAdapter.constructor
             (RedisAdapter.mkConfig None None None None None)))
    None
    (Some (QdrantAdapter.constructor
             (QdrantAdapter.mkConfig None None None None None None)))
    None
    (VectorSmithAdapter.mkConfig
       (Some (RedisAdapter.mkConfig None None None None None))
       None
       (Some (QdrantAdapter.mkConfig None None None None None None))
       None).

(** * Properties *)

(** ** Reasoning about methods *)

(** A step that throws ends the method there. *)
Lemma bind_throws {S A B : Type} (m : M S A) (k : A -> M S B) w s t e s' t' :
  m w s t = (Err e, s', t') ->
  bind m k w s t = (Err e, s', t').
Proof.
  intros H. unfold bind. rewrite H. reflexivity.
Qed.

Lemma bind_returns {S A B : Type} (m : M S A) (k : A -> M S B) w s t a s' t' :
  m w s t = (Ok a, s', t') ->
  bind m k w s t = k a w s' t'.
Proof.
  intros H. unfold bind. rewrite H. reflexivity.
Qed.

Lemma refused_bind {S A B : Type} b (m : M S A) (k : A -> M S B) s :
  refused b m s -> refused b (bind m k) s.
Proof.
  intros H w t. apply bind_throws. apply H.
Qed.

Lemma redis_ensureConnected_refuses a :
  RedisAdapter.isConnected a = false ->
  refused Redis RedisAdapter.ensureConnected a.
Proof.
  intros H w t. unfold RedisAdapter.ensureConnected, bind, get.
  unfold RedisAdapter.isConnected in H. rewrite H. reflexivity.
Qed.

Lemma pgvector_ensureConnected_refuses a :
  PgVectorAdapter.isConnected a = false ->
  refused PgVector PgVectorAdapter.ensureConnected a.
Proof.
  intros H w t. unfold PgVectorAdapter.ensureConnected, bind, get.
  unfold PgVectorAdapter.isConnected in H.
  destruct (PgVectorAdapter.pool a); [discriminate | reflexivity].
Qed.

Lemma sqlite_ensureConnected_refuses a :
  SqliteAdapter.isConnected a = false ->
  refused Sqlite SqliteAdapter.ensureConnected a.
Proof.
  intros H w t. unfold SqliteAdapter.ensureConnected, bind, get.
  unfold SqliteAdapter.isConnected in H.
  destruct (SqliteAdapter.database a); [discriminate | reflexivity].
Qed.

Lemma qdrant_ensureConnected_refuses a :
  QdrantAdapter.isConnected a = false ->
  refused Qdrant QdrantAdapter.ensureConnected a.
Proof.
  intros H w t. unfold QdrantAdapter.ensureConnected, bind, get.
  unfold QdrantAdapter.isConnected in H. rewrite H.
  destruct (QdrantAdapter.client a); reflexivity.
Qed.

Create HintDb guard.
#[local] Hint Resolve redis_ensureConnected_refuses
  pgvector_ensureConnected_refuses sqlite_ensureConnected_refuses
  qdrant_ensureConnected_refuses : guard.

(** A method whose first statement is the guard. *)
Ltac guarded :=
  intros; apply refused_bind; solve [auto with guard].

(** ** C6: data operations of an adapter that is not connected *)

(** C6.  On every backend adapter (Redis, PgVector, Sqlite, Qdrant), each
    data operation called while the adapter is not connected fails with the
    not-connected error; the adapter is left unchanged and no driver call
    is made, so no reconnect is attempted. *)
Theorem data_operations_refused_when_not_connected :
  (forall a, RedisAdapter.isConnected a = false ->
      (forall key, refused Redis (RedisAdapter.get_ key) a)
   /\ (forall key value ttl, refused Redis (RedisAdapter.set key value ttl) a)
   /\ (forall key, refused Redis (RedisAdapter.delete key) a)
   /\ (forall key, refused Redis (RedisAdapter.exists_ key) a)
   /\ (forall pattern, refused Redis (RedisAdapter.keys pattern) a))
  /\
  (forall a, PgVectorAdapter.isConnected a = false ->
      (forall name dim, refused PgVector (PgVectorAdapter.createTable name dim) a)
   /\ (forall name v metadata,
         refused PgVector (PgVectorAdapter.insertVector name v metadata) a)
   /\ (forall name q limit f,
         refused PgVector (PgVectorAdapter.searchSimilar name q limit f) a)
   /\ (forall name id, refused PgVector (PgVectorAdapter.deleteVector name id) a)
   /\ (forall name, refused PgVector (PgVectorAdapter.dropTable name) a))
  /\
  (forall a, SqliteAdapter.isConnected a = false ->
      (forall name, refused Sqlite (SqliteAdapter.createTable name) a)
   /\ (forall name v metadata,
         refused Sqlite (SqliteAdapter.insertVector name v metadata) a)
   /\ (forall name id v metadata,
         refused Sqlite (SqliteAdapter.upsertVector name id v metadata) a)
   /\ (forall name q limit metric,
         refused Sqlite (SqliteAdapter.searchSimilar name q limit metric) a)
   /\ (forall name id, refused Sqlite (SqliteAdapter.deleteVector name id) a)
   /\ (forall name, refused Sqlite (SqliteAdapter.dropTable name) a))
  /\
  (forall a, QdrantAdapter.isConnected a = false ->
      (forall name size distance,
         refused Qdrant (QdrantAdapter.createCollection name size distance) a)
   /\ (forall name, refused Qdrant (QdrantAdapter.deleteCollection name) a)
   /\ refused Qdrant QdrantAdapter.listCollections a
   /\ (forall name points wait,
         refused Qdrant (QdrantAdapter.upsert name points wait) a)
   /\ (forall name v options,
         refused Qdrant (QdrantAdapter.search name v options) a)).
Proof.
  split; [| split; [| split]]; intros a H.
  - repeat split; guarded.
  - repeat split; guarded.
  - repeat split; try guarded.
    intros name q limit metric w t.
    unfold SqliteAdapter.searchSimilar.
    erewrite bind_returns by reflexivity.
    apply refused_bind. auto with guard.
  - repeat split; guarded.
Qed.

(** C6 at a freshly constructed Redis adapter and a freshly constructed
    pgvector adapter. *)
Lemma data_operations_refused_witness :
  let r := RedisAdapter.constructor
             (RedisAdapter.mkConfig None None None None None) in
  let p := PgVectorAdapter.constructor
             (PgVectorAdapter.mkConfig None None None None None None None) in
  RedisAdapter.get_ "key" quiet_world r [] = (Err (NotConnected Redis), r, [])
  /\ PgVectorAdapter.dropTable "items" quiet_world p []
     = (Err (NotConnected PgVector), p, []).
Proof.
  intros r p. split.
  - apply (proj1 (proj1 data_operations_refused_when_not_connected r eq_refl)).
  - apply (proj2 (proj2 (proj2 (proj2
             (proj1 (proj2 data_operations_refused_when_not_connected)
                    p eq_refl))))).
Defined.

(** ** Methods that do not assign to [this] *)

Section Readonly.

Context {S : Type}.

Lemma readonly_ret {A : Type} (a : A) : readonly (@ret S A a).
Proof. intros w s t. reflexivity. Qed.

Lemma readonly_throw {A : Type} (e : error) : readonly (@throw S A e).
Proof. intros w s t. reflexivity. Qed.

Lemma readonly_get : readonly (@get S).
Proof. intros w s t. reflexivity. Qed.

Lemma readonly_ask : readonly (@ask S).
Proof. intros w s t. reflexivity. Qed.

Lemma readonly_invoke (c : call) : readonly (@invoke S c).
Proof. intros w s t. reflexivity. Qed.

Lemma readonly_bind {A B : Type} (m : M S A) (k : A -> M S B) :
  readonly m -> (forall a, readonly (k a)) -> readonly (bind m k).
Proof.
  intros Hm Hk w s t. unfold bind, state_of.
  specialize (Hm w s t). unfold state_of in Hm.
  destruct (m w s t) as [[[a | e] s'] t']; simpl in *; subst s'.
  - apply Hk.
  - reflexivity.
Qed.

Lemma readonly_try_catch {A : Type} (m : M S A) (h : error -> M S A) :
  readonly m -> (forall e, readonly (h e)) -> readonly (try_catch m h).
Proof.
  intros Hm Hh w s t. unfold try_catch, state_of.
  specialize (Hm w s t). unfold state_of in Hm.
  destruct (m w s t) as [[[a | e] s'] t']; simpl in *; subst s'.
  - reflexivity.
  - apply Hh.
Qed.

Lemma readonly_try_finally {A : Type} (m : M S A) (f : M S unit) :
  readonly m -> readonly f -> readonly (try_finally m f).
Proof.
  intros Hm Hf w s t. unfold try_finally, state_of.
  specialize (Hm w s t). unfold state_of in Hm.
  destruct (m w s t) as [[r s'] t']; simpl in *; subst s'.
  specialize (Hf w s t'). unfold state_of in Hf.
  destruct (f w s t') as [[[u | e] s''] t'']; simpl in *; assumption.
Qed.

Lemma readonly_for_each {A : Type} (xs : list A) (body : A -> M S unit) :
  (forall x, readonly (body x)) -> readonly (for_each xs body).
Proof.
  intros Hb. induction xs as [| x rest IH]; simpl.
  - apply readonly_ret.
  - apply readonly_bind; [apply Hb | intros _; exact IH].
Qed.

End Readonly.

Create HintDb readonly.
#[local] Hint Resolve readonly_ret readonly_throw readonly_get readonly_ask
  readonly_invoke : readonly.

(** Walks a method made of the combinators above. *)
Ltac readonly_walk :=
  repeat
    (intros; cbv zeta;
     match goal with
     | |- readonly (bind _ _) => apply readonly_bind
     | |- readonly (try_catch _ _) => apply readonly_try_catch
     | |- readonly (try_finally _ _) => apply readonly_try_finally
     | |- readonly (for_each _ _) => apply readonly_for_each
     | |- readonly (if ?b then _ else _) => destruct b
     | |- readonly (match ?x with _ => _ end) => destruct x
     | |- readonly (invoke _) => intros ? ? ?; reflexivity
     | |- readonly _ => solve [auto with readonly]
     end).

Lemma sqlite_ensureConnected_readonly : readonly SqliteAdapter.ensureConnected.
Proof. unfold SqliteAdapter.ensureConnected. readonly_walk. Qed.

Lemma sqlite_createTable_readonly name :
  readonly (SqliteAdapter.createTable name).
Proof.
  unfold SqliteAdapter.createTable.
  pose proof sqlite_ensureConnected_readonly. readonly_walk.
Qed.

Lemma sqlite_applyPragmas_readonly : readonly SqliteAdapter.applyPragmas.
Proof. unfold SqliteAdapter.applyPragmas. readonly_walk. Qed.

Lemma sqlite_resolveExtensionPath_readonly :
  readonly SqliteAdapter.resolveExtensionPath.
Proof.
  unfold SqliteAdapter.resolveExtensionPath,
    SqliteAdapter.tryResolvePlatformPackage.
  readonly_walk.
Qed.

Lemma sqlite_loadSqliteVectorExtension_readonly :
  readonly SqliteAdapter.loadSqliteVectorExtension.
Proof.
  unfold SqliteAdapter.loadSqliteVectorExtension.
  pose proof sqlite_resolveExtensionPath_readonly. readonly_walk.
Qed.

Lemma sqlite_loadAdditionalExtensions_readonly :
  readonly SqliteAdapter.loadAdditionalExtensions.
Proof. unfold SqliteAdapter.loadAdditionalExtensions. readonly_walk. Qed.

(** What [connect] leaves in the instance: nothing new (it was connected
    already, or the database could not be opened), or the opened handle and
    nothing else. *)
Lemma sqlite_connect_state w a t :
  let run := SqliteAdapter.connect w a t in
  (state_of run = a
   /\ (SqliteAdapter.isConnected a = true \/ exists e, result_of run = Err e))
  \/ state_of run
     = SqliteAdapter.mk (Some tt) (SqliteAdapter.config a)
                        (SqliteAdapter.vectorType a)
                        (SqliteAdapter.distanceMetric a).
Proof.
  unfold SqliteAdapter.connect, SqliteAdapter.isConnected. cbv zeta.
  erewrite bind_returns by reflexivity.
  destruct (SqliteAdapter.database a) as [h |];
    [left; split; [| left]; reflexivity |].
  destruct (driver w t (SqliteOpen (SqliteAdapter.databasePath
                                      (SqliteAdapter.config a))))
    as [u | e] eqn:E.
  2: { erewrite bind_throws by (unfold invoke; rewrite E; reflexivity).
       left; split; [reflexivity | right; exists e; reflexivity]. }
  right.
  erewrite bind_returns by (unfold invoke; rewrite E; reflexivity).
  erewrite bind_returns by reflexivity.
  pose proof sqlite_applyPragmas_readonly.
  pose proof sqlite_loadSqliteVectorExtension_readonly.
  pose proof sqlite_loadAdditionalExtensions_readonly.
  pose proof sqlite_createTable_readonly.
  match goal with
  | |- state_of (?m w ?s ?t') = _ =>
      assert (R : readonly m) by readonly_walk; apply R
  end.
Qed.

(** ** The trace only grows *)

Section Extends.

Context {S : Type}.

Lemma extends_silent {A : Type} (m : M S A) :
  (forall w s t, trace_of (m w s t) = t) -> extends m.
Proof.
  intros H w s t. exists []. rewrite app_nil_r. apply H.
Qed.

Lemma extends_invoke (c : call) : extends (@invoke S c).
Proof. intros w s t. exists [c]. reflexivity. Qed.

Lemma extends_bind {A B : Type} (m : M S A) (k : A -> M S B) :
  extends m -> (forall a, extends (k a)) -> extends (bind m k).
Proof.
  intros Hm Hk w s t. unfold bind.
  destruct (Hm w s t) as [t1 H1]. unfold trace_of in H1.
  destruct (m w s t) as [[[a | e] s'] t']; simpl in H1; subst t'.
  - destruct (Hk a w s' (t ++ t1)) as [t2 H2].
    exists (t1 ++ t2). rewrite H2. symmetry. apply app_assoc.
  - exists t1. reflexivity.
Qed.

Lemma extends_try_catch {A : Type} (m : M S A) (h : error -> M S A) :
  extends m -> (forall e, extends (h e)) -> extends (try_catch m h).
Proof.
  intros Hm Hh w s t. unfold try_catch.
  destruct (Hm w s t) as [t1 H1]. unfold trace_of in H1.
  destruct (m w s t) as [[[a | e] s'] t']; simpl in H1; subst t'.
  - exists t1. reflexivity.
  - destruct (Hh e w s' (t ++ t1)) as [t2 H2].
    exists (t1 ++ t2). rewrite H2. symmetry. apply app_assoc.
Qed.

End Extends.

Lemma extends_ret {S A : Type} (a : A) : extends (@ret S A a).
Proof. apply extends_silent. reflexivity. Qed.

Lemma extends_throw {S A : Type} (e : error) : extends (@throw S A e).
Proof. apply extends_silent. reflexivity. Qed.

Lemma extends_get {S : Type} : extends (@get S).
Proof. apply extends_silent. reflexivity. Qed.

Lemma extends_ask {S : Type} : extends (@ask S).
Proof. apply extends_silent. reflexivity. Qed.

Create HintDb extends.
#[local] Hint Resolve extends_ret extends_throw extends_get extends_ask
  extends_invoke : extends.

Ltac extends_walk :=
  repeat
    (intros; cbv zeta;
     match goal with
     | |- extends (bind _ _) => apply extends_bind
     | |- extends (try_catch _ _) => apply extends_try_catch
     | |- extends (invoke _) => apply extends_invoke
     | |- extends (if ?b then _ else _) => destruct b
     | |- extends (match ?x with _ => _ end) => destruct x
     | |- extends _ => solve [auto with extends]
     end).

Lemma sqlite_map_rows_extends rows : extends (SqliteAdapter.map_rows rows).
Proof.
  induction rows as [| row rest IH]; simpl.
  - apply extends_ret.
  - unfold SqliteAdapter.deserializeVector, SqliteAdapter.parseMetadata.
    extends_walk.
Qed.

Lemma sqlite_serializeVector_extends v : extends (SqliteAdapter.serializeVector v).
Proof.
  unfold SqliteAdapter.serializeVector, SqliteAdapter.ensureDimension.
  extends_walk.
Qed.

(** ** C9: the SQLite adapter's dimension is not at most zero *)

Lemma Qle_bool_flip x y : Qle_bool x y = false -> Qle_bool y x = true.
Proof.
  intros H. apply Qle_bool_iff.
  destruct (Qlt_le_dec y x) as [L | L].
  - apply Qlt_le_weak. exact L.
  - apply Qle_bool_iff in L. congruence.
Qed.

(** A number that is not at most zero is greater than zero, or [NaN]. *)
Lemma number_not_at_most_zero d :
  number_leb d zero = false -> d = NaN \/ number_ltb zero d = true.
Proof.
  destruct d as [| [|] | q]; simpl; intros H.
  - left. reflexivity.
  - discriminate H.
  - right. reflexivity.
  - right. unfold number_ltb. simpl.
    rewrite H, (Qle_bool_flip _ _ H). reflexivity.
Qed.



(** A dimension of [NaN], of which [NaN <= 0] is false, is accepted, and so
    is a fraction above zero; minus infinity is refused. *)
Example sqlite_constructor_accepts_NaN :
  is_ok (SqliteAdapter.constructor
           (SqliteAdapter.mkConfig "vectors.db" NaN None None None None None))
  = true
  /\ is_ok (SqliteAdapter.constructor
              (SqliteAdapter.mkConfig "vectors.db" (Finite 0.5%Q) None None
                                      None None None))
     = true
  /\ SqliteAdapter.constructor
       (SqliteAdapter.mkConfig "vectors.db" (Infinity true) None None None
                               None None)
     = Err DimensionNotPositive.
Proof. repeat split. Qed.

(** ** C10: [dot] and [inner_product] in the SQLite adapter *)

Lemma sqlite_mapDistanceMetric_dot m :
  m = "dot" \/ m = "inner_product" ->
  SqliteAdapter.mapDistanceMetric (Some m) = Ok "dot".
Proof.
  intros [-> | ->]; reflexivity.
Qed.

(** C10.  An adapter configured with the metric [dot] or [inner_product]
    stores the metric [dot]; on it, the metric check of a search that asks
    for [dot] or for [inner_product] passes, and [searchSimilar], when the
    adapter is connected and the query has the configured dimension, goes
    on to prepare its statement on the database. *)
Theorem sqlite_dot_is_inner_product :
  forall config a configured requested,
    SqliteAdapter.constructor config = Ok a ->
    SqliteAdapter.distanceMetric_ config = Some configured ->
    configured = "dot" \/ configured = "inner_product" ->
    requested = "dot" \/ requested = "inner_product" ->
    SqliteAdapter.distanceMetric a = "dot"
    /\ (forall w t,
          SqliteAdapter.assertDistanceMetric (Some requested) w a t
          = (Ok tt, a, t))
    /\ (forall w t name q limit,
          let connected :=
            SqliteAdapter.mk (Some tt) (SqliteAdapter.config a)
                             (SqliteAdapter.vectorType a)
                             (SqliteAdapter.distanceMetric a) in
          SqliteAdapter.assertDistanceMetric (Some requested) w connected t
          = (Ok tt, connected, t)
          /\ (is_length (SqliteAdapter.vectorDimension config)
                        (List.length q) = true ->
              SqliteAdapter.vectorType a = "FLOAT32" ->
              exists rest,
                trace_of (SqliteAdapter.searchSimilar name q limit
                            (Some requested) w connected t)
                = t ++ SqlitePrepare
                         (SqSearch (escapeIdentifier name) "embedding"
                                   "vector_as_f32(@queryVector)") :: rest)).
Proof.
  intros config a configured requested Hc Hm Hconf Hreq.
  unfold SqliteAdapter.constructor in Hc.
  destruct (number_leb _ zero); [discriminate |].
  rewrite Hm, (sqlite_mapDistanceMetric_dot Hconf) in Hc.
  injection Hc as <-. simpl.
  assert (Hassert : forall w t s,
             SqliteAdapter.distanceMetric s = "dot" ->
             SqliteAdapter.assertDistanceMetric (Some requested) w s t
             = (Ok tt, s, t)).
  { intros w t s Hs. unfold SqliteAdapter.assertDistanceMetric.
    rewrite (sqlite_mapDistanceMetric_dot Hreq). simpl.
    unfold bind, ret, get. simpl. rewrite Hs. reflexivity. }
  split; [reflexivity |]. split; [intros; apply Hassert; reflexivity |].
  intros w t name q limit. split; [apply Hassert; reflexivity |].
  intros Hdim Htype.
  unfold SqliteAdapter.searchSimilar.
  erewrite bind_returns by reflexivity. cbv zeta.
  erewrite bind_returns by reflexivity.
  erewrite bind_returns
    by (unfold SqliteAdapter.ensureDimension, bind, get; simpl;
        rewrite Hdim; reflexivity).
  erewrite bind_returns by (apply Hassert; reflexivity).
  erewrite bind_returns
    by (unfold SqliteAdapter.wrapVectorFunction, bind, get; simpl;
        rewrite Htype; reflexivity).
  set (statement := SqSearch _ _ _).
  set (s := SqliteAdapter.mk _ _ _ _).
  assert (E : extends
                (fun w0 s0 t0 =>
                   (blob <- SqliteAdapter.serializeVector q ;;
                    rows <- invoke (SqliteStatementAll statement
                                      (BindSearch name
                                         SqliteAdapter.vectorColumnName blob
                                         (or_else limit 10%Z))) ;;
                    SqliteAdapter.map_rows rows) w0 s0 t0
                   : result (list SqliteAdapter.SearchResult)
                     * SqliteAdapter.t * trace)).
  { apply extends_bind; [apply sqlite_serializeVector_extends |].
    intros blob. apply extends_bind; [apply extends_invoke |].
    intros rows. apply sqlite_map_rows_extends. }
  unfold bind at 1. unfold invoke at 1.
  destruct (driver w t (SqlitePrepare statement)) as [u | e].
  - destruct (E w s (t ++ [SqlitePrepare statement])) as [rest H].
    exists rest. rewrite H. rewrite <- app_assoc. reflexivity.
  - exists []. reflexivity.
Qed.

(** C10 at a table configured with [dot] and a search asking for
    [inner_product]. *)
Lemma sqlite_dot_is_inner_product_witness :
  let a := SqliteAdapter.mk None
             (SqliteAdapter.mkConfig "vectors.db" (Finite 3%Q) None
                                     (Some "dot") None None None)
             "FLOAT32" "dot" in
  SqliteAdapter.assertDistanceMetric (Some "inner_product") quiet_world a []
  = (Ok tt, a, []).
Proof.
  intros a.
  apply (proj1 (proj2 (@sqlite_dot_is_inner_product
                         (SqliteAdapter.mkConfig "vectors.db" (Finite 3%Q)
                                                 None (Some "dot") None None
                                                 None)
                         a "dot" "inner_product"
                         eq_refl eq_refl (or_introl eq_refl)
                         (or_intror eq_refl)))).
Defined.

(** ** C4: the aggregator without backends *)

(** C4.  On an aggregator constructed from a configuration with no backend,
    [connect] fails with the no-adapters-configured error, whatever the
    world; it changes nothing and calls no driver. *)
Theorem connect_without_adapters_fails :
  forall w t,
    exists a,
      VectorSmithAdapter.constructor
        (VectorSmithAdapter.mkConfig None None None None) = Ok a
      /\ VectorSmithAdapter.connect w a t = (Err NoAdaptersConfigured, a, t).
Proof.
  intros w t. eexists. split; reflexivity.
Qed.

(** ** C5: when the aggregator is connected *)

Lemma aggregator_isConnected_or a :
  VectorSmithAdapter.isConnected a
  = VectorSmithAdapter.backend_isConnected Redis a
    || VectorSmithAdapter.backend_isConnected PgVector a
    || VectorSmithAdapter.backend_isConnected Sqlite a
    || VectorSmithAdapter.backend_isConnected Qdrant a.
Proof.
  unfold VectorSmithAdapter.isConnected, VectorSmithAdapter.backend_isConnected.
  destruct (VectorSmithAdapter.redis a), (VectorSmithAdapter.pgvector a),
    (VectorSmithAdapter.sqlite a), (VectorSmithAdapter.qdrant a);
    simpl; rewrite ?orb_false_r; reflexivity.
Qed.

Lemma aggregator_isConnected_exists a :
  VectorSmithAdapter.isConnected a = true
  <-> exists b, VectorSmithAdapter.backend_isConnected b a = true.
Proof.
  rewrite aggregator_isConnected_or. split.
  - intros H. repeat (apply orb_true_iff in H; destruct H as [H | H]);
      eauto.
  - intros [[] H]; rewrite H; rewrite ?orb_true_r; reflexivity.
Qed.

(** Disconnecting the adapter of one slot leaves the other slots alone. *)
Lemma disconnect_backend_other_slots b b' w a t :
  b <> b' ->
  VectorSmithAdapter.backend_isConnected b'
    (state_of (VectorSmithAdapter.disconnect_backend b w a t))
  = VectorSmithAdapter.backend_isConnected b' a.
Proof.
  intros Hneq.
  unfold VectorSmithAdapter.disconnect_backend, bind, get, zoom, throw,
    VectorSmithAdapter.getRedis, VectorSmithAdapter.getPgVector,
    VectorSmithAdapter.getSqlite, VectorSmithAdapter.getQdrant.
  destruct a as [[r |] [p |] [q |] [s |] c].
  all: destruct b, b'; try congruence; simpl; try reflexivity.
  all: match goal with
       | |- context [let (_, _) := ?run in _] =>
           destruct run as [[res x'] t']; reflexivity
       end.
Qed.

(** C5.  [isConnected()] of the aggregator is true exactly when the adapter
    in some configured slot reports connected; and after the adapter of one
    slot is disconnected, the aggregator is still connected as long as the
    adapter of another slot is. *)
Theorem aggregator_isConnected_iff_some_backend :
  forall (a : VectorSmithAdapter.t),
    (VectorSmithAdapter.isConnected a = true
     <-> exists b, VectorSmithAdapter.backend_isConnected b a = true)
    /\
    (forall w t b b',
       b <> b' ->
       VectorSmithAdapter.backend_isConnected b' a = true ->
       VectorSmithAdapter.isConnected
         (state_of (VectorSmithAdapter.disconnect_backend b w a t)) = true).
Proof.
  intros a. split; [apply aggregator_isConnected_exists |].
  intros w t b b' Hneq Hb'.
  apply aggregator_isConnected_exists. exists b'.
  rewrite disconnect_backend_other_slots by assumption. exact Hb'.
Qed.

(** C5 at an aggregator whose Redis and pgvector adapters are connected,
    after the Redis adapter is disconnected. *)
Lemma aggregator_isConnected_witness :
  let a :=
    VectorSmithAdapter.mk
      (Some (RedisAdapter.mk (Some (RedisAdapter.mkClient true))
                             (RedisAdapter.mkConfig None None None None None)))
      (Some (PgVectorAdapter.mk
               (Some (ConnectionString "postgres://db"))
               (PgVectorAdapter.mkConfig (Some "postgres://db") None None None
                                         None None None)))
      None None
      (VectorSmithAdapter.mkConfig
         (Some (RedisAdapter.mkConfig None None None None None))
         (Some (PgVectorAdapter.mkConfig (Some "postgres://db") None None None
                                         None None None))
         None None) in
  VectorSmithAdapter.isConnected
    (state_of (VectorSmithAdapter.disconnect_backend Redis quiet_world a []))
  = true.
Proof.
  intros a.
  apply (proj2 (aggregator_isConnected_iff_some_backend a)
               quiet_world [] Redis PgVector);
    [discriminate | reflexivity].
Defined.

(** ** C3: a failed aggregate connect *)

(** Splits on what the drivers answer along a run. *)
Ltac answer :=
  repeat match goal with
    | |- context [driver ?w ?t ?c] =>
        let r := fresh "reply" in
        destruct (driver w t c) as [r | r]; simpl
    end.

Lemma redis_connect_ok w a t :
  result_of (RedisAdapter.connect w a t) = Ok tt ->
  RedisAdapter.isConnected (state_of (RedisAdapter.connect w a t)) = true.
Proof.
  unfold RedisAdapter.connect, RedisAdapter.isConnected, bind, get, put,
    invoke, ret, result_of, state_of.
  destruct (RedisAdapter.client_isOpen a) eqn:E; simpl; [intros _; exact E |].
  answer; intros H; try discriminate H; reflexivity.
Qed.

Lemma pgvector_connect_ok w a t :
  result_of (PgVectorAdapter.connect w a t) = Ok tt ->
  PgVectorAdapter.isConnected (state_of (PgVectorAdapter.connect w a t)) = true.
Proof.
  unfold PgVectorAdapter.connect, PgVectorAdapter.isConnected,
    PgVectorAdapter.ensurePgVectorExtension, try_finally, bind, get, put,
    invoke, ret, result_of, state_of.
  destruct (PgVectorAdapter.pool a) eqn:E; simpl; [rewrite E; reflexivity |].
  answer; intros H; try discriminate H; reflexivity.
Qed.

Lemma sqlite_connect_ok w a t :
  result_of (SqliteAdapter.connect w a t) = Ok tt ->
  SqliteAdapter.isConnected (state_of (SqliteAdapter.connect w a t)) = true.
Proof.
  intros H.
  destruct (sqlite_connect_state w a t) as [[E [C | [e C]]] | E];
    cbv zeta in *; rewrite E.
  - exact C.
  - congruence.
  - reflexivity.
Qed.

Lemma qdrant_connect_ok w a t :
  result_of (QdrantAdapter.connect w a t) = Ok tt ->
  QdrantAdapter.isConnected (state_of (QdrantAdapter.connect w a t)) = true.
Proof.
  unfold QdrantAdapter.connect, QdrantAdapter.isConnected, bind, get, put,
    ask, invoke, ret, result_of, state_of.
  destruct (QdrantAdapter.connected a) eqn:E; simpl; [intros _; exact E |].
  answer; intros H; try discriminate H; reflexivity.
Qed.

(** *** The segments of an asynchronous method *)

(** Run with nothing in between, the segments of a method are the method. *)
Lemma redis_connect_uninterrupted w a t :
  (segments <- RedisAdapter.connect_async ;; uninterrupted segments) w a t
  = RedisAdapter.connect w a t.
Proof.
  unfold RedisAdapter.connect_async, RedisAdapter.connect, uninterrupted,
    bind, get, put, invoke, ret.
  destruct (RedisAdapter.client_isOpen a); [reflexivity |].
  answer; reflexivity.
Qed.

Lemma redis_disconnect_uninterrupted w a t :
  (segments <- RedisAdapter.disconnect_async ;; uninterrupted segments) w a t
  = RedisAdapter.disconnect w a t.
Proof.
  unfold RedisAdapter.disconnect_async, RedisAdapter.disconnect,
    uninterrupted, bind, get, put, invoke, ret.
  destruct (RedisAdapter.client_isOpen a); [| reflexivity].
  answer; reflexivity.
Qed.

Lemma pgvector_connect_uninterrupted w a t :
  (segments <- PgVectorAdapter.connect_async ;; uninterrupted segments) w a t
  = PgVectorAdapter.connect w a t.
Proof.
  unfold PgVectorAdapter.connect_async, PgVectorAdapter.connect,
    PgVectorAdapter.ensurePgVectorExtension, uninterrupted, try_catch,
    try_finally, bind, get, put, invoke, ret, throw.
  destruct (PgVectorAdapter.pool a); [reflexivity |].
  answer; reflexivity.
Qed.

Lemma pgvector_disconnect_uninterrupted w a t :
  (segments <- PgVectorAdapter.disconnect_async ;; uninterrupted segments)
    w a t
  = PgVectorAdapter.disconnect w a t.
Proof.
  unfold PgVectorAdapter.disconnect_async, PgVectorAdapter.disconnect,
    uninterrupted, bind, get, put, invoke, ret.
  destruct (PgVectorAdapter.pool a); [| reflexivity].
  answer; reflexivity.
Qed.

Lemma qdrant_connect_uninterrupted w a t :
  (segments <- QdrantAdapter.connect_async ;; uninterrupted segments) w a t
  = QdrantAdapter.connect w a t.
Proof.
  unfold QdrantAdapter.connect_async, QdrantAdapter.connect, uninterrupted,
    bind, get, put, ask, invoke, ret.
  destruct (QdrantAdapter.connected a); [reflexivity |].
  answer; reflexivity.
Qed.

Lemma qdrant_disconnect_uninterrupted w a t :
  (segments <- QdrantAdapter.disconnect_async ;; uninterrupted segments) w a t
  = QdrantAdapter.disconnect w a t.
Proof. reflexivity. Qed.

(** *** The calls a method makes *)

Section CallsOnly.

Context {S : Type}.
Variable allowed : call -> bool.

Lemma calls_only_silent {A : Type} (m : M S A) :
  (forall w s t, trace_of (m w s t) = t) -> calls_only allowed m.
Proof.
  intros H w s t. exists []. rewrite app_nil_r. split; [apply H | reflexivity].
Qed.

Lemma calls_only_ret {A : Type} (a : A) : calls_only allowed (@ret S A a).
Proof. apply calls_only_silent. reflexivity. Qed.

Lemma calls_only_throw {A : Type} (e : error) :
  calls_only allowed (@throw S A e).
Proof. apply calls_only_silent. reflexivity. Qed.

Lemma calls_only_get : calls_only allowed (@get S).
Proof. apply calls_only_silent. reflexivity. Qed.

Lemma calls_only_put (s : S) : calls_only allowed (put s).
Proof. apply calls_only_silent. reflexivity. Qed.

Lemma calls_only_ask : calls_only allowed (@ask S).
Proof. apply calls_only_silent. reflexivity. Qed.

Lemma calls_only_invoke (c : call) :
  allowed c = true -> calls_only allowed (@invoke S c).
Proof.
  intros H w s t. exists [c]. split; [reflexivity |].
  simpl. rewrite H. reflexivity.
Qed.

Lemma calls_only_bind {A B : Type} (m : M S A) (k : A -> M S B) :
  calls_only allowed m -> (forall a, calls_only allowed (k a)) ->
  calls_only allowed (bind m k).
Proof.
  intros Hm Hk w s t. unfold bind.
  destruct (Hm w s t) as [t1 [H1 P1]]. unfold trace_of in H1.
  destruct (m w s t) as [[[a | e] s'] t']; simpl in H1; subst t'.
  - destruct (Hk a w s' (t ++ t1)) as [t2 [H2 P2]].
    exists (t1 ++ t2). rewrite H2, app_assoc. split; [reflexivity |].
    rewrite forallb_app, P1, P2. reflexivity.
  - exists t1. split; [reflexivity | exact P1].
Qed.

Lemma calls_only_try_catch {A : Type} (m : M S A) (h : error -> M S A) :
  calls_only allowed m -> (forall e, calls_only allowed (h e)) ->
  calls_only allowed (try_catch m h).
Proof.
  intros Hm Hh w s t. unfold try_catch.
  destruct (Hm w s t) as [t1 [H1 P1]]. unfold trace_of in H1.
  destruct (m w s t) as [[[a | e] s'] t']; simpl in H1; subst t'.
  - exists t1. split; [reflexivity | exact P1].
  - destruct (Hh e w s' (t ++ t1)) as [t2 [H2 P2]].
    exists (t1 ++ t2). rewrite H2, app_assoc. split; [reflexivity |].
    rewrite forallb_app, P1, P2. reflexivity.
Qed.

Lemma calls_only_try_finally {A : Type} (m : M S A) (f : M S unit) :
  calls_only allowed m -> calls_only allowed f ->
  calls_only allowed (try_finally m f).
Proof.
  intros Hm Hf w s t. unfold try_finally.
  destruct (Hm w s t) as [t1 [H1 P1]]. unfold trace_of in H1.
  destruct (m w s t) as [[r s'] t']; simpl in H1; subst t'.
  destruct (Hf w s' (t ++ t1)) as [t2 [H2 P2]]. unfold trace_of in H2.
  destruct (f w s' (t ++ t1)) as [[[u | e] s''] t'']; simpl in H2; subst t'';
    exists (t1 ++ t2); rewrite app_assoc; (split; [reflexivity |]);
    rewrite forallb_app, P1, P2; reflexivity.
Qed.

Lemma calls_only_for_each {A : Type} (xs : list A) (body : A -> M S unit) :
  (forall x, calls_only allowed (body x)) ->
  calls_only allowed (for_each xs body).
Proof.
  intros Hb. induction xs as [| x rest IH]; simpl.
  - apply calls_only_ret.
  - apply calls_only_bind; [apply Hb | intros _; exact IH].
Qed.

Lemma calls_only_settle {A : Type} (m : M S A) :
  calls_only allowed m -> calls_only allowed (settle m).
Proof.
  intros Hm w s t. unfold settle.
  destruct (Hm w s t) as [t1 [H1 P1]]. unfold trace_of in H1.
  destruct (m w s t) as [[r s'] t']; simpl in H1; subst t'.
  exists t1. split; [reflexivity | exact P1].
Qed.

Lemma calls_only_zoom {T A : Type} (member : T) (update : T -> S)
      (m : M T A) :
  (forall w s t, exists added,
      trace_of (m w s t) = t ++ added /\ forallb allowed added = true) ->
  calls_only allowed (zoom member update m).
Proof.
  intros Hm w s t. unfold zoom.
  destruct (Hm w member t) as [t1 [H1 P1]]. unfold trace_of in H1.
  destruct (m w member t) as [[r s'] t']; simpl in H1; subst t'.
  exists t1. split; [reflexivity | exact P1].
Qed.

End CallsOnly.

(** Walks a method made of the combinators above. *)
Ltac calls_walk :=
  repeat
    (intros; cbv zeta;
     match goal with
     | |- calls_only _ (bind _ _) => apply calls_only_bind
     | |- calls_only _ (try_catch _ _) => apply calls_only_try_catch
     | |- calls_only _ (try_finally _ _) => apply calls_only_try_finally
     | |- calls_only _ (for_each _ _) => apply calls_only_for_each
     | |- calls_only _ (settle _) => apply calls_only_settle
     | |- calls_only _ (invoke _) => apply calls_only_invoke; reflexivity
     | |- calls_only _ (if ?b then _ else _) => destruct b
     | |- calls_only _ (match ?x with _ => _ end) => destruct x
     | |- calls_only _ (ret _) => apply calls_only_ret
     | |- calls_only _ (throw _) => apply calls_only_throw
     | |- calls_only _ get => apply calls_only_get
     | |- calls_only _ (put _) => apply calls_only_put
     | |- calls_only _ ask => apply calls_only_ask
     end).

Lemma sqlite_connect_calls :
  calls_only no_disconnect SqliteAdapter.connect.
Proof.
  unfold SqliteAdapter.connect, SqliteAdapter.applyPragmas,
    SqliteAdapter.loadSqliteVectorExtension,
    SqliteAdapter.loadAdditionalExtensions,
    SqliteAdapter.resolveExtensionPath,
    SqliteAdapter.tryResolvePlatformPackage, SqliteAdapter.createTable,
    SqliteAdapter.ensureConnected.
  calls_walk.
Qed.

(** *** Code of one adapter, run on the aggregator *)

Lemma slot_kept_refl b a : slot_kept b a a.
Proof. destruct b; reflexivity. Qed.

Lemma slot_kept_trans b a a' a'' :
  slot_kept b a a' -> slot_kept b a' a'' -> slot_kept b a a''.
Proof. destruct b; simpl; congruence. Qed.

Lemma slot_kept_isConnected b a a' :
  slot_kept b a a' ->
  VectorSmithAdapter.backend_isConnected b a'
  = VectorSmithAdapter.backend_isConnected b a.
Proof.
  destruct b; simpl; intros ->; reflexivity.
Qed.

Lemma leads_slot goal b segments a a' :
  slot_kept b a a' -> leads goal b segments a -> leads goal b segments a'.
Proof.
  destruct segments as [| segment rest]; simpl; intros K H.
  - rewrite slot_kept_isConnected with (a := a) by exact K. exact H.
  - intros w a1 t K1. apply H. eapply slot_kept_trans; eassumption.
Qed.

Lemma on_track_slot allowed goal b p a a' :
  slot_kept b a a' -> on_track allowed goal b p a ->
  on_track allowed goal b p a'.
Proof.
  intros K [B L]. split; [exact B |].
  destruct p; try exact I; eapply leads_slot; eassumption.
Qed.

Lemma remaining_settlement segments :
  remaining (VectorSmithAdapter.settlement (Ok tt) segments) = segments.
Proof. destruct segments; reflexivity. Qed.

Lemma on_track_settlement allowed goal b segments a :
  Forall (belongs_to allowed b) segments ->
  leads goal b segments a ->
  on_track allowed goal b (VectorSmithAdapter.settlement (Ok tt) segments) a.
Proof.
  intros B L. split; [rewrite remaining_settlement; exact B |].
  destruct segments; exact L.
Qed.

Section OnAdapter.

Variable T : Type.
Variable b : backend.
Variable getter : VectorSmithAdapter.t -> result T.
Variable update : VectorSmithAdapter.t -> T -> VectorSmithAdapter.t.
Variable isConnected : T -> bool.

Hypothesis slot : is_slot b getter update isConnected.

Lemma on_adapter_run {A : Type} (m : M T A) w a t x :
  getter a = Ok x ->
  VectorSmithAdapter.on_adapter getter update m w a t
  = (result_of (m w x t), update a (state_of (m w x t)), trace_of (m w x t)).
Proof.
  intros H. unfold VectorSmithAdapter.on_adapter, bind, get, zoom.
  rewrite H. destruct (m w x t) as [[r x'] t']. reflexivity.
Qed.

Lemma on_adapter_belongs allowed (m : M T unit) :
  calls_only allowed m ->
  belongs_to allowed b (VectorSmithAdapter.on_adapter getter update m).
Proof.
  destruct slot as (_ & frame & kept & _).
  intros Hm. split.
  - intros w a t. destruct (getter a) as [x | e] eqn:G.
    + rewrite on_adapter_run with (x := x) by exact G. apply Hm.
    + unfold VectorSmithAdapter.on_adapter, bind, get. rewrite G.
      exists []. rewrite app_nil_r. split; reflexivity.
  - intros w a t. destruct (getter a) as [x | e] eqn:G.
    + rewrite on_adapter_run with (x := x) by exact G.
      unfold state_of at 1 3. simpl. split.
      * intros b' Hb'. apply frame. exact Hb'.
      * intros b'. eapply kept. exact G.
    + unfold VectorSmithAdapter.on_adapter, bind, get. rewrite G.
      split; intros; [apply slot_kept_refl | reflexivity].
Qed.

Lemma on_adapter_leads goal (segments : list (M T unit)) :
  forall a x,
    getter a = Ok x ->
    adapter_leads isConnected goal segments x ->
    leads goal b
          (map (VectorSmithAdapter.on_adapter getter update) segments) a.
Proof.
  destruct slot as (get_update & _ & _ & get_slot & get_isConnected).
  induction segments as [| segment rest IH]; simpl; intros a x G H.
  - rewrite get_isConnected with (x := x) by exact G. exact H.
  - intros w a1 t K.
    assert (G1 : getter a1 = Ok x) by (eapply get_slot; eassumption).
    rewrite on_adapter_run with (x := x) by exact G1.
    unfold result_of at 1, state_of at 1. simpl. intros R.
    apply IH with (x := state_of (segment w x t)); [apply get_update |].
    apply H. exact R.
Qed.

(** [push]: the method starts, and the promise is on track. *)
Lemma push_run allowed goal member guard method w a t :
  starts allowed isConnected goal method ->
  (forall x, member = Some x -> getter a = Ok x) ->
  exists promises a' added,
    VectorSmithAdapter.push b member guard getter update method w a t
    = (Ok promises, a', t ++ added)
    /\ forallb allowed added = true
    /\ (forall b', b' <> b -> slot_kept b' a a')
    /\ (forall b', configured_backend b' a' = configured_backend b' a)
    /\ map fst promises = (if pushed member guard then [b] else [])
    /\ (pushed member guard = false -> a' = a)
    /\ (forall b0 p,
          In (b0, p) promises -> b0 = b /\ on_track allowed goal b p a').
Proof.
  destruct slot as (get_update & frame & kept & _).
  intros [Hcalls Hstart] Hmember.
  unfold VectorSmithAdapter.push, pushed, bind, get.
  destruct member as [x |]; [destruct (guard x) |].
  - specialize (Hmember x eq_refl).
    unfold settle, zoom, ret.
    destruct (Hcalls w x t) as [added [Ht Hadded]].
    specialize (Hstart w x t). unfold result_of, state_of, trace_of in *.
    destruct (method w x t) as [[r x'] t']. simpl in *. subst t'.
    eexists _, _, added. split; [reflexivity |]. split; [exact Hadded |].
    split; [intros b' Hb'; apply frame; exact Hb' |].
    split; [intros b'; eapply kept; exact Hmember |].
    split; [reflexivity |]. split; [discriminate |].
    intros b0 p [[= <- <-] | []]. split; [reflexivity |].
    destruct r as [segments | e]; [| split; [constructor | exact I]].
    destruct Hstart as [Hleads Hsegments].
    apply on_track_settlement.
    + apply Forall_map. revert Hsegments. apply Forall_impl.
      apply on_adapter_belongs.
    + apply on_adapter_leads with (x := x'); [apply get_update | exact Hleads].
  - exists [], a, []. rewrite app_nil_r.
    repeat split; simpl; trivial; try contradiction.
    intros; apply slot_kept_refl.
  - exists [], a, []. rewrite app_nil_r.
    repeat split; simpl; trivial; try contradiction.
    intros; apply slot_kept_refl.
Qed.

(** [push_job]: nothing runs yet, and the promise is on track. *)
Lemma push_job_run allowed goal member guard (job : M T unit) w a t :
  calls_only allowed job ->
  (forall x, adapter_leads isConnected goal [job] x) ->
  (forall x, member = Some x -> getter a = Ok x) ->
  exists promises,
    VectorSmithAdapter.push_job b member guard
      (VectorSmithAdapter.on_adapter getter update job) w a t
    = (Ok promises, a, t)
    /\ map fst promises = (if pushed member guard then [b] else [])
    /\ (forall b0 p,
          In (b0, p) promises -> b0 = b /\ on_track allowed goal b p a).
Proof.
  intros Hcalls Hleads Hmember.
  unfold VectorSmithAdapter.push_job, pushed.
  destruct member as [x |]; [destruct (guard x) |].
  - eexists. split; [reflexivity |]. split; [reflexivity |].
    intros b0 p [[= <- <-] | []]. split; [reflexivity |].
    split; simpl.
    + constructor; [| constructor]. apply on_adapter_belongs. exact Hcalls.
    + apply (@on_adapter_leads goal [job] a x); [auto | apply Hleads].
  - exists []. repeat split; simpl; trivial; contradiction.
  - exists []. repeat split; simpl; trivial; contradiction.
Qed.

End OnAdapter.

(** The four slots. *)
Ltac slot_laws :=
  unfold is_slot, VectorSmithAdapter.getRedis, VectorSmithAdapter.getPgVector,
    VectorSmithAdapter.getSqlite, VectorSmithAdapter.getQdrant;
  repeat split; intros;
  repeat match goal with
    | a : VectorSmithAdapter.t |- _ => destruct a as [[?|] [?|] [?|] [?|] ?]
    | b : backend |- _ => destruct b
    end;
  simpl in *; congruence.

Lemma redis_slot :
  is_slot Redis VectorSmithAdapter.getRedis VectorSmithAdapter.set_redis
          RedisAdapter.isConnected.
Proof. slot_laws. Qed.

Lemma pgvector_slot :
  is_slot PgVector VectorSmithAdapter.getPgVector
          VectorSmithAdapter.set_pgvector PgVectorAdapter.isConnected.
Proof. slot_laws. Qed.

Lemma sqlite_slot :
  is_slot Sqlite VectorSmithAdapter.getSqlite VectorSmithAdapter.set_sqlite
          SqliteAdapter.isConnected.
Proof. slot_laws. Qed.

Lemma qdrant_slot :
  is_slot Qdrant VectorSmithAdapter.getQdrant VectorSmithAdapter.set_qdrant
          QdrantAdapter.isConnected.
Proof. slot_laws. Qed.

(** *** The asynchronous methods of the adapters *)

(** The calls of a segment whose combinators are unfolded. *)
Ltac calls_run :=
  unfold calls_only, trace_of; intros; simpl; answer;
  rewrite <- ?app_assoc; simpl;
  eexists; (split; [reflexivity | reflexivity]).

Lemma redis_connect_starts :
  starts no_disconnect RedisAdapter.isConnected true
         RedisAdapter.connect_async.
Proof.
  unfold RedisAdapter.connect_async. split; [calls_walk |].
  intros w a t.
  unfold result_of, state_of, RedisAdapter.isConnected, bind, get, put,
    invoke, ret.
  destruct (RedisAdapter.client_isOpen a) eqn:E; simpl.
  - split; [exact E | constructor].
  - answer; trivial. split.
    + intros w' t'. unfold result_of, state_of. simpl.
      answer; [reflexivity | discriminate].
    + constructor; [calls_run | constructor].
Qed.

Lemma pgvector_connect_starts :
  starts no_disconnect PgVectorAdapter.isConnected true
         PgVectorAdapter.connect_async.
Proof.
  unfold PgVectorAdapter.connect_async,
    PgVectorAdapter.ensurePgVectorExtension.
  split; [calls_walk |].
  intros w a t.
  unfold result_of, state_of, PgVectorAdapter.isConnected, try_catch,
    try_finally, bind, get, put, invoke, ret, throw.
  destruct (PgVectorAdapter.pool a) eqn:E; simpl.
  - rewrite E. split; [reflexivity | constructor].
  - answer; trivial. split.
    + intros w1 t1 _ w2 t2. unfold result_of, state_of. simpl.
      answer; intros; try discriminate; simpl; answer; reflexivity.
    + repeat constructor; calls_run.
Qed.

Lemma qdrant_connect_starts :
  starts no_disconnect QdrantAdapter.isConnected true
         QdrantAdapter.connect_async.
Proof.
  unfold QdrantAdapter.connect_async. split; [calls_walk |].
  intros w a t.
  unfold result_of, state_of, QdrantAdapter.isConnected, bind, get, put, ask,
    invoke, ret.
  destruct (QdrantAdapter.connected a) eqn:E; simpl.
  - split; [exact E | constructor].
  - answer; trivial. split.
    + intros w' t'. unfold result_of, state_of. simpl.
      answer; [reflexivity | discriminate].
    + constructor; [calls_run | constructor].
Qed.

Lemma sqlite_connect_leads x :
  adapter_leads SqliteAdapter.isConnected true [SqliteAdapter.connect] x.
Proof.
  intros w t. apply sqlite_connect_ok.
Qed.

(** *** The array of promises *)

Lemma backend_eqb_eq b b' : backend_eqb b b' = true <-> b = b'.
Proof. destruct b, b'; simpl; split; congruence. Qed.

Lemma backend_eqb_neq b b' : backend_eqb b b' = false <-> b <> b'.
Proof. destruct b, b'; simpl; split; congruence. Qed.

Lemma promise_of_In b promises p :
  VectorSmithAdapter.promise_of b promises = Some p -> In (b, p) promises.
Proof.
  induction promises as [| [b' p'] rest IH]; simpl; [discriminate |].
  destruct (backend_eqb b b') eqn:E.
  - apply backend_eqb_eq in E. intros [= ->]. left. congruence.
  - intros H. right. apply IH. exact H.
Qed.

Lemma In_promise_of b promises p :
  NoDup (map fst promises) -> In (b, p) promises ->
  VectorSmithAdapter.promise_of b promises = Some p.
Proof.
  induction promises as [| [b' p'] rest IH]; simpl; [contradiction |].
  intros N [[= -> ->] | H].
  - assert (E : backend_eqb b b = true) by (apply backend_eqb_eq; reflexivity).
    rewrite E. reflexivity.
  - inversion N as [| ? ? Hnot N']; subst.
    destruct (backend_eqb b b') eqn:E.
    + apply backend_eqb_eq in E. subst b'. exfalso. apply Hnot.
      apply in_map_iff. exists (b, p). split; [reflexivity | exact H].
    + apply IH; assumption.
Qed.

Lemma replace_keys b p promises :
  map fst (VectorSmithAdapter.replace b p promises) = map fst promises.
Proof.
  induction promises as [| [b' p'] rest IH]; simpl; [reflexivity |].
  destruct (backend_eqb b b'); simpl; [reflexivity | rewrite IH; reflexivity].
Qed.

Lemma replace_In b p promises b0 p0 :
  NoDup (map fst promises) ->
  In (b0, p0) (VectorSmithAdapter.replace b p promises) ->
  (b0 = b /\ p0 = p) \/ (b0 <> b /\ In (b0, p0) promises).
Proof.
  induction promises as [| [b' p'] rest IH]; simpl; [contradiction |].
  intros N. inversion N as [| ? ? Hnot N']; subst.
  destruct (backend_eqb b b') eqn:E; simpl.
  - apply backend_eqb_eq in E. subst b'. intros [[= <- <-] | H].
    + left. split; reflexivity.
    + right. split; [| right; exact H].
      intros ->. apply Hnot. apply in_map_iff.
      exists (b, p0). split; [reflexivity | exact H].
  - apply backend_eqb_neq in E. intros [[= <- <-] | H].
    + right. split; [congruence | left; reflexivity].
    + destruct (IH N' H) as [L | [R1 R2]]; [left; exact L |].
      right. split; [exact R1 | right; exact R2].
Qed.

Lemma In_replace_other b p promises b0 p0 :
  b0 <> b -> In (b0, p0) promises ->
  In (b0, p0) (VectorSmithAdapter.replace b p promises).
Proof.
  intros Hneq.
  induction promises as [| [b' p'] rest IH]; simpl; [contradiction |].
  destruct (backend_eqb b b') eqn:E; simpl.
  - apply backend_eqb_eq in E. subst b'. intros [[= <- <-] | H].
    + congruence.
    + right. exact H.
  - intros [H | H]; [left; exact H | right; apply IH; exact H].
Qed.

Lemma In_replace_same b p p' promises :
  VectorSmithAdapter.promise_of b promises = Some p' ->
  In (b, p) (VectorSmithAdapter.replace b p promises).
Proof.
  induction promises as [| [b' p''] rest IH]; simpl; [discriminate |].
  destruct (backend_eqb b b') eqn:E; simpl.
  - apply backend_eqb_eq in E. subst b'. intros _. left. reflexivity.
  - intros H. right. apply IH. exact H.
Qed.

Lemma pending_replace b p p' promises :
  VectorSmithAdapter.promise_of b promises = Some p' ->
  VectorSmithAdapter.pending (VectorSmithAdapter.replace b p promises)
  + VectorSmithAdapter.steps p'
  = VectorSmithAdapter.pending promises + VectorSmithAdapter.steps p.
Proof.
  unfold VectorSmithAdapter.pending.
  induction promises as [| [b' p''] rest IH]; simpl; [discriminate |].
  destruct (backend_eqb b b') eqn:E; simpl.
  - intros [= ->]. lia.
  - intros H. specialize (IH H). lia.
Qed.

Lemma queued_In promises b :
  VectorSmithAdapter.queued promises = Some b ->
  exists job, In (b, VectorSmithAdapter.Queued job) promises.
Proof.
  induction promises as [| [b' p] rest IH]; simpl; [discriminate |].
  destruct p; try (intros H; destruct (IH H) as [job Hjob]; exists job;
                   right; exact Hjob).
  intros [= ->]. eexists. left. reflexivity.
Qed.

Lemma awaiting_In promises b :
  VectorSmithAdapter.awaiting promises = Some b ->
  exists next rest, In (b, VectorSmithAdapter.Awaiting next rest) promises.
Proof.
  induction promises as [| [b' p] tail IH]; simpl; [discriminate |].
  destruct p; try (intros H; destruct (IH H) as (next & rest & Hin);
                   exists next, rest; right; exact Hin).
  intros [= ->]. eexists _, _. left. reflexivity.
Qed.

Lemma settles_awaits w answered promises b :
  NoDup (map fst promises) ->
  VectorSmithAdapter.settles w answered promises = Some b ->
  exists next rest,
    VectorSmithAdapter.promise_of b promises
    = Some (VectorSmithAdapter.Awaiting next rest).
Proof.
  intros N. unfold VectorSmithAdapter.settles.
  assert (A : VectorSmithAdapter.awaiting promises = Some b ->
              exists next rest,
                VectorSmithAdapter.promise_of b promises
                = Some (VectorSmithAdapter.Awaiting next rest)).
  { intros H. destruct (@awaiting_In promises b H) as (next & rest & Hin).
    exists next, rest. apply In_promise_of; assumption. }
  destruct (VectorSmithAdapter.promise_of (settles_next w answered) promises)
    as [[| | |] |] eqn:E; try exact A.
  intros [= <-]. eexists _, _. exact E.
Qed.

Lemma settles_some w answered promises :
  VectorSmithAdapter.settles w answered promises = None ->
  VectorSmithAdapter.awaiting promises = None.
Proof.
  unfold VectorSmithAdapter.settles.
  destruct (VectorSmithAdapter.promise_of (settles_next w answered) promises)
    as [[| | |] |]; trivial; discriminate.
Qed.

Lemma all_settled promises :
  VectorSmithAdapter.queued promises = None ->
  VectorSmithAdapter.awaiting promises = None ->
  forall b p,
    In (b, p) promises ->
    p = VectorSmithAdapter.Fulfilled
    \/ exists e, p = VectorSmithAdapter.Rejected e.
Proof.
  induction promises as [| [b' p'] rest IH]; simpl; [contradiction |].
  intros Q A b p [[= <- <-] | H].
  - destruct p'; try discriminate; eauto.
  - destruct p'; try discriminate; eapply IH; eassumption.
Qed.

Lemma nothing_pending promises :
  VectorSmithAdapter.pending promises = 0 ->
  VectorSmithAdapter.queued promises = None
  /\ VectorSmithAdapter.awaiting promises = None.
Proof.
  unfold VectorSmithAdapter.pending.
  induction promises as [| [b p] rest IH]; simpl; [split; reflexivity |].
  destruct p; simpl; intros H; try discriminate H; apply IH; exact H.
Qed.

Lemma first_rejection_first promises :
  first_rejected (VectorSmithAdapter.first_rejection promises) promises.
Proof.
  induction promises as [| [b p] rest IH]; simpl.
  - intros b e [].
  - unfold first_rejected in *.
    destruct p; simpl;
      try (destruct (VectorSmithAdapter.first_rejection rest) as [e |];
           [ destruct IH as [b' Hb']; exists b'; right; exact Hb'
           | intros b' e' [H | H]; [discriminate H | exact (IH b' e' H)] ]).
    exists b. left. reflexivity.
Qed.

Lemma steps_settlement r rest :
  VectorSmithAdapter.steps (VectorSmithAdapter.settlement r rest)
  <= List.length rest.
Proof.
  destruct r as [u | e]; simpl; [| lia].
  destruct rest; simpl; lia.
Qed.

(** *** A turn of the event loop *)

Section Loop.

Variable allowed : call -> bool.
Variable goal : bool.

Lemma moved_refl promises a t :
  on_course allowed goal promises a ->
  moved allowed goal promises a t promises a t.
Proof.
  intros C. split; [exists []; rewrite app_nil_r; split; reflexivity |].
  split; [exact C |]. split; [reflexivity |].
  split; [intros; apply slot_kept_refl |].
  split; [reflexivity |]. split; [auto |]. split; [auto | lia].
Qed.

Lemma moved_trans promises a t promises1 a1 t1 promises2 a2 t2 :
  moved allowed goal promises a t promises1 a1 t1 ->
  moved allowed goal promises1 a1 t1 promises2 a2 t2 ->
  moved allowed goal promises a t promises2 a2 t2.
Proof.
  intros ([ad1 [T1 A1]] & C1 & K1 & S1 & G1 & F1 & R1 & P1)
         ([ad2 [T2 A2]] & C2 & K2 & S2 & G2 & F2 & R2 & P2).
  split.
  { exists (ad1 ++ ad2). subst. rewrite app_assoc, forallb_app, A1, A2.
    split; reflexivity. }
  split; [exact C2 |]. split; [congruence |].
  split.
  { intros b Hb. apply slot_kept_trans with (a' := a1); [apply S1; exact Hb |].
    apply S2. rewrite K1. exact Hb. }
  split; [intros b; rewrite G2; apply G1 |].
  split; [auto |]. split; [auto | lia].
Qed.

(** The segment behind the promise of [b] runs. *)
Lemma segment_run b segment rest promises p w a t :
  on_course allowed goal promises a ->
  VectorSmithAdapter.promise_of b promises = Some p ->
  remaining p = segment :: rest ->
  VectorSmithAdapter.steps p = S (List.length rest) ->
  let run := segment w a t in
  let promises' :=
    VectorSmithAdapter.replace
      b (VectorSmithAdapter.settlement (result_of run) rest) promises in
  moved allowed goal promises a t promises' (state_of run) (trace_of run)
  /\ match VectorSmithAdapter.rejection (result_of run) with
     | Some e => exists b, In (b, VectorSmithAdapter.Rejected e) promises'
     | None =>
         forall b e,
           In (b, VectorSmithAdapter.Rejected e) promises' ->
           In (b, VectorSmithAdapter.Rejected e) promises
     end
  /\ VectorSmithAdapter.pending promises' < VectorSmithAdapter.pending promises.
Proof.
  intros [N C] Hp Hrem Hsteps run promises'.
  assert (Hin : In (b, p) promises) by (apply promise_of_In; exact Hp).
  destruct (C b p Hin) as [B L]. rewrite Hrem in B.
  inversion B as [| ? ? [Hcalls Hframe] Brest]; subst.
  destruct (Hcalls w a t) as [added [Ht Hadded]].
  specialize (Hframe w a t). destruct Hframe as [Hother Hconf].
  assert (Hunsettled : forall b0 p0,
             In (b0, p0) promises -> remaining p0 = [] -> b0 <> b).
  { intros b0 p0 H0 R0 ->.
    rewrite (@In_promise_of b promises p0 N H0) in Hp. injection Hp as ->.
    rewrite R0 in Hrem. discriminate Hrem. }
  split; [split; [| split; [| split; [| split; [| split; [| split; [| split]]]]]] |
          split].
  - exists added. split; [exact Ht | exact Hadded].
  - split; [unfold promises'; rewrite replace_keys; exact N |].
    intros b0 p0 H0. apply replace_In in H0; [| exact N].
    destruct H0 as [[-> ->] | [Hneq H0]].
    + fold run.
      destruct (result_of run) as [[] | e] eqn:R;
        [| split; [constructor | exact I]].
      apply on_track_settlement; [exact Brest |].
      assert (L' : leads goal b (segment :: rest) a).
      { destruct p; simpl in Hrem, L; try discriminate Hrem;
          injection Hrem as <- <-; exact L. }
      simpl in L'. apply L'; [apply slot_kept_refl | exact R].
    + apply on_track_slot with (a := a); [apply Hother; exact Hneq |].
      apply C. exact H0.
  - apply replace_keys.
  - intros b' Hb'. apply Hother. intros ->. apply Hb'.
    apply in_map_iff. exists (b, p). split; [reflexivity | exact Hin].
  - exact Hconf.
  - intros b0 H0. apply In_replace_other; [| exact H0].
    eapply Hunsettled; [exact H0 | reflexivity].
  - intros b0 e H0. apply In_replace_other; [| exact H0].
    eapply Hunsettled; [exact H0 | reflexivity].
  - pose proof (@pending_replace b
                  (VectorSmithAdapter.settlement (result_of run) rest)
                  p promises Hp) as P.
    pose proof (@steps_settlement (result_of run) rest) as Q.
    fold promises' in P. lia.
  - destruct (result_of run) as [u | e] eqn:R; simpl.
    + intros b0 e0 H0. apply replace_In in H0; [| exact N].
      destruct H0 as [[_ H0] | [_ H0]]; [| exact H0].
      destruct rest; discriminate H0.
    + exists b. unfold promises'. eapply In_replace_same. exact Hp.
  - pose proof (@pending_replace b
                  (VectorSmithAdapter.settlement (result_of run) rest)
                  p promises Hp) as P.
    pose proof (@steps_settlement (result_of run) rest) as Q.
    fold promises' in P. lia.
Qed.

(** What a turn answers, and whether it got a promise on. *)
Lemma resume_run b promises w a t :
  on_course allowed goal promises a ->
  exists promises' rejected a' t',
    VectorSmithAdapter.resume b promises w a t
    = (Ok (promises', rejected), a', t')
    /\ moved allowed goal promises a t promises' a' t'
    /\ match rejected with
       | Some e => exists b, In (b, VectorSmithAdapter.Rejected e) promises'
       | None =>
           forall b e,
             In (b, VectorSmithAdapter.Rejected e) promises' ->
             In (b, VectorSmithAdapter.Rejected e) promises
       end
    /\ (forall p, VectorSmithAdapter.promise_of b promises = Some p ->
                  remaining p <> [] ->
                  VectorSmithAdapter.pending promises'
                  < VectorSmithAdapter.pending promises).
Proof.
  intros C. unfold VectorSmithAdapter.resume.
  destruct (VectorSmithAdapter.promise_of b promises)
    as [[| e | job | next rest] |] eqn:Hp.
  1, 2, 5: exists promises, None, a, t; split; [reflexivity |];
    split; [apply moved_refl; exact C |]; split; [auto |];
    intros p [= <-]; simpl; congruence.
  - pose proof (@segment_run b job [] promises _ w a t C Hp eq_refl eq_refl)
      as H.
    cbv zeta in H. unfold bind, settle, ret.
    unfold result_of, state_of, trace_of in H.
    destruct (job w a t) as [[r a'] t']. simpl in H.
    eexists _, _, _, _. split; [reflexivity |].
    destruct H as (H1 & H2 & H3). split; [exact H1 |]. split; [exact H2 |].
    intros; exact H3.
  - pose proof (@segment_run b next rest promises _ w a t C Hp eq_refl eq_refl)
      as H.
    cbv zeta in H. unfold bind, settle, ret.
    unfold result_of, state_of, trace_of in H.
    destruct (next w a t) as [[r a'] t']. simpl in H.
    eexists _, _, _, _. split; [reflexivity |].
    destruct H as (H1 & H2 & H3). split; [exact H1 |]. split; [exact H2 |].
    intros; exact H3.
Qed.

Lemma turn_run promises w a t :
  on_course allowed goal promises a ->
  exists promises' rejected a' t',
    VectorSmithAdapter.turn promises w a t
    = (Ok (promises', rejected), a', t')
    /\ moved allowed goal promises a t promises' a' t'
    /\ match rejected with
       | Some e => exists b, In (b, VectorSmithAdapter.Rejected e) promises'
       | None =>
           forall b e,
             In (b, VectorSmithAdapter.Rejected e) promises' ->
             In (b, VectorSmithAdapter.Rejected e) promises
       end
    /\ (VectorSmithAdapter.is_some (VectorSmithAdapter.queued promises)
        || VectorSmithAdapter.is_some (VectorSmithAdapter.awaiting promises)
        = true ->
        VectorSmithAdapter.pending promises'
        < VectorSmithAdapter.pending promises).
Proof.
  intros C. unfold VectorSmithAdapter.turn.
  destruct (VectorSmithAdapter.queued promises) as [b |] eqn:Q.
  - destruct (@resume_run b promises w a t C) as (ps & rej & a' & t' & E & M & R & P).
    exists ps, rej, a', t'. split; [exact E |]. split; [exact M |].
    split; [exact R |]. intros _.
    destruct (@queued_In promises b Q) as [job Hjob].
    apply P with (p := VectorSmithAdapter.Queued job);
      [apply In_promise_of; [apply C | exact Hjob] | discriminate].
  - unfold bind, ask, history.
    destruct (VectorSmithAdapter.settles w t promises) as [b |] eqn:S.
    + destruct (@resume_run b promises w a t C) as (ps & rej & a' & t' & E & M & R & P).
      exists ps, rej, a', t'. split; [exact E |]. split; [exact M |].
      split; [exact R |]. intros _.
      destruct (@settles_awaits w t promises b (proj1 C) S)
        as (next & rest & Hp).
      apply P with (p := VectorSmithAdapter.Awaiting next rest);
        [exact Hp | discriminate].
    + exists promises, None, a, t. split; [reflexivity |].
      split; [apply moved_refl; exact C |]. split; [auto |].
      rewrite (@settles_some w t promises S). discriminate.
Qed.

(** [await Promise.all]: the outcome, and where the promises are then. *)
Lemma await_all_run turns :
  forall promises rejected w a t,
    on_course allowed goal promises a ->
    first_rejected rejected promises ->
    VectorSmithAdapter.pending promises <= turns ->
    exists outcome promises' a' t',
      VectorSmithAdapter.await_all turns promises rejected w a t
      = (Ok (outcome, promises'), a', t')
      /\ moved allowed goal promises a t promises' a' t'
      /\ (outcome = Ok tt ->
          forall b p, In (b, p) promises' -> p = VectorSmithAdapter.Fulfilled)
      /\ (forall e, outcome = Err e ->
                    exists b, In (b, VectorSmithAdapter.Rejected e) promises').
Proof.
  assert (Stop : forall promises rejected a t,
             on_course allowed goal promises a ->
             first_rejected rejected promises ->
             VectorSmithAdapter.is_some (VectorSmithAdapter.queued promises)
             || (negb (VectorSmithAdapter.is_some rejected)
                 && VectorSmithAdapter.is_some
                      (VectorSmithAdapter.awaiting promises)) = false ->
             let outcome := match rejected with
                            | Some e => Err e
                            | None => Ok tt
                            end in
             moved allowed goal promises a t promises a t
             /\ (outcome = Ok tt ->
                 forall b p,
                   In (b, p) promises -> p = VectorSmithAdapter.Fulfilled)
             /\ (forall e, outcome = Err e ->
                    exists b, In (b, VectorSmithAdapter.Rejected e) promises)).
  { intros promises rejected a t C F H outcome.
    split; [apply moved_refl; exact C |].
    apply orb_false_iff in H. destruct H as [Q A].
    destruct rejected as [e |]; simpl in *.
    - split; [discriminate |]. intros e' [= <-]. exact F.
    - split; [| discriminate]. intros _ b p Hin.
      destruct (VectorSmithAdapter.queued promises) eqn:Q';
        [discriminate Q |].
      destruct (VectorSmithAdapter.awaiting promises) eqn:A';
        [discriminate A |].
      destruct (@all_settled promises Q' A' b p Hin) as [-> | [e ->]];
        [reflexivity |].
      exfalso. exact (F b e Hin). }
  induction turns as [| turns IH]; intros promises rejected w a t C F P.
  - simpl. unfold ret. eexists _, _, _, _. split; [reflexivity |].
    apply Stop; [exact C | exact F |].
    destruct (@nothing_pending promises) as [Q A]; [lia |].
    rewrite Q, A. simpl. rewrite andb_false_r. reflexivity.
  - simpl.
    destruct (VectorSmithAdapter.is_some (VectorSmithAdapter.queued promises)
              || (negb (VectorSmithAdapter.is_some rejected)
                  && VectorSmithAdapter.is_some
                       (VectorSmithAdapter.awaiting promises))) eqn:G.
    + destruct (@turn_run promises w a t C) as (ps & rej & a1 & t1 & E & M & R & Pr).
      unfold bind. rewrite E. simpl.
      assert (Hless : VectorSmithAdapter.pending ps
                      < VectorSmithAdapter.pending promises).
      { apply Pr. apply orb_true_iff in G. apply orb_true_iff.
        destruct G as [G | G]; [left; exact G |].
        apply andb_true_iff in G. right. apply G. }
      destruct (IH ps (match rejected with Some e => Some e | None => rej end)
                   w a1 t1) as (out & ps' & a' & t' & E' & M' & O1 & O2).
      * apply M.
      * destruct M as (_ & _ & _ & _ & _ & _ & Rk & _).
        destruct rejected as [e |]; simpl in *.
        -- destruct F as [b Hb]. exists b. apply Rk. exact Hb.
        -- destruct rej as [e |]; simpl; [exact R |].
           intros b e Hin. exact (F b e (R b e Hin)).
      * lia.
      * exists out, ps', a', t'. split; [exact E' |].
        split; [eapply moved_trans; eassumption |].
        split; assumption.
    + unfold ret. eexists _, _, _, _. split; [reflexivity |].
      apply Stop; assumption.
Qed.

Lemma later_run turns :
  forall promises w a t,
    on_course allowed goal promises a ->
    exists promises' a' t',
      VectorSmithAdapter.later turns promises w a t = (Ok promises', a', t')
      /\ moved allowed goal promises a t promises' a' t'.
Proof.
  induction turns as [| turns IH]; intros promises w a t C; simpl.
  - exists promises, a, t. split; [reflexivity | apply moved_refl; exact C].
  - destruct (@turn_run promises w a t C) as (ps & rej & a1 & t1 & E & M & _).
    unfold bind. rewrite E. simpl.
    destruct (IH ps w a1 t1) as (ps' & a' & t' & E' & M'); [apply M |].
    exists ps', a', t'. split; [exact E' |].
    eapply moved_trans; eassumption.
Qed.

End Loop.

(** *** The arrays [connections] and [disconnections] *)

Lemma pushed_keys (g1 g2 g3 g4 : bool) (b : backend) :
  In b ((if g1 then [Redis] else []) ++ (if g2 then [PgVector] else [])
        ++ (if g3 then [Sqlite] else []) ++ (if g4 then [Qdrant] else []))
  <-> match b with
      | Redis => g1
      | PgVector => g2
      | Sqlite => g3
      | Qdrant => g4
      end = true.
Proof.
  destruct g1, g2, g3, g4, b; simpl; intuition congruence.
Qed.

Lemma pushed_keys_NoDup (g1 g2 g3 g4 : bool) :
  NoDup ((if g1 then [Redis] else []) ++ (if g2 then [PgVector] else [])
         ++ (if g3 then [Sqlite] else []) ++ (if g4 then [Qdrant] else [])).
Proof.
  destruct g1, g2, g3, g4; simpl; repeat constructor; simpl;
    intuition congruence.
Qed.

(** The four pushes of [connections] and of [disconnections], one after
    the other. *)
Lemma four_pushes_run allowed goal g1 m1 g2 m2 g3 j3 g4 m4 w a t :
  starts allowed RedisAdapter.isConnected goal m1 ->
  starts allowed PgVectorAdapter.isConnected goal m2 ->
  calls_only allowed j3 ->
  (forall x, adapter_leads SqliteAdapter.isConnected goal [j3] x) ->
  starts allowed QdrantAdapter.isConnected goal m4 ->
  let was_pushed b :=
    match b with
    | Redis => pushed (VectorSmithAdapter.redis a) g1
    | PgVector => pushed (VectorSmithAdapter.pgvector a) g2
    | Sqlite => pushed (VectorSmithAdapter.sqlite a) g3
    | Qdrant => pushed (VectorSmithAdapter.qdrant a) g4
    end in
  exists promises a' added,
    (a <- get ;;
     c1 <- VectorSmithAdapter.push Redis (VectorSmithAdapter.redis a) g1
             VectorSmithAdapter.getRedis VectorSmithAdapter.set_redis m1 ;;
     a <- get ;;
     c2 <- VectorSmithAdapter.push PgVector (VectorSmithAdapter.pgvector a) g2
             VectorSmithAdapter.getPgVector VectorSmithAdapter.set_pgvector
             m2 ;;
     a <- get ;;
     c3 <- VectorSmithAdapter.push_job Sqlite (VectorSmithAdapter.sqlite a) g3
             (VectorSmithAdapter.on_adapter VectorSmithAdapter.getSqlite
                                            VectorSmithAdapter.set_sqlite j3) ;;
     a <- get ;;
     c4 <- VectorSmithAdapter.push Qdrant (VectorSmithAdapter.qdrant a) g4
             VectorSmithAdapter.getQdrant VectorSmithAdapter.set_qdrant m4 ;;
     ret (c1 ++ c2 ++ c3 ++ c4)) w a t
    = (Ok promises, a', t ++ added)
    /\ forallb allowed added = true
    /\ on_course allowed goal promises a'
    /\ (forall b, configured_backend b a' = configured_backend b a)
    /\ (forall b, In b (map fst promises) <-> was_pushed b = true)
    /\ (forall b, was_pushed b = false -> slot_kept b a a').
Proof.
  intros S1 S2 S3 L3 S4 was_pushed.
  unfold bind, get.
  assert (H1 : forall x, VectorSmithAdapter.redis a = Some x ->
                         VectorSmithAdapter.getRedis a = Ok x)
    by (unfold VectorSmithAdapter.getRedis; intros ? ->; reflexivity).
  destruct (@push_run _ Redis VectorSmithAdapter.getRedis
              VectorSmithAdapter.set_redis RedisAdapter.isConnected
              redis_slot allowed goal (VectorSmithAdapter.redis a) g1 m1
              w a t S1 H1)
    as (ps1 & a1 & ad1 & E1 & A1 & F1 & G1 & K1 & U1 & T1).
  rewrite E1. clear H1 E1.
  assert (H2 : forall x, VectorSmithAdapter.pgvector a1 = Some x ->
                         VectorSmithAdapter.getPgVector a1 = Ok x)
    by (unfold VectorSmithAdapter.getPgVector; intros ? ->; reflexivity).
  destruct (@push_run _ PgVector VectorSmithAdapter.getPgVector
              VectorSmithAdapter.set_pgvector PgVectorAdapter.isConnected
              pgvector_slot allowed goal (VectorSmithAdapter.pgvector a1) g2
              m2 w a1 (t ++ ad1) S2 H2)
    as (ps2 & a2 & ad2 & E2 & A2 & F2 & G2 & K2 & U2 & T2).
  rewrite E2. clear H2 E2.
  assert (H3 : forall x, VectorSmithAdapter.sqlite a2 = Some x ->
                         VectorSmithAdapter.getSqlite a2 = Ok x)
    by (unfold VectorSmithAdapter.getSqlite; intros ? ->; reflexivity).
  destruct (@push_job_run _ Sqlite VectorSmithAdapter.getSqlite
              VectorSmithAdapter.set_sqlite SqliteAdapter.isConnected
              sqlite_slot allowed goal (VectorSmithAdapter.sqlite a2) g3 j3
              w a2 ((t ++ ad1) ++ ad2) S3 L3 H3)
    as (ps3 & E3 & K3 & T3).
  rewrite E3. clear H3 E3.
  assert (H4 : forall x, VectorSmithAdapter.qdrant a2 = Some x ->
                         VectorSmithAdapter.getQdrant a2 = Ok x)
    by (unfold VectorSmithAdapter.getQdrant; intros ? ->; reflexivity).
  destruct (@push_run _ Qdrant VectorSmithAdapter.getQdrant
              VectorSmithAdapter.set_qdrant QdrantAdapter.isConnected
              qdrant_slot allowed goal (VectorSmithAdapter.qdrant a2) g4 m4
              w a2 ((t ++ ad1) ++ ad2) S4 H4)
    as (ps4 & a4 & ad4 & E4 & A4 & F4 & G4 & K4 & U4 & T4).
  rewrite E4. clear H4 E4.
  unfold ret.
  assert (P2 : VectorSmithAdapter.pgvector a1 = VectorSmithAdapter.pgvector a)
    by (apply (F1 PgVector); discriminate).
  assert (P3 : VectorSmithAdapter.sqlite a2 = VectorSmithAdapter.sqlite a).
  { transitivity (VectorSmithAdapter.sqlite a1);
      [apply (F2 Sqlite) | apply (F1 Sqlite)]; discriminate. }
  assert (P4 : VectorSmithAdapter.qdrant a2 = VectorSmithAdapter.qdrant a).
  { transitivity (VectorSmithAdapter.qdrant a1);
      [apply (F2 Qdrant) | apply (F1 Qdrant)]; discriminate. }
  rewrite P2 in K2, U2. rewrite P3 in K3. rewrite P4 in K4, U4.
  exists (ps1 ++ ps2 ++ ps3 ++ ps4), a4, (ad1 ++ ad2 ++ ad4).
  split; [rewrite <- !app_assoc; reflexivity |].
  split; [rewrite !forallb_app, A1, A2, A4; reflexivity |].
  split; [split |].
  - rewrite !map_app, K1, K2, K3, K4. apply pushed_keys_NoDup.
  - intros b p Hin.
    repeat (apply in_app_or in Hin; destruct Hin as [Hin | Hin]).
    + apply T1 in Hin. destruct Hin as [-> Hin].
      apply on_track_slot with (a := a2); [apply F4; discriminate |].
      apply on_track_slot with (a := a1); [apply F2; discriminate |].
      exact Hin.
    + apply T2 in Hin. destruct Hin as [-> Hin].
      apply on_track_slot with (a := a2); [apply F4; discriminate |].
      exact Hin.
    + apply T3 in Hin. destruct Hin as [-> Hin].
      apply on_track_slot with (a := a2); [apply F4; discriminate |].
      exact Hin.
    + apply T4 in Hin. destruct Hin as [-> Hin]. exact Hin.
  - split; [intros b; rewrite G4, G2, G1; reflexivity |].
    split.
    + intros b. rewrite !map_app, K1, K2, K3, K4, pushed_keys.
      destruct b; reflexivity.
    + intros b Hb.
      apply slot_kept_trans with (a' := a2);
        [apply slot_kept_trans with (a' := a1) |].
      * destruct b; try (apply F1; discriminate).
        rewrite (U1 Hb). apply slot_kept_refl.
      * destruct b; try (apply F2; discriminate).
        rewrite (U2 Hb). apply slot_kept_refl.
      * destruct b; try (apply F4; discriminate).
        rewrite (U4 Hb). apply slot_kept_refl.
Qed.

Lemma connections_run w a t :
  exists promises a' added,
    VectorSmithAdapter.connections w a t = (Ok promises, a', t ++ added)
    /\ forallb no_disconnect added = true
    /\ on_course no_disconnect true promises a'
    /\ (forall b, configured_backend b a' = configured_backend b a)
    /\ (forall b, In b (map fst promises) <-> configured_backend b a = true).
Proof.
  destruct (@four_pushes_run
              no_disconnect true
              VectorSmithAdapter.always RedisAdapter.connect_async
              VectorSmithAdapter.always PgVectorAdapter.connect_async
              VectorSmithAdapter.always SqliteAdapter.connect
              VectorSmithAdapter.always QdrantAdapter.connect_async
              w a t
              redis_connect_starts pgvector_connect_starts
              sqlite_connect_calls sqlite_connect_leads
              qdrant_connect_starts)
    as (ps & a' & added & E & A & C & G & K & _).
  exists ps, a', added. split; [exact E |]. split; [exact A |].
  split; [exact C |]. split; [exact G |].
  intros b. rewrite K.
  unfold pushed, VectorSmithAdapter.always, configured_backend.
  destruct b;
    [ destruct (VectorSmithAdapter.redis a)
    | destruct (VectorSmithAdapter.pgvector a)
    | destruct (VectorSmithAdapter.sqlite a)
    | destruct (VectorSmithAdapter.qdrant a) ]; reflexivity.
Qed.

(** [connect], by the promises its [await] ends with. *)
Lemma connect_run w a t :
  let run := VectorSmithAdapter.connect w a t in
  let promises := promises_of_connect w a t in
  (exists added,
      trace_of run = t ++ added /\ forallb no_disconnect added = true)
  /\ on_course no_disconnect true promises (state_of run)
  /\ (forall b, configured_backend b (state_of run) = configured_backend b a)
  /\ (forall b, In b (map fst promises) <-> configured_backend b a = true)
  /\ (result_of run = Ok tt ->
      promises <> []
      /\ forall b p, In (b, p) promises -> p = VectorSmithAdapter.Fulfilled)
  /\ (forall e,
        result_of run = Err e ->
        (promises = [] /\ e = NoAdaptersConfigured)
        \/ exists b, In (b, VectorSmithAdapter.Rejected e) promises).
Proof.
  destruct (connections_run w a t) as (ps & a1 & ad1 & E & A & C & G & K).
  unfold VectorSmithAdapter.connect, promises_of_connect, bind.
  rewrite E. destruct ps as [| c ps].
  - simpl. unfold throw, result_of, state_of, trace_of. simpl.
    split; [exists ad1; split; [reflexivity | exact A] |].
    split; [exact C |]. split; [exact G |]. split; [exact K |].
    split; [discriminate |]. intros e [= <-]. left. split; reflexivity.
  - change (Nat.eqb (List.length (c :: ps)) 0) with false. cbv iota.
    unfold VectorSmithAdapter.Promise_all.
    destruct (@await_all_run no_disconnect true
                (VectorSmithAdapter.pending (c :: ps)) (c :: ps)
                (VectorSmithAdapter.first_rejection (c :: ps)) w a1
                (t ++ ad1) C (first_rejection_first (c :: ps)) (le_n _))
      as (out & ps' & a' & t' & E' & M & O1 & O2).
    rewrite E'. unfold result_of at 1. simpl fst. simpl snd.
    destruct M as ([ad2 [-> A2]] & C' & K' & _ & G' & _).
    assert (Hne : ps' <> []).
    { intros ->. discriminate K'. }
    destruct out as [[] | e]; unfold lift_result, ret, throw, result_of,
      state_of, trace_of; simpl.
    + split; [exists (ad1 ++ ad2); rewrite app_assoc, forallb_app, A, A2;
              split; reflexivity |].
      split; [exact C' |]. split; [intros b; rewrite G'; apply G |].
      split; [intros b; rewrite K'; apply K |].
      split; [| discriminate]. intros _. split; [exact Hne |].
      apply O1. reflexivity.
    + split; [exists (ad1 ++ ad2); rewrite app_assoc, forallb_app, A, A2;
              split; reflexivity |].
      split; [exact C' |]. split; [intros b; rewrite G'; apply G |].
      split; [intros b; rewrite K'; apply K |].
      split; [discriminate |]. intros e' [= <-]. right. apply O2.
      reflexivity.
Qed.

Lemma fulfilled_at_goal allowed goal promises a b :
  on_course allowed goal promises a ->
  In (b, VectorSmithAdapter.Fulfilled) promises ->
  VectorSmithAdapter.backend_isConnected b a = goal.
Proof.
  intros [_ C] H. destruct (C b _ H) as [_ L]. exact L.
Qed.

Lemma issued_added {A S : Type} (t added : trace) (x : result A * S * trace) :
  trace_of x = t ++ added -> issued t x = added.
Proof.
  unfold issued. intros ->.
  induction t as [| c t IH]; simpl; [reflexivity | exact IH].
Qed.

(** The turns after the [await] of [connect] has ended. *)
Lemma later_keeps turns promises w a t added :
  on_course no_disconnect true promises a ->
  forallb no_disconnect added = true ->
  let after := VectorSmithAdapter.later turns promises w a (t ++ added) in
  exists promises',
    result_of after = Ok promises'
    /\ forallb no_disconnect (issued t after) = true
    /\ (forall b,
          In (b, VectorSmithAdapter.Fulfilled) promises ->
          In (b, VectorSmithAdapter.Fulfilled) promises')
    /\ (forall b,
          In (b, VectorSmithAdapter.Fulfilled) promises' ->
          VectorSmithAdapter.backend_isConnected b (state_of after) = true
          /\ VectorSmithAdapter.isConnected (state_of after) = true).
Proof.
  intros C A after.
  destruct (@later_run no_disconnect true turns promises w a (t ++ added) C)
    as (ps' & a' & t' & E & [ad2 [Ht' A2]] & C' & _ & _ & _ & F & _).
  exists ps'. unfold after. rewrite E. subst t'.
  unfold result_of, state_of. simpl.
  split; [reflexivity |]. split.
  { rewrite issued_added with (added := added ++ ad2).
    - rewrite forallb_app, A, A2. reflexivity.
    - unfold trace_of. simpl. rewrite app_assoc. reflexivity. }
  split; [exact F |].
  intros b Hb.
  assert (Hc : VectorSmithAdapter.backend_isConnected b a' = true)
    by (eapply fulfilled_at_goal; eassumption).
  split; [exact Hc |].
  apply aggregator_isConnected_exists. exists b. exact Hc.
Qed.

(** C3.  When the aggregate [connect] fails, either no backend is
    configured, or the promise of a backend's [connect] is rejected with
    the error reported.  At that moment the adapter of every backend whose
    promise is fulfilled reports connected, and so does the aggregator;
    nothing [connect] has called takes a connection down.  Whatever number
    of turns the event loop takes afterwards, the promises fulfilled stay
    so, the adapter of every backend whose promise is fulfilled by then
    reports connected, and still no call takes a connection down: nothing
    is rolled back. *)
Theorem connect_failure_keeps_backends_connected :
  forall w a t e,
    let run := VectorSmithAdapter.connect w a t in
    let promises := promises_of_connect w a t in
    result_of run = Err e ->
    ((promises = [] /\ e = NoAdaptersConfigured)
     \/ exists b, In (b, VectorSmithAdapter.Rejected e) promises)
    /\ (forall b,
          In (b, VectorSmithAdapter.Fulfilled) promises ->
          VectorSmithAdapter.backend_isConnected b (state_of run) = true
          /\ VectorSmithAdapter.isConnected (state_of run) = true)
    /\ forallb no_disconnect (issued t run) = true
    /\ (forall turns,
          let after :=
            VectorSmithAdapter.later turns promises w (state_of run)
                                     (trace_of run) in
          exists promises',
            result_of after = Ok promises'
            /\ forallb no_disconnect (issued t after) = true
            /\ (forall b,
                  In (b, VectorSmithAdapter.Fulfilled) promises ->
                  In (b, VectorSmithAdapter.Fulfilled) promises')
            /\ (forall b,
                  In (b, VectorSmithAdapter.Fulfilled) promises' ->
                  VectorSmithAdapter.backend_isConnected b (state_of after)
                  = true
                  /\ VectorSmithAdapter.isConnected (state_of after) = true)).
Proof.
  intros w a t e run promises Hfail.
  destruct (connect_run w a t) as ([added [Ht A]] & C & _ & _ & _ & Herr).
  fold run in Ht, C, Herr. fold promises in C, Herr.
  split; [apply Herr; exact Hfail |].
  split.
  { intros b Hb.
    assert (Hc : VectorSmithAdapter.backend_isConnected b (state_of run)
                 = true)
      by (eapply fulfilled_at_goal; eassumption).
    split; [exact Hc |].
    apply aggregator_isConnected_exists. exists b. exact Hc. }
  split; [rewrite issued_added with (added := added) by exact Ht; exact A |].
  intros turns. rewrite Ht. apply later_keeps; assumption.
Qed.

(** C3 at an aggregator of Redis and pgvector, the latter unreachable:
    the Redis connection is up when [connect] fails. *)
Lemma connect_failure_witness :
  VectorSmithAdapter.constructor redis_and_pgvector
  = Ok fresh_redis_and_pgvector
  /\ result_of (VectorSmithAdapter.connect postgres_unreachable
                  fresh_redis_and_pgvector [])
     = Err (Thrown "Error" "connect ECONNREFUSED")
  /\ VectorSmithAdapter.backend_isConnected Redis
       (state_of (VectorSmithAdapter.connect postgres_unreachable
                    fresh_redis_and_pgvector []))
     = true.
Proof.
  split; [reflexivity |]. split; [reflexivity |].
  refine (proj1 (proj1 (proj2
            (@connect_failure_keeps_backends_connected
               postgres_unreachable fresh_redis_and_pgvector []
               (Thrown "Error" "connect ECONNREFUSED") eq_refl)) Redis _)).
  left. reflexivity.
Defined.

(** At an aggregator of Redis and Qdrant where Redis is unreachable and
    answers first: when [connect] fails, the promise of Qdrant is still
    pending and nothing is connected; one turn later Qdrant is. *)
Example connect_fails_before_the_others_settle :
  let run :=
    VectorSmithAdapter.connect redis_unreachable fresh_redis_and_qdrant [] in
  let after :=
    VectorSmithAdapter.later 1
      (promises_of_connect redis_unreachable fresh_redis_and_qdrant [])
      redis_unreachable (state_of run) (trace_of run) in
  result_of run = Err (Thrown "Error" "connect ECONNREFUSED")
  /\ VectorSmithAdapter.isConnected (state_of run) = false
  /\ VectorSmithAdapter.backend_isConnected Qdrant (state_of after) = true
  /\ VectorSmithAdapter.isConnected (state_of after) = true.
Proof.
  repeat split.
Qed.

(** Where Qdrant answers before Redis is refused, Qdrant is connected when
    [connect] fails. *)
Example connect_fails_after_the_others_settled :
  let run :=
    VectorSmithAdapter.connect redis_unreachable_and_last
                               fresh_redis_and_qdrant [] in
  result_of run = Err (Thrown "Error" "connect ECONNREFUSED")
  /\ promises_of_connect redis_unreachable_and_last fresh_redis_and_qdrant []
     = [(Redis,
         VectorSmithAdapter.Rejected (Thrown "Error" "connect ECONNREFUSED"));
        (Qdrant, VectorSmithAdapter.Fulfilled)]
  /\ VectorSmithAdapter.backend_isConnected Qdrant (state_of run) = true
  /\ VectorSmithAdapter.isConnected (state_of run) = true.
Proof.
  repeat split.
Qed.

(** ** C1: inserting a vector of the wrong length *)

Lemma issued_app {A S : Type} (t added : trace) (r : result A) (s : S) :
  issued t (r, s, t ++ added) = added.
Proof.
  unfold issued, trace_of. simpl.
  induction t as [| c t IH]; simpl; [reflexivity | exact IH].
Qed.

Lemma issued_nil {A S : Type} (t : trace) (r : result A) (s : S) :
  issued t (r, s, t) = [].
Proof.
  rewrite <- (app_nil_r t) at 2. apply issued_app.
Qed.

Lemma sqlite_ensureConnected_passes w a t :
  SqliteAdapter.isConnected a = true ->
  SqliteAdapter.ensureConnected w a t = (Ok tt, a, t).
Proof.
  unfold SqliteAdapter.isConnected, SqliteAdapter.ensureConnected, bind, get.
  destruct (SqliteAdapter.database a); [reflexivity | discriminate].
Qed.

Lemma sqlite_wrapVectorFunction_run w a t parameter :
  SqliteAdapter.wrapVectorFunction parameter w a t
  = if String.eqb (SqliteAdapter.vectorType a) "FLOAT32"
    then (Ok ("vector_as_f32(" +++ parameter +++ ")"), a, t)
    else (Err (UnsupportedVectorType (SqliteAdapter.vectorType a)), a, t).
Proof.
  unfold SqliteAdapter.wrapVectorFunction, bind, get.
  destruct (String.eqb _ _); reflexivity.
Qed.

Lemma sqlite_serializeVector_mismatch w a t v :
  is_length (SqliteAdapter.vectorDimension (SqliteAdapter.config a))
            (List.length v) = false ->
  SqliteAdapter.serializeVector v w a t
  = (Err (DimensionMismatch
            (SqliteAdapter.vectorDimension (SqliteAdapter.config a))
            (List.length v)), a, t).
Proof.
  intros Hd. unfold SqliteAdapter.serializeVector. apply bind_throws.
  unfold SqliteAdapter.ensureDimension, bind, get.
  rewrite Hd. reflexivity.
Qed.

(** The three ways [insertVector] of the SQLite adapter ends on a vector
    of the wrong length. *)
Lemma sqlite_insertVector_mismatch_run w a t name v metadata :
  SqliteAdapter.isConnected a = true ->
  is_length (SqliteAdapter.vectorDimension (SqliteAdapter.config a))
            (List.length v) = false ->
  let statement :=
    SqInsert (escapeIdentifier name) "embedding" "vector_as_f32(@embedding)" in
  let run := SqliteAdapter.insertVector name v metadata w a t in
  (SqliteAdapter.vectorType a <> "FLOAT32"
   /\ run = (Err (UnsupportedVectorType (SqliteAdapter.vectorType a)), a, t))
  \/ (SqliteAdapter.vectorType a = "FLOAT32"
      /\ exists e,
           driver w t (SqlitePrepare statement) = Err e
           /\ run = (Err e, a, t ++ [SqlitePrepare statement]))
  \/ (SqliteAdapter.vectorType a = "FLOAT32"
      /\ driver w t (SqlitePrepare statement) = Ok tt
      /\ run = (Err (DimensionMismatch
                       (SqliteAdapter.vectorDimension (SqliteAdapter.config a))
                       (List.length v)),
                a, t ++ [SqlitePrepare statement])).
Proof.
  intros Hc Hd statement run. unfold run, SqliteAdapter.insertVector.
  erewrite bind_returns by (apply sqlite_ensureConnected_passes; exact Hc).
  cbv zeta.
  destruct (String.eqb (SqliteAdapter.vectorType a) "FLOAT32") eqn:Ht.
  - apply String.eqb_eq in Ht. right.
    erewrite bind_returns
      by (rewrite sqlite_wrapVectorFunction_run, Ht; reflexivity).
    change (SqInsert (escapeIdentifier name) SqliteAdapter.vectorColumnName
                     ("vector_as_f32(" +++ "@embedding" +++ ")"))
      with statement.
    destruct (driver w t (SqlitePrepare statement)) as [[] | e] eqn:D.
    + right. repeat split; try assumption.
      erewrite bind_returns by (unfold invoke; rewrite D; reflexivity).
      erewrite bind_throws by (apply sqlite_serializeVector_mismatch; exact Hd).
      reflexivity.
    + left. split; [assumption |]. exists e. split; [reflexivity |].
      erewrite bind_throws by (unfold invoke; rewrite D; reflexivity).
      reflexivity.
  - left. split; [apply String.eqb_neq; exact Ht |].
    erewrite bind_throws
      by (rewrite sqlite_wrapVectorFunction_run, Ht; reflexivity).
    reflexivity.
Qed.

(** What [insertVector] of the pgvector adapter does once it holds a
    client: the INSERT when the metadata could be serialized, and the
    release of the client in either case. *)
Lemma pgvector_insertVector_run w a t name v metadata :
  PgVectorAdapter.isConnected a = true ->
  driver w t PgPoolConnect = Ok tt ->
  trace_of (PgVectorAdapter.insertVector name v metadata w a t)
  = t ++ PgPoolConnect
         :: match stringify_metadata metadata with
            | Ok serialized =>
                [PgClientQuery (PgInsert (escapeIdentifier name) v serialized);
                 PgClientRelease]
            | Err _ => [PgClientRelease]
            end.
Proof.
  intros Hc Hp.
  unfold PgVectorAdapter.insertVector, PgVectorAdapter.ensureConnected,
    try_finally, bind, get, invoke, ret, throw, trace_of.
  unfold PgVectorAdapter.isConnected in Hc.
  destruct (PgVectorAdapter.pool a); [| discriminate]. simpl.
  rewrite Hp. simpl.
  destruct (stringify_metadata metadata) as [serialized | e]; simpl.
  - destruct (driver w (t ++ [PgPoolConnect]) _) as [res | e]; simpl.
    + destruct (pg_rows res); simpl;
        destruct (driver w _ PgClientRelease); simpl;
        rewrite <- !app_assoc; reflexivity.
    + destruct (driver w _ PgClientRelease); simpl;
        rewrite <- !app_assoc; reflexivity.
  - destruct (driver w _ PgClientRelease); simpl;
      rewrite <- !app_assoc; reflexivity.
Qed.

(** What the server answers is what [insertVector] ends with, when the
    client could be released. *)
Lemma pgvector_insertVector_rejected w a t name v metadata serialized e :
  PgVectorAdapter.isConnected a = true ->
  driver w t PgPoolConnect = Ok tt ->
  stringify_metadata metadata = Ok serialized ->
  let insert := PgClientQuery (PgInsert (escapeIdentifier name) v serialized) in
  driver w (t ++ [PgPoolConnect]) insert = Err e ->
  driver w ((t ++ [PgPoolConnect]) ++ [insert]) PgClientRelease = Ok tt ->
  result_of (PgVectorAdapter.insertVector name v metadata w a t) = Err e.
Proof.
  intros Hc Hp Hs insert Hi Hr.
  unfold PgVectorAdapter.insertVector, PgVectorAdapter.ensureConnected,
    try_finally, bind, get, invoke, ret, throw, result_of.
  unfold PgVectorAdapter.isConnected in Hc.
  destruct (PgVectorAdapter.pool a); [| discriminate]. simpl.
  rewrite Hp, Hs. simpl. fold insert. rewrite Hi. simpl.
  rewrite Hr. reflexivity.
Qed.

(** C1, amended.  [SqliteAdapter.insertVector], on a connected adapter and
    a vector whose length differs from the adapter's configured
    [vectorDimension], fails and leaves the adapter as it was; it never
    executes the INSERT statement, so nothing is written; and the failure
    is the dimension-mismatch error whenever the vector type is FLOAT32 and
    the statement could be prepared.  [PgVectorAdapter.insertVector] checks
    no dimension: once a client is obtained from the pool and the metadata
    is serialized, it sends the INSERT with the vector as given, whatever
    its length, and releases the client (metadata that cannot be serialized
    is the one thing that keeps the INSERT from being sent); and it is the
    pgvector server that rejects a vector whose length is not the table's
    dimension, with an error of its own that [insertVector] passes on. *)
Theorem insertVector_dimension_check :
  (forall w a t name v metadata,
     SqliteAdapter.isConnected a = true ->
     is_length (SqliteAdapter.vectorDimension (SqliteAdapter.config a))
               (List.length v) = false ->
     let statement :=
       SqInsert (escapeIdentifier name) "embedding"
                "vector_as_f32(@embedding)" in
     let run := SqliteAdapter.insertVector name v metadata w a t in
     (exists e, result_of run = Err e)
     /\ state_of run = a
     /\ (forall s p, ~ In (SqliteStatementRun s p) (issued t run))
     /\ (SqliteAdapter.vectorType a = "FLOAT32" ->
         driver w t (SqlitePrepare statement) = Ok tt ->
         result_of run
         = Err (DimensionMismatch
                  (SqliteAdapter.vectorDimension (SqliteAdapter.config a))
                  (List.length v))))
  /\
  (forall w a t name v metadata,
     PgVectorAdapter.isConnected a = true ->
     driver w t PgPoolConnect = Ok tt ->
     let run := PgVectorAdapter.insertVector name v metadata w a t in
     (forall serialized,
        stringify_metadata metadata = Ok serialized ->
        issued t run
        = [PgPoolConnect;
           PgClientQuery (PgInsert (escapeIdentifier name) v serialized);
           PgClientRelease])
     /\ (forall e,
           stringify_metadata metadata = Err e ->
           issued t run = [PgPoolConnect; PgClientRelease]))
  /\
  (forall tb a t v metadata serialized,
     PgVectorAdapter.isConnected a = true ->
     stringify_metadata metadata = Ok serialized ->
     List.length v <> Pgvector.dimension tb ->
     let run := PgVectorAdapter.insertVector (Pgvector.table_name tb) v
                  metadata (Pgvector.serving tb) a t in
     result_of run
     = Err (Thrown "error"
              ("expected " +++ string_of_Z (Z.of_nat (Pgvector.dimension tb))
                 +++ " dimensions, not "
                 +++ string_of_Z (Z.of_nat (List.length v))))
     /\ issued t run
        = [PgPoolConnect;
           PgClientQuery (PgInsert (escapeIdentifier (Pgvector.table_name tb))
                                   v serialized);
           PgClientRelease]).
Proof.
  split; [| split].
  - intros w a t name v metadata Hc Hd statement run.
    destruct (@sqlite_insertVector_mismatch_run w a t name v metadata Hc Hd)
      as [[Ht E] | [[Ht [e [D E]]] | [Ht [D E]]]];
      fold statement in D, E || fold statement in E; fold run in E;
      rewrite E; unfold result_of, state_of; simpl.
    + repeat split; eauto.
      * intros s p. rewrite issued_nil. auto.
      * intros Ht'. contradiction.
    + repeat split; eauto.
      * intros s p. rewrite issued_app. simpl. intros [H | []]. discriminate H.
      * intros _ D'. rewrite D' in D. discriminate D.
    + repeat split; eauto.
      intros s p. rewrite issued_app. simpl. intros [H | []]. discriminate H.
  - intros w a t name v metadata Hc Hp run.
    pose proof (@pgvector_insertVector_run w a t name v metadata Hc Hp) as H.
    fold run in H. destruct run as [[r s] t'].
    unfold trace_of in H. simpl in H. subst t'.
    split; [intros serialized Hs | intros e Hs]; rewrite Hs;
      apply issued_app.
  - intros tb a t v metadata serialized Hc Hs Hd run. split.
    + apply (@pgvector_insertVector_rejected
               (Pgvector.serving tb) a t (Pgvector.table_name tb) v metadata
               serialized _ Hc eq_refl Hs); [| reflexivity].
      simpl. unfold Pgvector.execute, Pgvector.insert.
      rewrite String.eqb_refl.
      apply Nat.eqb_neq in Hd. rewrite Hd. reflexivity.
    + pose proof (@pgvector_insertVector_run
                    (Pgvector.serving tb) a t (Pgvector.table_name tb) v
                    metadata Hc eq_refl) as H.
      fold run in H. destruct run as [[r s] t'].
      unfold trace_of in H. simpl in H. subst t'. rewrite Hs.
      apply issued_app.
Qed.

(** C1, amended, at a connected three-dimensional SQLite adapter and a
    vector of two entries. *)
Lemma insertVector_dimension_check_witness :
  result_of (SqliteAdapter.insertVector "items" [1%Q; 2%Q] None quiet_world
               sqlite_three_dimensions [])
  = Err (DimensionMismatch (Finite 3%Q) 2)
  /\ result_of (PgVectorAdapter.insertVector "items" [1%Q; 2%Q] None
                  (Pgvector.serving (Pgvector.Table "items" 3 []))
                  pgvector_connected [])
     = Err (Thrown "error" "expected 3 dimensions, not 2").
Proof.
  split.
  - refine (proj2 (proj2 (proj2
              (proj1 insertVector_dimension_check quiet_world
                     sqlite_three_dimensions [] "items" [1%Q; 2%Q] None
                     eq_refl eq_refl)))
              eq_refl eq_refl).
  - refine (proj1 (proj2 (proj2 insertVector_dimension_check)
                     (Pgvector.Table "items" 3 []) pgvector_connected []
                     [1%Q; 2%Q] None None eq_refl eq_refl _)).
    simpl. lia.
Defined.

(** C1 as stated fails on the pgvector adapter: a vector of two entries
    inserted into a table of three dimensions is sent to the server, which
    is the one to reject it. *)
Lemma pgvector_insertVector_sends_mismatched_vector :
  let table := Pgvector.Table "items" 3 [] in
  let v := [1%Q; 2%Q] in
  let run := PgVectorAdapter.insertVector "items" v None
               (Pgvector.serving table) pgvector_connected [] in
  List.length v <> Pgvector.dimension table
  /\ issued [] run
     = [PgPoolConnect;
        PgClientQuery (PgInsert (escapeIdentifier "items") v None);
        PgClientRelease]
  /\ result_of run = Err (Thrown "error" "expected 3 dimensions, not 2")
  /\ ~ (issued [] run = []
        /\ exists expected received,
             result_of run = Err (DimensionMismatch expected received)).
Proof.
  cbv zeta. split; [simpl; lia |]. split; [reflexivity |].
  split; [reflexivity |].
  intros [H _]. vm_compute in H. discriminate H.
Qed.

(** ** C2: the order of [PgVectorAdapter.searchSimilar] *)

(** Whatever the distance function, the SELECT that is sent orders by the
    Euclidean operator; the function only chooses the reported distance. *)
Lemma pgvector_searchSimilar_statement w a t name q limit f :
  PgVectorAdapter.isConnected a = true ->
  driver w t PgPoolConnect = Ok tt ->
  issued t (PgVectorAdapter.searchSimilar name q limit f w a t)
  = [PgPoolConnect;
     PgClientQuery
       (PgSelectSimilar (escapeIdentifier name)
                        (PgVectorAdapter.distanceExpr
                           (or_else f PgVectorAdapter.cosine))
                        (Distance OpL2) q (or_else limit 10%Z));
     PgClientRelease].
Proof.
  intros Hc Hp.
  assert (H : trace_of (PgVectorAdapter.searchSimilar name q limit f w a t)
              = t ++ [PgPoolConnect;
                      PgClientQuery
                        (PgSelectSimilar (escapeIdentifier name)
                           (PgVectorAdapter.distanceExpr
                              (or_else f PgVectorAdapter.cosine))
                           (Distance OpL2) q (or_else limit 10%Z));
                      PgClientRelease]).
  { unfold PgVectorAdapter.searchSimilar, PgVectorAdapter.ensureConnected,
      try_finally, bind, get, invoke, ret, throw, trace_of.
    unfold PgVectorAdapter.isConnected in Hc.
    destruct (PgVectorAdapter.pool a); [| discriminate]. simpl.
    rewrite Hp. simpl.
    destruct (driver w (t ++ [PgPoolConnect]) _) as [res | e]; simpl;
      destruct (driver w _ PgClientRelease); simpl;
      rewrite <- !app_assoc; reflexivity. }
  destruct (PgVectorAdapter.searchSimilar name q limit f w a t) as [[r s] t'].
  unfold trace_of in H. simpl in H. subst t'. apply issued_app.
Qed.

(** With the L2 function the order is the right one: insertion keeps the
    keys ascending, and so does the LIMIT. *)
Lemma ascending_cons k ks :
  ascending (k :: ks) = true
  <-> match ks with
      | [] => True
      | k' :: _ => Qle_bool k k' = true
      end /\ ascending ks = true.
Proof.
  destruct ks as [| k' ks]; simpl.
  - tauto.
  - rewrite andb_true_iff. tauto.
Qed.

Lemma insert_by_ascending key r l :
  ascending (map key l) = true ->
  ascending (map key (Pgvector.insert_by key r l)) = true.
Proof.
  induction l as [| a l IH]; [reflexivity |].
  intros H. cbn [Pgvector.insert_by].
  destruct (Qle_bool (key r) (key a)) eqn:E.
  - cbn [map]. apply ascending_cons. split; [exact E | exact H].
  - cbn [map] in *. apply ascending_cons in H. destruct H as [Hhead Htail].
    apply ascending_cons. split; [| apply IH; exact Htail].
    destruct l as [| b l]; cbn [Pgvector.insert_by map].
    + apply Qle_bool_flip. exact E.
    + destruct (Qle_bool (key r) (key b)); cbn [map];
        [apply Qle_bool_flip; exact E | exact Hhead].
Qed.

Lemma order_by_ascending key l :
  ascending (map key (Pgvector.order_by key l)) = true.
Proof.
  induction l as [| a l IH]; [reflexivity |].
  simpl. apply insert_by_ascending. exact IH.
Qed.

Lemma firstn_ascending n ks :
  ascending ks = true -> ascending (firstn n ks) = true.
Proof.
  revert ks. induction n as [| n IH]; intros ks H; [reflexivity |].
  destruct ks as [| k ks]; [reflexivity |].
  cbn [firstn]. apply ascending_cons in H. destruct H as [Hhead Htail].
  apply ascending_cons. split; [| apply IH; exact Htail].
  destruct n, ks; simpl; auto.
Qed.

Lemma pgvector_searchSimilar_l2_closest_first tb a t name q limit results :
  result_of (PgVectorAdapter.searchSimilar name q limit
               (Some PgVectorAdapter.l2) (Pgvector.serving tb) a t)
  = Ok results ->
  closest_first PgVectorAdapter.l2 q results = true.
Proof.
  unfold PgVectorAdapter.searchSimilar, PgVectorAdapter.ensureConnected,
    try_finally, bind, get, invoke, ret, throw, result_of.
  destruct (PgVectorAdapter.pool a); simpl; [| discriminate].
  unfold Pgvector.execute, Pgvector.select_similar.
  destruct (String.eqb _ _); simpl; [| discriminate].
  destruct (negb _); simpl; [discriminate |].
  destruct (Z.ltb _ 0); simpl; [discriminate |].
  intros [= <-]. unfold closest_first. simpl.
  rewrite !map_map. simpl. rewrite <- firstn_map.
  apply firstn_ascending. apply order_by_ascending.
Qed.

(** C2 fails on the code.  Over a table holding [3,0] (id 1) and [1,1]
    (id 2), a search for [1,0] returns id 2 before id 1 for every distance
    function, since the rows are ordered by Euclidean distance (1 against
    2).  Under the inner product id 1 is the closer ([<#>] is -3 against
    -1), and under cosine distance too (0 against a positive distance), so
    for these two metrics the result is not closest first; for L2 it
    is. *)
Theorem pgvector_searchSimilar_not_closest_first :
  let q := [1%Q; 0%Q] in
  let search f :=
    result_of (PgVectorAdapter.searchSimilar "items" q None (Some f)
                 (Pgvector.serving two_items) pgvector_connected []) in
  let found id e d := PgVectorAdapter.mkSearchResult id e None d in
  search PgVectorAdapter.inner_product
  = Ok [found 2%Z [1%Q; 1%Q] (-1)%Q; found 1%Z [3%Q; 0%Q] (-3)%Q]
  /\ closest_first PgVectorAdapter.inner_product q
       [found 2%Z [1%Q; 1%Q] (-1)%Q; found 1%Z [3%Q; 0%Q] (-3)%Q] = false
  /\ (exists results,
        search PgVectorAdapter.cosine = Ok results
        /\ map PgVectorAdapter.id results = [2%Z; 1%Z]
        /\ closest_first PgVectorAdapter.cosine q results = false)
  /\ (exists results,
        search PgVectorAdapter.l2 = Ok results
        /\ map PgVectorAdapter.id results = [2%Z; 1%Z]
        /\ closest_first PgVectorAdapter.l2 q results = true).
Proof.
  cbv zeta. split; [reflexivity |]. split; [reflexivity |].
  split; eexists; (split; [reflexivity |]); split; reflexivity.
Qed.

(** ** C7: embeddings of the wrong dimension *)

(** What [map] makes of the items: the embeddings of the items in their
    order when none is [null], the [TypeError] otherwise. *)
Lemma embeddings_ok data vectors :
  embeddings data = Ok vectors ->
  exists items, data = map Some items /\ vectors = map embedding items.
Proof.
  revert vectors. induction data as [| [d |] data IH]; simpl; intros vectors.
  - intros [= <-]. exists []. split; reflexivity.
  - destruct (embeddings data) as [vs | e]; [| discriminate].
    intros [= <-]. destruct (IH vs eq_refl) as [items [-> ->]].
    exists (d :: items). split; reflexivity.
  - discriminate.
Qed.

Lemma embeddings_of_items items :
  embeddings (map Some items) = Ok (map embedding items).
Proof.
  induction items as [| d items IH]; simpl; [| rewrite IH]; reflexivity.
Qed.

Lemma embeddings_null data :
  In None data -> embeddings data = Err reading_embedding_of_null.
Proof.
  induction data as [| [d |] data IH]; simpl.
  - contradiction.
  - intros [H | H]; [discriminate H |]. rewrite (IH H). reflexivity.
  - reflexivity.
Qed.

Lemma embeddings_not_null data :
  ~ In None data -> exists vectors, embeddings data = Ok vectors.
Proof.
  induction data as [| [d |] data IH]; simpl; intros H.
  - eexists; reflexivity.
  - destruct IH as [vs ->]; [tauto | eexists; reflexivity].
  - exfalso. apply H. left. reflexivity.
Qed.

Lemma embeddings_throws data e :
  embeddings data = Err e -> e = reading_embedding_of_null.
Proof.
  induction data as [| [d |] data IH]; simpl.
  - discriminate.
  - destruct (embeddings data); [discriminate |].
    intros [= <-]. apply IH. reflexivity.
  - intros [= <-]. reflexivity.
Qed.

(** The loop over the returned vectors: it changes nothing, calls nothing,
    and what it throws is the dimension-mismatch error.  The same proof for
    both providers. *)
Ltac check_dimensions_walk :=
  let vectors := fresh "vectors" in
  let IH := fresh "IH" in
  intros expected vectors w p t;
  induction vectors as [| [u |] vectors IH]; simpl;
  [ exists (Ok tt); split; [reflexivity | intros e H; discriminate H]
  | destruct (negb _);
    [ eexists; split; [reflexivity | intros e [= <-]; eexists; reflexivity]
    | exact IH ]
  | eexists; split; [reflexivity | intros e [= <-]; eexists; reflexivity] ].

Lemma jina_check_dimensions_run :
  forall expected vectors w p t,
    exists r,
      JinaAIEmbeddingProvider.check_dimensions expected vectors w p t
      = (r, p, t)
      /\ forall e, r = Err e ->
           exists got, e = EmbeddingDimensionMismatch Jina expected got.
Proof. check_dimensions_walk. Qed.

Lemma openai_check_dimensions_run :
  forall expected vectors w p t,
    exists r,
      OpenAIEmbeddingProvider.check_dimensions expected vectors w p t
      = (r, p, t)
      /\ forall e, r = Err e ->
           exists got, e = EmbeddingDimensionMismatch OpenAI expected got.
Proof. check_dimensions_walk. Qed.

(** The proof that the loop over the returned vectors throws, the same for
    both providers. *)
Ltac wrong_dimension_found :=
  let vectors := fresh "vectors" in
  let IH := fresh "IH" in
  intros w p t expected vectors [v [Hin Hlen]];
  induction vectors as [| [u |] vectors IH]; simpl;
  [ contradiction
  | destruct (is_length expected (List.length u)) eqn:E; simpl;
    [ destruct Hin as [Hin | Hin];
      [ injection Hin as ->; congruence
      | apply IH; exact Hin ]
    | eexists; reflexivity ]
  | eexists; reflexivity ].

Lemma jina_check_dimensions_throws :
  forall w p t expected vectors,
    (exists v, In (Some v) vectors
               /\ is_length expected (List.length v) = false) ->
    exists got,
      JinaAIEmbeddingProvider.check_dimensions expected vectors w p t
      = (Err (EmbeddingDimensionMismatch Jina expected got), p, t).
Proof. wrong_dimension_found. Qed.

Lemma openai_check_dimensions_throws :
  forall w p t expected vectors,
    (exists v, In (Some v) vectors
               /\ is_length expected (List.length v) = false) ->
    exists got,
      OpenAIEmbeddingProvider.check_dimensions expected vectors w p t
      = (Err (EmbeddingDimensionMismatch OpenAI expected got), p, t).
Proof. wrong_dimension_found. Qed.

(** [embed] on a batch that is not empty, when the request is answered by a
    success whose [data] is an array: the provider is left as it is, the
    request is the one call, and the result is that of the [map] and of the
    loop. *)
Ltac embed_on_data embed check_run :=
  let vectors := fresh "vectors" in
  let expected := fresh "expected" in
  let e := fresh "e" in
  let r := fresh "r" in
  let got := fresh "got" in
  let Hmap := fresh "Hmap" in
  let Hrun := fresh "Hrun" in
  let Herr := fresh "Herr" in
  intros w p t texts res data request Htexts Hfetch Hok Hjson;
  unfold embed;
  destruct texts as [| text texts]; [contradiction |];
  change (Nat.eqb (List.length (text :: texts)) 0) with false; cbv iota;
  unfold bind at 1, get at 1, try_catch;
  fold request; unfold bind at 1, invoke at 1;
  rewrite Hfetch, Hok; simpl negb; cbv iota;
  rewrite Hjson; unfold bind at 1;
  destruct (embeddings data) as [vectors | e] eqn:Hmap; simpl;
  [ match goal with
    | |- context [match ?x with Some _ => _ | None => _ end] =>
        destruct x as [expected |]; [| reflexivity]
    end;
    unfold bind at 1;
    destruct (check_run expected vectors w p (t ++ [request]))
      as [r [Hrun Herr]];
    rewrite Hrun; unfold result_of; simpl;
    destruct r as [[] | e]; [reflexivity |];
    destruct (Herr e eq_refl) as [got ->]; reflexivity
  | rewrite (@embeddings_throws _ _ Hmap); reflexivity ].

Lemma jina_embed_on_data :
  forall w p t texts res data,
    let request :=
      Fetch (JinaAIEmbeddingProvider.baseUrl p +++ "/embeddings")
            ("Bearer " +++ JinaAIEmbeddingProvider.apiKey p)
            (JinaAIEmbeddingProvider.model p) texts in
    texts <> [] ->
    driver w t request = Ok res ->
    res_ok res = true ->
    res_json res = Ok (DataArray data) ->
    JinaAIEmbeddingProvider.embed texts w p t
    = (match embeddings data with
       | Err e => Err e
       | Ok vectors =>
           match JinaAIEmbeddingProvider.expectedDimensions p with
           | Some expected =>
               match result_of (JinaAIEmbeddingProvider.check_dimensions
                                  expected vectors w p (t ++ [request])) with
               | Ok _ => Ok vectors
               | Err e => Err e
               end
           | None => Ok vectors
           end
       end, p, t ++ [request]).
Proof.
  embed_on_data JinaAIEmbeddingProvider.embed jina_check_dimensions_run.
Qed.

Lemma openai_embed_on_data :
  forall w p t texts res data,
    let request :=
      Fetch (OpenAIEmbeddingProvider.baseUrl p +++ "/embeddings")
            ("Bearer " +++ OpenAIEmbeddingProvider.apiKey p)
            (OpenAIEmbeddingProvider.model p) texts in
    texts <> [] ->
    driver w t request = Ok res ->
    res_ok res = true ->
    res_json res = Ok (DataArray data) ->
    OpenAIEmbeddingProvider.embed texts w p t
    = (match embeddings data with
       | Err e => Err e
       | Ok vectors =>
           match OpenAIEmbeddingProvider.expectedDimensions p with
           | Some expected =>
               match result_of (OpenAIEmbeddingProvider.check_dimensions
                                  expected vectors w p (t ++ [request])) with
               | Ok _ => Ok vectors
               | Err e => Err e
               end
           | None => Ok vectors
           end
       end, p, t ++ [request]).
Proof.
  embed_on_data OpenAIEmbeddingProvider.embed openai_check_dimensions_run.
Qed.

(** A vector of the wrong length among the items is one among their
    embeddings. *)
Lemma wrong_vector_among_embeddings data vectors expected :
  embeddings data = Ok vectors ->
  (exists v, In (Some (Item (Some v))) data
             /\ is_length expected (List.length v) = false) ->
  exists v, In (Some v) vectors /\ is_length expected (List.length v) = false.
Proof.
  intros Hmap [v [Hin Hlen]].
  destruct (@embeddings_ok _ _ Hmap) as [items [-> ->]].
  exists v. split; [| exact Hlen].
  apply in_map_iff in Hin. destruct Hin as [d [[= ->] Hin]].
  apply in_map_iff. exists (Item (Some v)). split; [reflexivity | exact Hin].
Qed.

(** C7, amended.  For the Jina and the OpenAI provider alike: when
    [expectedDimensions] is configured, the batch of texts is not empty,
    and the response to the one request is a success whose [data] holds a
    vector of another length, [embed] fails, returns no vector and leaves
    the provider as it is.  The failure is the dimension-mismatch error
    when no item of [data] is [null]; when an item is [null] it is the
    [TypeError] thrown on reading its [embedding], before any length is
    looked at. *)
Theorem embed_rejects_wrong_dimension :
  forall w t texts expected res data,
    texts <> [] ->
    res_ok res = true ->
    res_json res = Ok (DataArray data) ->
    (exists v, In (Some (Item (Some v))) data
               /\ is_length expected (List.length v) = false) ->
    (forall p,
       let request :=
         Fetch (JinaAIEmbeddingProvider.baseUrl p +++ "/embeddings")
               ("Bearer " +++ JinaAIEmbeddingProvider.apiKey p)
               (JinaAIEmbeddingProvider.model p) texts in
       JinaAIEmbeddingProvider.expectedDimensions p = Some expected ->
       driver w t request = Ok res ->
       let run := JinaAIEmbeddingProvider.embed texts w p t in
       (exists e, run = (Err e, p, t ++ [request]))
       /\ (~ In None data ->
           exists got,
             result_of run = Err (EmbeddingDimensionMismatch Jina expected got))
       /\ (In None data -> result_of run = Err reading_embedding_of_null))
    /\
    (forall p,
       let request :=
         Fetch (OpenAIEmbeddingProvider.baseUrl p +++ "/embeddings")
               ("Bearer " +++ OpenAIEmbeddingProvider.apiKey p)
               (OpenAIEmbeddingProvider.model p) texts in
       OpenAIEmbeddingProvider.expectedDimensions p = Some expected ->
       driver w t request = Ok res ->
       let run := OpenAIEmbeddingProvider.embed texts w p t in
       (exists e, run = (Err e, p, t ++ [request]))
       /\ (~ In None data ->
           exists got,
             result_of run
             = Err (EmbeddingDimensionMismatch OpenAI expected got))
       /\ (In None data -> result_of run = Err reading_embedding_of_null)).
Proof.
  intros w t texts expected res data Htexts Hok Hjson Hbad.
  split; intros p request Hexp Hfetch run.
  - unfold run.
    rewrite (@jina_embed_on_data w p t texts res data Htexts Hfetch Hok Hjson).
    fold request. rewrite Hexp. unfold result_of at 2 3. simpl.
    destruct (embeddings data) as [vectors | e] eqn:Hmap.
    + destruct (@jina_check_dimensions_throws w p (t ++ [request]) expected
                  vectors (@wrong_vector_among_embeddings data vectors expected Hmap Hbad))
        as [got ->].
      unfold result_of. simpl. split; [eexists; reflexivity |].
      split; [intros _; exists got; reflexivity |].
      intros Hnull. rewrite (@embeddings_null data Hnull) in Hmap.
      discriminate Hmap.
    + split; [eexists; reflexivity |]. split.
      * intros Hnot. destruct (@embeddings_not_null data Hnot) as [vs Hvs].
        rewrite Hvs in Hmap. discriminate Hmap.
      * intros _. rewrite (@embeddings_throws _ _ Hmap). reflexivity.
  - unfold run.
    rewrite (@openai_embed_on_data w p t texts res data Htexts Hfetch Hok
               Hjson).
    fold request. rewrite Hexp. unfold result_of at 2 3. simpl.
    destruct (embeddings data) as [vectors | e] eqn:Hmap.
    + destruct (@openai_check_dimensions_throws w p (t ++ [request]) expected
                  vectors (@wrong_vector_among_embeddings data vectors expected Hmap Hbad))
        as [got ->].
      unfold result_of. simpl. split; [eexists; reflexivity |].
      split; [intros _; exists got; reflexivity |].
      intros Hnull. rewrite (@embeddings_null data Hnull) in Hmap.
      discriminate Hmap.
    + split; [eexists; reflexivity |]. split.
      * intros Hnot. destruct (@embeddings_not_null data Hnot) as [vs Hvs].
        rewrite Hvs in Hmap. discriminate Hmap.
      * intros _. rewrite (@embeddings_throws _ _ Hmap). reflexivity.
Qed.

(** C7, amended, at a Jina provider expecting 896 dimensions and a response
    of one vector of three. *)
Lemma embed_rejects_wrong_dimension_witness :
  exists got,
    result_of (JinaAIEmbeddingProvider.embed ["hello world"]
                 embeddings_of_three jina_896 [])
    = Err (EmbeddingDimensionMismatch Jina (Finite 896%Q) got).
Proof.
  refine (proj1 (proj2
            (proj1 (@embed_rejects_wrong_dimension
                      embeddings_of_three [] ["hello world"] (Finite 896%Q)
                      three_entries
                      [Some (Item (Some [1%Q; 2%Q; 3%Q]))] _ eq_refl eq_refl _)
                   jina_896 eq_refl eq_refl)) _).
  - discriminate.
  - exists [1%Q; 2%Q; 3%Q]. split; [left; reflexivity | reflexivity].
  - simpl. intros [H | []]. discriminate H.
Defined.

(** C7 as stated fails on a response that holds [null] before a vector of
    three entries: the provider expects 896 dimensions, and [embed] fails
    with the [TypeError] of the [map], which is no dimension-mismatch
    error. *)
Lemma embed_null_item_is_no_dimension_mismatch :
  let run := JinaAIEmbeddingProvider.embed ["hello world"]
               embeddings_after_null jina_896 [] in
  res_json null_and_three_entries
  = Ok (DataArray [None; Some (Item (Some [1%Q; 2%Q; 3%Q]))])
  /\ is_length (Finite 896%Q) (List.length [1%Q; 2%Q; 3%Q]) = false
  /\ result_of run = Err reading_embedding_of_null
  /\ ~ (exists got,
          result_of run
          = Err (EmbeddingDimensionMismatch Jina (Finite 896%Q) got)).
Proof.
  cbv zeta. split; [reflexivity |]. split; [reflexivity |].
  split; [reflexivity |].
  intros [got H]. vm_compute in H. discriminate H.
Qed.

(** ** C8: the default provider and [getProvider] *)



(** C8 at a configuration that names OpenAI as default and configures only
    Jina: construction fails. *)
Example registry_default_not_configured :
  VectorSmithEmbedding.constructor
    (VectorSmithEmbedding.mkConfig (Some OpenAI)
       (VectorSmithEmbedding.jina jina_only) None)
  = Err (DefaultProviderNotConfigured OpenAI).
Proof. reflexivity. Qed.

(** * Further properties *)

(** ** Connecting twice, disconnecting *)

Lemma redis_connect_again w a t :
  RedisAdapter.isConnected a = true ->
  RedisAdapter.connect w a t = (Ok tt, a, t).
Proof.
  unfold RedisAdapter.isConnected, RedisAdapter.connect, bind, get.
  intros ->. reflexivity.
Qed.

Lemma pgvector_connect_again w a t :
  PgVectorAdapter.isConnected a = true ->
  PgVectorAdapter.connect w a t = (Ok tt, a, t).
Proof.
  unfold PgVectorAdapter.isConnected, PgVectorAdapter.connect, bind, get.
  destruct (PgVectorAdapter.pool a); [reflexivity | discriminate].
Qed.

Lemma sqlite_connect_again w a t :
  SqliteAdapter.isConnected a = true ->
  SqliteAdapter.connect w a t = (Ok tt, a, t).
Proof.
  unfold SqliteAdapter.isConnected, SqliteAdapter.connect, bind, get.
  destruct (SqliteAdapter.database a); [reflexivity | discriminate].
Qed.

Lemma qdrant_connect_again w a t :
  QdrantAdapter.isConnected a = true ->
  QdrantAdapter.connect w a t = (Ok tt, a, t).
Proof.
  unfold QdrantAdapter.isConnected, QdrantAdapter.connect, bind, get.
  intros ->. reflexivity.
Qed.

(** X1.  On each of the four adapters, a [connect] that follows a [connect]
    which resolved does nothing: it resolves, leaves the adapter as the
    first left it, and calls no driver, whatever the world has become. *)
Theorem connect_after_connect_is_noop :
  forall w w',
    (forall a t,
       let first := RedisAdapter.connect w a t in
       result_of first = Ok tt ->
       RedisAdapter.connect w' (state_of first) (trace_of first)
       = (Ok tt, state_of first, trace_of first))
    /\ (forall a t,
          let first := PgVectorAdapter.connect w a t in
          result_of first = Ok tt ->
          PgVectorAdapter.connect w' (state_of first) (trace_of first)
          = (Ok tt, state_of first, trace_of first))
    /\ (forall a t,
          let first := SqliteAdapter.connect w a t in
          result_of first = Ok tt ->
          SqliteAdapter.connect w' (state_of first) (trace_of first)
          = (Ok tt, state_of first, trace_of first))
    /\ (forall a t,
          let first := QdrantAdapter.connect w a t in
          result_of first = Ok tt ->
          QdrantAdapter.connect w' (state_of first) (trace_of first)
          = (Ok tt, state_of first, trace_of first)).
Proof.
  intros w w'. repeat split; intros a t first H.
  - apply redis_connect_again, redis_connect_ok, H.
  - apply pgvector_connect_again, pgvector_connect_ok, H.
  - apply sqlite_connect_again, sqlite_connect_ok, H.
  - apply qdrant_connect_again, qdrant_connect_ok, H.
Qed.

(** X1 at a fresh Qdrant adapter in the quiet world. *)
Lemma connect_after_connect_witness :
  let a := QdrantAdapter.constructor
             (QdrantAdapter.mkConfig None None None None None None) in
  let first := QdrantAdapter.connect quiet_world a [] in
  QdrantAdapter.connect postgres_unreachable (state_of first) (trace_of first)
  = (Ok tt, state_of first, trace_of first).
Proof.
  intros a first.
  apply (proj2 (proj2 (proj2 (connect_after_connect_is_noop
                                quiet_world postgres_unreachable))) a []).
  reflexivity.
Defined.

Lemma redis_disconnect_ok w a t :
  result_of (RedisAdapter.disconnect w a t) = Ok tt ->
  RedisAdapter.isConnected (state_of (RedisAdapter.disconnect w a t)) = false.
Proof.
  unfold RedisAdapter.disconnect, RedisAdapter.isConnected, bind, get, put,
    invoke, ret, result_of, state_of.
  destruct (RedisAdapter.client_isOpen a) eqn:E; simpl; [| intros _; exact E].
  answer; intros H; try discriminate H; reflexivity.
Qed.

Lemma pgvector_disconnect_ok w a t :
  result_of (PgVectorAdapter.disconnect w a t) = Ok tt ->
  PgVectorAdapter.isConnected (state_of (PgVectorAdapter.disconnect w a t))
  = false.
Proof.
  unfold PgVectorAdapter.disconnect, PgVectorAdapter.isConnected, bind, get,
    put, invoke, ret, result_of, state_of.
  destruct (PgVectorAdapter.pool a) eqn:E; simpl;
    [| intros _; rewrite E; reflexivity].
  answer; intros H; try discriminate H; reflexivity.
Qed.

Lemma sqlite_disconnect_ok w a t :
  result_of (SqliteAdapter.disconnect w a t) = Ok tt ->
  SqliteAdapter.isConnected (state_of (SqliteAdapter.disconnect w a t))
  = false.
Proof.
  unfold SqliteAdapter.disconnect, SqliteAdapter.isConnected, bind, get,
    put, invoke, ret, result_of, state_of.
  destruct (SqliteAdapter.database a) eqn:E; simpl;
    [| intros _; rewrite E; reflexivity].
  answer; intros H; try discriminate H; reflexivity.
Qed.

Lemma qdrant_disconnect_run w a t :
  QdrantAdapter.disconnect w a t
  = (Ok tt, QdrantAdapter.mk None false (QdrantAdapter.config a), t).
Proof. reflexivity. Qed.

(** X2.  A [disconnect] that resolves leaves the adapter not connected; on
    an adapter that is not connected it resolves without calling a driver,
    and (Redis, pgvector, SQLite) without changing the adapter.  The
    Qdrant adapter's [disconnect] never calls its driver and never
    fails. *)
Theorem disconnect_leaves_not_connected :
  forall w t,
    (forall a,
       (result_of (RedisAdapter.disconnect w a t) = Ok tt ->
        RedisAdapter.isConnected (state_of (RedisAdapter.disconnect w a t))
        = false)
       /\ (RedisAdapter.isConnected a = false ->
           RedisAdapter.disconnect w a t = (Ok tt, a, t)))
    /\ (forall a,
          (result_of (PgVectorAdapter.disconnect w a t) = Ok tt ->
           PgVectorAdapter.isConnected
             (state_of (PgVectorAdapter.disconnect w a t)) = false)
          /\ (PgVectorAdapter.isConnected a = false ->
              PgVectorAdapter.disconnect w a t = (Ok tt, a, t)))
    /\ (forall a,
          (result_of (SqliteAdapter.disconnect w a t) = Ok tt ->
           SqliteAdapter.isConnected
             (state_of (SqliteAdapter.disconnect w a t)) = false)
          /\ (SqliteAdapter.isConnected a = false ->
              SqliteAdapter.disconnect w a t = (Ok tt, a, t)))
    /\ (forall a,
          result_of (QdrantAdapter.disconnect w a t) = Ok tt
          /\ trace_of (QdrantAdapter.disconnect w a t) = t
          /\ QdrantAdapter.isConnected
               (state_of (QdrantAdapter.disconnect w a t)) = false).
Proof.
  intros w t. repeat split.
  - apply redis_disconnect_ok.
  - unfold RedisAdapter.isConnected, RedisAdapter.disconnect, bind, get.
    intros ->. reflexivity.
  - apply pgvector_disconnect_ok.
  - unfold PgVectorAdapter.isConnected, PgVectorAdapter.disconnect, bind, get.
    destruct (PgVectorAdapter.pool a); [discriminate | reflexivity].
  - apply sqlite_disconnect_ok.
  - unfold SqliteAdapter.isConnected, SqliteAdapter.disconnect, bind, get.
    destruct (SqliteAdapter.database a); [discriminate | reflexivity].
Qed.

(** X2 at the connected pgvector adapter and at a fresh one. *)
Lemma disconnect_leaves_not_connected_witness :
  PgVectorAdapter.isConnected
    (state_of (PgVectorAdapter.disconnect quiet_world pgvector_connected []))
  = false
  /\ PgVectorAdapter.disconnect quiet_world
       (PgVectorAdapter.constructor (PgVectorAdapter.config pgvector_connected))
       []
     = (Ok tt,
        PgVectorAdapter.constructor (PgVectorAdapter.config pgvector_connected),
        []).
Proof.
  split.
  - apply (proj1 (proj1 (proj2 (disconnect_leaves_not_connected quiet_world []))
                        pgvector_connected)).
    reflexivity.
  - apply (proj2 (proj1 (proj2 (disconnect_leaves_not_connected quiet_world []))
                        (PgVectorAdapter.constructor
                           (PgVectorAdapter.config pgvector_connected)))).
    reflexivity.
Defined.
(** ** The aggregator's life cycle *)

(** X3.  When the aggregate [connect] resolves, a backend is configured,
    the adapter of every configured backend reports connected, and so does
    the aggregator. *)
Theorem connect_resolved_connects_every_backend :
  forall w a t,
    let run := VectorSmithAdapter.connect w a t in
    result_of run = Ok tt ->
    (exists b, configured_backend b a = true)
    /\ (forall b,
          configured_backend b a = true ->
          VectorSmithAdapter.backend_isConnected b (state_of run) = true)
    /\ VectorSmithAdapter.isConnected (state_of run) = true.
Proof.
  intros w a t run H.
  destruct (connect_run w a t) as (_ & C & _ & K & Hok & _).
  fold run in C, Hok. destruct (Hok H) as [Hne Hall].
  assert (G : forall b,
             configured_backend b a = true ->
             VectorSmithAdapter.backend_isConnected b (state_of run) = true).
  { intros b Hb. apply K in Hb. apply in_map_iff in Hb.
    destruct Hb as [[b' p] [Hfst Hin]]. simpl in Hfst. subst b'.
    pose proof (Hall b p Hin) as ->.
    eapply fulfilled_at_goal; eassumption. }
  assert (Hb : exists b, configured_backend b a = true).
  { destruct (promises_of_connect w a t) as [| [b p] rest] eqn:E;
      [congruence |].
    exists b. apply K. left. reflexivity. }
  split; [exact Hb |]. split; [exact G |].
  destruct Hb as [b Hb].
  apply aggregator_isConnected_exists. exists b. apply G. exact Hb.
Qed.

(** X3 at the aggregator of Redis and pgvector in the quiet world. *)
Lemma connect_resolved_witness :
  VectorSmithAdapter.isConnected
    (state_of (VectorSmithAdapter.connect quiet_world
                 fresh_redis_and_pgvector [])) = true.
Proof.
  apply (proj2 (proj2 (@connect_resolved_connects_every_backend
                         quiet_world fresh_redis_and_pgvector [] eq_refl))).
Defined.











(** The getter of a backend. *)
Lemma getter_is_configured a :
  is_ok (VectorSmithAdapter.getRedis a) = configured_backend Redis a
  /\ is_ok (VectorSmithAdapter.getPgVector a) = configured_backend PgVector a
  /\ is_ok (VectorSmithAdapter.getSqlite a) = configured_backend Sqlite a
  /\ is_ok (VectorSmithAdapter.getQdrant a) = configured_backend Qdrant a.
Proof.
  unfold VectorSmithAdapter.getRedis, VectorSmithAdapter.getPgVector,
    VectorSmithAdapter.getSqlite, VectorSmithAdapter.getQdrant,
    configured_backend.
  destruct (VectorSmithAdapter.redis a), (VectorSmithAdapter.pgvector a),
    (VectorSmithAdapter.sqlite a), (VectorSmithAdapter.qdrant a);
    repeat split.
Qed.



Lemma sqlite_mapDistanceMetric_supported metric :
  (exists m, SqliteAdapter.mapDistanceMetric metric = Ok m)
  <-> supported_metric metric.
Proof.
  unfold SqliteAdapter.mapDistanceMetric, supported_metric.
  destruct metric as [[| c s] |]; [simpl; split; eauto | | simpl; split; eauto].
  change (negb (truthy_string (Some (String c s)))) with false. cbv iota.
  unfold or_else. set (m := String c s).
  destruct (String.eqb m "inner_product") eqn:E1;
    [apply String.eqb_eq in E1; split; [intros _; right; rewrite E1; simpl; tauto | intros _; eexists; reflexivity] |].
  destruct (String.eqb m "cosine") eqn:E2;
    [apply String.eqb_eq in E2; split; [intros _; right; rewrite E2; simpl; tauto | intros _; eexists; reflexivity] |].
  destruct (String.eqb m "l2") eqn:E3;
    [apply String.eqb_eq in E3; split; [intros _; right; rewrite E3; simpl; tauto | intros _; eexists; reflexivity] |].
  destruct (String.eqb m "dot") eqn:E4;
    [apply String.eqb_eq in E4; split; [intros _; right; rewrite E4; simpl; tauto | intros _; eexists; reflexivity] |].
  apply String.eqb_neq in E1. apply String.eqb_neq in E2.
  apply String.eqb_neq in E3. apply String.eqb_neq in E4. simpl. split.
  - intros [x H]. discriminate H.
  - intros [H | [H | [H | [H | [H | []]]]]]; try discriminate H;
      symmetry in H; contradiction.
Qed.

(** X6.  Constructing the aggregator succeeds exactly when no SQLite
    configuration is given, or the one given has a dimension that is not
    at most zero (greater than zero, or [NaN]) and a metric that is absent,
    empty or one of the four names: only the SQLite adapter can make it
    fail. *)
Theorem aggregator_constructor_succeeds_iff :
  forall config,
    (exists a, VectorSmithAdapter.constructor config = Ok a)
    <-> (forall c,
           VectorSmithAdapter.sqlite_config config = Some c ->
           number_leb (SqliteAdapter.vectorDimension c) zero = false
           /\ (SqliteAdapter.vectorDimension c = NaN
               \/ number_ltb zero (SqliteAdapter.vectorDimension c) = true)
           /\ supported_metric (SqliteAdapter.distanceMetric_ c)).
Proof.
  intros config. unfold VectorSmithAdapter.constructor.
  destruct (VectorSmithAdapter.sqlite_config config) as [c |].
  2: { split; [intros _ c H; discriminate H | intros _; eauto]. }
  unfold SqliteAdapter.constructor.
  destruct (number_leb (SqliteAdapter.vectorDimension c) zero) eqn:E.
  - split.
    + intros [a H]. discriminate H.
    + intros H. destruct (H c eq_refl) as [Hd _]. congruence.
  - pose proof (sqlite_mapDistanceMetric_supported
                  (SqliteAdapter.distanceMetric_ c)) as Hm.
    destruct (SqliteAdapter.mapDistanceMetric (SqliteAdapter.distanceMetric_ c))
      as [m | e].
    + split; [| intros _; eauto].
      intros _ c' [= <-]. split; [exact E |].
      split; [apply number_not_at_most_zero; exact E | apply Hm; eauto].
    + split.
      * intros [a H]. discriminate H.
      * intros H. destruct (H c eq_refl) as [_ [_ Hs]].
        apply Hm in Hs. destruct Hs as [m Hs]. discriminate Hs.
Qed.

(** X6 at the configuration of Redis and pgvector. *)
Lemma aggregator_constructor_witness :
  exists a, VectorSmithAdapter.constructor redis_and_pgvector = Ok a.
Proof.
  apply (proj2 (aggregator_constructor_succeeds_iff redis_and_pgvector)).
  intros c H. discriminate H.
Defined.

(** ** Identifiers *)

Lemma read_delimited_double_quotes s :
  read_delimited (double_quotes s +++ dquote) = Some s.
Proof.
  induction s as [| c s IH]; [reflexivity |].
  cbn [double_quotes].
  destruct (Ascii.eqb c (ascii_of_nat 34)) eqn:E.
  - cbn [String.append read_delimited]. rewrite E.
    rewrite IH. reflexivity.
  - cbn [String.append read_delimited]. rewrite E.
    rewrite IH. reflexivity.
Qed.

(** X7.  The text [escapeIdentifier] makes of a name is read by SQL as one
    delimited identifier, that name: no quote in the name ends the
    identifier early.  Different names give different texts. *)
Theorem escapeIdentifier_reads_back :
  forall identifier,
    read_identifier (escapeIdentifier identifier) = Some identifier
    /\ forall other,
         escapeIdentifier identifier = escapeIdentifier other ->
         identifier = other.
Proof.
  assert (H : forall s, read_identifier (escapeIdentifier s) = Some s).
  { intros s. unfold escapeIdentifier, dquote. cbn [String.append].
    unfold read_identifier. rewrite Ascii.eqb_refl.
    apply read_delimited_double_quotes. }
  intros identifier. split; [apply H |].
  intros other E. pose proof (H identifier) as H1. rewrite E, H in H1.
  congruence.
Qed.

(** ** The SQLite adapter's metric and searches *)

(** X8.  [mapDistanceMetric] answers one of the names [cosine], [l2] and
    [dot], and maps each of them to itself; so the metric an adapter stores
    and hands to [vector_init] is one of the three. *)
Theorem mapDistanceMetric_normal_form :
  forall metric m,
    SqliteAdapter.mapDistanceMetric metric = Ok m ->
    In m ["cosine"; "l2"; "dot"]
    /\ SqliteAdapter.mapDistanceMetric (Some m) = Ok m
    /\ forall config a,
         SqliteAdapter.distanceMetric_ config = metric ->
         SqliteAdapter.constructor config = Ok a ->
         SqliteAdapter.distanceMetric a = m.
Proof.
  intros metric m H.
  assert (Hin : In m ["cosine"; "l2"; "dot"]).
  { revert H. unfold SqliteAdapter.mapDistanceMetric.
    destruct (negb (truthy_string metric)); [intros [= <-]; simpl; tauto |].
    set (x := or_else metric EmptyString).
    destruct (String.eqb x "inner_product");
      [intros [= <-]; simpl; tauto |].
    destruct (String.eqb x "cosine") eqn:E2;
      [apply String.eqb_eq in E2; intros [= <-]; rewrite E2; simpl; tauto |].
    destruct (String.eqb x "l2") eqn:E3;
      [apply String.eqb_eq in E3; intros [= <-]; rewrite E3; simpl; tauto |].
    destruct (String.eqb x "dot") eqn:E4;
      [apply String.eqb_eq in E4; intros [= <-]; rewrite E4; simpl; tauto |].
    discriminate. }
  split; [exact Hin |]. split.
  - destruct Hin as [<- | [<- | [<- | []]]]; reflexivity.
  - intros config a Hm Hc. unfold SqliteAdapter.constructor in Hc.
    destruct (number_leb _ zero); [discriminate |].
    rewrite Hm, H in Hc. injection Hc as <-. reflexivity.
Qed.

(** X8 at the name [inner_product]. *)
Lemma mapDistanceMetric_normal_form_witness :
  SqliteAdapter.mapDistanceMetric (Some "dot") = Ok "dot".
Proof.
  apply (proj1 (proj2 (@mapDistanceMetric_normal_form
                         (Some "inner_product") "dot" eq_refl))).
Defined.

Lemma sqlite_ensureDimension_run w a t v :
  SqliteAdapter.ensureDimension v w a t
  = if is_length (SqliteAdapter.vectorDimension (SqliteAdapter.config a))
                 (List.length v)
    then (Ok tt, a, t)
    else (Err (DimensionMismatch
                 (SqliteAdapter.vectorDimension (SqliteAdapter.config a))
                 (List.length v)), a, t).
Proof.
  unfold SqliteAdapter.ensureDimension, bind, get.
  destruct (is_length _ _); reflexivity.
Qed.

Lemma sqlite_assertDistanceMetric_run w a t metric :
  SqliteAdapter.assertDistanceMetric metric w a t
  = match SqliteAdapter.mapDistanceMetric metric with
    | Err e => (Err e, a, t)
    | Ok normalized =>
        if String.eqb normalized (SqliteAdapter.distanceMetric a)
        then (Ok tt, a, t)
        else (Err (DistanceMetricMismatch (SqliteAdapter.distanceMetric a)
                                          normalized), a, t)
    end.
Proof.
  unfold SqliteAdapter.assertDistanceMetric, SqliteAdapter.lift, bind, get.
  destruct (SqliteAdapter.mapDistanceMetric metric) as [m | e];
    [| reflexivity].
  simpl. destruct (String.eqb _ _); reflexivity.
Qed.

(** A method that starts with a driver call shows it in the trace. *)
Lemma invoke_first {S B : Type} (c : call) (k : reply c -> M S B) w s t :
  (forall u, extends (k u)) ->
  exists rest, trace_of (bind (invoke c) k w s t) = t ++ c :: rest.
Proof.
  intros E. unfold bind, invoke.
  destruct (driver w t c) as [u | e].
  - destruct (E u w s (t ++ [c])) as [rest H].
    exists rest. rewrite H. rewrite <- app_assoc. reflexivity.
  - exists []. reflexivity.
Qed.

(** The checks of [searchSimilar], in their order. *)
Lemma sqlite_searchSimilar_checks w a t name q limit metric :
  SqliteAdapter.isConnected a = true ->
  let run := SqliteAdapter.searchSimilar name q limit metric w a t in
  (is_length (SqliteAdapter.vectorDimension (SqliteAdapter.config a))
             (List.length q) = false ->
   run = (Err (DimensionMismatch
                 (SqliteAdapter.vectorDimension (SqliteAdapter.config a))
                 (List.length q)), a, t))
  /\ (is_length (SqliteAdapter.vectorDimension (SqliteAdapter.config a))
                (List.length q) = true ->
      forall e,
        SqliteAdapter.assertDistanceMetric (sqlite_requested_metric a metric)
                                           w a t = (Err e, a, t) ->
        run = (Err e, a, t))
  /\ (is_length (SqliteAdapter.vectorDimension (SqliteAdapter.config a))
                (List.length q) = true ->
      SqliteAdapter.assertDistanceMetric (sqlite_requested_metric a metric)
                                         w a t = (Ok tt, a, t) ->
      SqliteAdapter.vectorType a = "FLOAT32" ->
      exists rest,
        trace_of run
        = t ++ SqlitePrepare
                 (SqSearch (escapeIdentifier name) "embedding"
                           "vector_as_f32(@queryVector)") :: rest).
Proof.
  intros Hc run. unfold run, SqliteAdapter.searchSimilar.
  erewrite bind_returns by reflexivity. cbv zeta.
  erewrite bind_returns by (apply sqlite_ensureConnected_passes; exact Hc).
  fold (sqlite_requested_metric a metric).
  repeat split.
  - intros Hd. apply bind_throws. rewrite sqlite_ensureDimension_run.
    rewrite Hd. reflexivity.
  - intros Hd e He.
    erewrite bind_returns
      by (rewrite sqlite_ensureDimension_run, Hd; reflexivity).
    apply bind_throws. exact He.
  - intros Hd Hm Ht.
    erewrite bind_returns
      by (rewrite sqlite_ensureDimension_run, Hd; reflexivity).
    erewrite bind_returns by exact Hm.
    erewrite bind_returns
      by (rewrite sqlite_wrapVectorFunction_run, Ht; reflexivity).
    apply invoke_first. intros u.
    apply extends_bind; [apply sqlite_serializeVector_extends |].
    intros blob. apply extends_bind; [apply extends_invoke |].
    intros rows. apply sqlite_map_rows_extends.
Qed.

(** X9.  [SqliteAdapter.searchSimilar] on a connected adapter fails before
    any call to the database, and leaves the adapter as it is, when the
    query's length is not the configured dimension (dimension-mismatch
    error) and, the length being right, when the requested metric is not
    supported or normalises to another name than the stored one (mismatch
    error naming both). *)
Theorem sqlite_searchSimilar_fails_fast :
  forall w a t name q limit metric,
    SqliteAdapter.isConnected a = true ->
    let run := SqliteAdapter.searchSimilar name q limit metric w a t in
    let dimension := SqliteAdapter.vectorDimension (SqliteAdapter.config a) in
    (is_length dimension (List.length q) = false ->
     run = (Err (DimensionMismatch dimension (List.length q)), a, t))
    /\ (is_length dimension (List.length q) = true ->
        forall normalized,
          SqliteAdapter.mapDistanceMetric (sqlite_requested_metric a metric)
          = Ok normalized ->
          normalized <> SqliteAdapter.distanceMetric a ->
          run = (Err (DistanceMetricMismatch (SqliteAdapter.distanceMetric a)
                                             normalized), a, t))
    /\ (is_length dimension (List.length q) = true ->
        forall e,
          SqliteAdapter.mapDistanceMetric (sqlite_requested_metric a metric)
          = Err e ->
          run = (Err e, a, t)).
Proof.
  intros w a t name q limit metric Hc run dimension.
  destruct (@sqlite_searchSimilar_checks w a t name q limit metric Hc)
    as [H1 [H2 _]].
  repeat split.
  - exact H1.
  - intros Hd normalized Hm Hneq. apply H2; [exact Hd |].
    rewrite sqlite_assertDistanceMetric_run, Hm.
    apply String.eqb_neq in Hneq. rewrite Hneq. reflexivity.
  - intros Hd e Hm. apply H2; [exact Hd |].
    rewrite sqlite_assertDistanceMetric_run, Hm. reflexivity.
Qed.

(** X9 at the connected cosine adapter of three dimensions: a query of two
    entries, and a search asking for [l2]. *)
Lemma sqlite_searchSimilar_fails_fast_witness :
  SqliteAdapter.searchSimilar "items" [1%Q; 2%Q] None None quiet_world
                              sqlite_three_dimensions []
  = (Err (DimensionMismatch (Finite 3%Q) 2), sqlite_three_dimensions, [])
  /\ SqliteAdapter.searchSimilar "items" [1%Q; 2%Q; 3%Q] None (Some "l2")
                                 quiet_world sqlite_three_dimensions []
     = (Err (DistanceMetricMismatch "cosine" "l2"), sqlite_three_dimensions,
        []).
Proof.
  split.
  - apply (proj1 (@sqlite_searchSimilar_fails_fast
                    quiet_world sqlite_three_dimensions [] "items"
                    [1%Q; 2%Q] None None eq_refl)).
    reflexivity.
  - apply (proj1 (proj2 (@sqlite_searchSimilar_fails_fast
                           quiet_world sqlite_three_dimensions [] "items"
                           [1%Q; 2%Q; 3%Q] None (Some "l2") eq_refl))
                 eq_refl "l2" eq_refl).
    discriminate.
Defined.

(** X10.  A search that names no metric asks for the configured one: on an
    adapter as constructed, connected or not, its metric check passes; and
    on the connected adapter, with a query of the configured dimension and
    the FLOAT32 vector type, the search goes on to prepare its statement on
    the database. *)
Theorem sqlite_searchSimilar_default_metric :
  forall config a,
    SqliteAdapter.constructor config = Ok a ->
    forall handle w t name q limit,
      let s := SqliteAdapter.mk handle (SqliteAdapter.config a)
                                (SqliteAdapter.vectorType a)
                                (SqliteAdapter.distanceMetric a) in
      SqliteAdapter.assertDistanceMetric (sqlite_requested_metric s None) w s t
      = (Ok tt, s, t)
      /\ (handle = Some tt ->
          is_length (SqliteAdapter.vectorDimension config) (List.length q)
          = true ->
          SqliteAdapter.vectorType a = "FLOAT32" ->
          exists rest,
            trace_of (SqliteAdapter.searchSimilar name q limit None w s t)
            = t ++ SqlitePrepare
                     (SqSearch (escapeIdentifier name) "embedding"
                               "vector_as_f32(@queryVector)") :: rest).
Proof.
  intros config a Hc handle w t name q limit s.
  unfold SqliteAdapter.constructor in Hc.
  destruct (number_leb _ zero); [discriminate |].
  destruct (SqliteAdapter.mapDistanceMetric (SqliteAdapter.distanceMetric_ config))
    as [m | e] eqn:Hm; [| discriminate].
  injection Hc as <-. simpl in s.
  assert (Hpass : SqliteAdapter.assertDistanceMetric
                    (sqlite_requested_metric s None) w s t = (Ok tt, s, t)).
  { rewrite sqlite_assertDistanceMetric_run.
    unfold sqlite_requested_metric. simpl.
    assert (Hd : SqliteAdapter.mapDistanceMetric
                   (Some (or_else (SqliteAdapter.distanceMetric_ config)
                                  "cosine")) = Ok m).
    { destruct (SqliteAdapter.distanceMetric_ config) as [x |];
        [exact Hm | simpl in Hm |- *; exact Hm]. }
    rewrite Hd, String.eqb_refl. reflexivity. }
  split; [exact Hpass |].
  intros -> Hdim Htype.
  apply (proj2 (proj2 (@sqlite_searchSimilar_checks w s t name q limit None
                         eq_refl)));
    [exact Hdim | exact Hpass | exact Htype].
Qed.

(** X10 at the connected cosine adapter of three dimensions. *)
Lemma sqlite_searchSimilar_default_metric_witness :
  SqliteAdapter.assertDistanceMetric
    (sqlite_requested_metric sqlite_three_dimensions None) quiet_world
    sqlite_three_dimensions []
  = (Ok tt, sqlite_three_dimensions, []).
Proof.
  apply (proj1 (@sqlite_searchSimilar_default_metric
                  (SqliteAdapter.config sqlite_three_dimensions)
                  (SqliteAdapter.mk None
                     (SqliteAdapter.config sqlite_three_dimensions)
                     "FLOAT32" "cosine")
                  eq_refl (Some tt) quiet_world [] "items" [] None)).
Defined.

(** X11.  [SqliteAdapter.upsertVector], on a connected adapter and a
    vector whose length is not the configured dimension, fails, leaves the
    adapter as it is and never executes its statement: no row is inserted
    or updated.  With the FLOAT32 vector type and the statement prepared,
    the failure is the dimension-mismatch error. *)
Theorem sqlite_upsertVector_dimension_mismatch :
  forall w a t name id v metadata,
    SqliteAdapter.isConnected a = true ->
    is_length (SqliteAdapter.vectorDimension (SqliteAdapter.config a))
              (List.length v) = false ->
    let statement :=
      SqUpsert (escapeIdentifier name) "embedding"
               "vector_as_f32(@embedding)" in
    let run := SqliteAdapter.upsertVector name id v metadata w a t in
    (exists e, result_of run = Err e)
    /\ state_of run = a
    /\ (forall s p, ~ In (SqliteStatementRun s p) (issued t run))
    /\ (SqliteAdapter.vectorType a = "FLOAT32" ->
        driver w t (SqlitePrepare statement) = Ok tt ->
        result_of run
        = Err (DimensionMismatch
                 (SqliteAdapter.vectorDimension (SqliteAdapter.config a))
                 (List.length v))).
Proof.
  intros w a t name id v metadata Hc Hd statement run.
  unfold run, SqliteAdapter.upsertVector.
  erewrite bind_returns by (apply sqlite_ensureConnected_passes; exact Hc).
  cbv zeta.
  destruct (String.eqb (SqliteAdapter.vectorType a) "FLOAT32") eqn:Ht.
  - erewrite bind_returns
      by (rewrite sqlite_wrapVectorFunction_run, Ht; reflexivity).
    change (SqUpsert (escapeIdentifier name) SqliteAdapter.vectorColumnName
                     ("vector_as_f32(" +++ "@embedding" +++ ")"))
      with statement.
    destruct (driver w t (SqlitePrepare statement)) as [[] | e] eqn:D.
    + erewrite bind_returns by (unfold invoke; rewrite D; reflexivity).
      erewrite bind_throws by (apply sqlite_serializeVector_mismatch; exact Hd).
      unfold result_of, state_of. simpl. repeat split; eauto.
      intros s p. rewrite issued_app. simpl. intros [H | []]. discriminate H.
    + erewrite bind_throws by (unfold invoke; rewrite D; reflexivity).
      unfold result_of, state_of. simpl. repeat split; eauto.
      * intros s p. rewrite issued_app. simpl. intros [H | []].
        discriminate H.
      * intros _ H. discriminate H.
  - erewrite bind_throws
      by (rewrite sqlite_wrapVectorFunction_run, Ht; reflexivity).
    unfold result_of, state_of. simpl. repeat split; eauto.
    + intros s p. rewrite issued_nil. auto.
    + intros H. apply String.eqb_neq in Ht. contradiction.
Qed.

(** X11 at the connected adapter of three dimensions and a vector of two
    entries. *)
Lemma sqlite_upsertVector_witness :
  result_of (SqliteAdapter.upsertVector "items" 7 [1%Q; 2%Q] None quiet_world
               sqlite_three_dimensions [])
  = Err (DimensionMismatch (Finite 3%Q) 2).
Proof.
  refine (proj2 (proj2 (proj2
            (@sqlite_upsertVector_dimension_mismatch
               quiet_world sqlite_three_dimensions [] "items" 7%Z
               [1%Q; 2%Q] None eq_refl eq_refl)))
            eq_refl eq_refl).
Defined.

(** X12.  [SqliteAdapter.dropTable] on a connected adapter always goes on
    to DROP TABLE: whether the quantization cleanup succeeds or throws (at
    its preparation or its execution), the last call is the DROP of the
    escaped table, its answer is the result, and the adapter is left as it
    is. *)
Theorem sqlite_dropTable_ignores_cleanup_errors :
  forall w a t name,
    SqliteAdapter.isConnected a = true ->
    let run := SqliteAdapter.dropTable name w a t in
    let drop := SqliteExec (SqDropTable (escapeIdentifier name)) in
    exists cleanup,
      (cleanup = [SqlitePrepare SqQuantizeCleanup]
       \/ cleanup = [SqlitePrepare SqQuantizeCleanup;
                     SqliteStatementGet SqQuantizeCleanup
                       (BindCleanup name "embedding")])
      /\ issued t run = cleanup ++ [drop]
      /\ result_of run = driver w (t ++ cleanup) drop
      /\ state_of run = a.
Proof.
  intros w a t name Hc run drop.
  unfold run, SqliteAdapter.dropTable.
  erewrite bind_returns by (apply sqlite_ensureConnected_passes; exact Hc).
  cbv zeta. unfold try_catch, bind, invoke, ret, result_of, state_of.
  fold drop.
  destruct (driver w t (SqlitePrepare SqQuantizeCleanup)) as [u | e]; simpl.
  - exists [SqlitePrepare SqQuantizeCleanup;
            SqliteStatementGet SqQuantizeCleanup
              (BindCleanup name "embedding")].
    split; [right; reflexivity |].
    destruct (driver w (t ++ [SqlitePrepare SqQuantizeCleanup])
                (SqliteStatementGet SqQuantizeCleanup
                   (BindCleanup name SqliteAdapter.vectorColumnName)))
      as [u' | e']; simpl; rewrite <- !app_assoc; simpl;
      (split; [apply issued_app | split; reflexivity]).
  - exists [SqlitePrepare SqQuantizeCleanup].
    split; [left; reflexivity |].
    rewrite <- !app_assoc; simpl.
    split; [apply issued_app | split; reflexivity].
Qed.

(** X12 at the connected adapter, in a world whose cleanup throws. *)
Lemma sqlite_dropTable_witness :
  result_of (SqliteAdapter.dropTable "items" never_quantized
               sqlite_three_dimensions []) = Ok tt
  /\ exists cleanup,
       issued [] (SqliteAdapter.dropTable "items" never_quantized
                    sqlite_three_dimensions [])
       = cleanup ++ [SqliteExec (SqDropTable (escapeIdentifier "items"))].
Proof.
  split; [reflexivity |].
  destruct (@sqlite_dropTable_ignores_cleanup_errors
              never_quantized sqlite_three_dimensions [] "items" eq_refl)
    as [cleanup [_ [H _]]].
  exists cleanup. exact H.
Defined.

(** ** The pgvector adapter's client *)

(** What a pgvector data operation sends between taking a client from the
    pool and releasing it. *)
Lemma pgvector_with_client {A : Type} w a t statement
      (k : pg_result -> M PgVectorAdapter.t A) :
  PgVectorAdapter.isConnected a = true ->
  (forall r, forall w' s' t', trace_of (k r w' s' t') = t') ->
  let run :=
    (PgVectorAdapter.ensureConnected ;;
     invoke PgPoolConnect ;;
     try_finally (result <- invoke (PgClientQuery statement) ;; k result)
                 (invoke PgClientRelease)) w a t in
  (driver w t PgPoolConnect = Ok tt ->
   issued t run = [PgPoolConnect; PgClientQuery statement; PgClientRelease])
  /\ (forall e, driver w t PgPoolConnect = Err e ->
                run = (Err e, a, t ++ [PgPoolConnect])).
Proof.
  intros Hc Hk run. unfold run, PgVectorAdapter.ensureConnected.
  unfold PgVectorAdapter.isConnected in Hc.
  unfold try_finally, bind, get, invoke.
  destruct (PgVectorAdapter.pool a); [| discriminate]. simpl. split.
  - intros ->. simpl.
    destruct (driver w (t ++ [PgPoolConnect]) (PgClientQuery statement))
      as [r | e]; simpl.
    + pose proof (Hk r w a ((t ++ [PgPoolConnect])
                              ++ [PgClientQuery statement])) as H.
      unfold trace_of in H.
      destruct (k r w a _) as [[x s'] t']. simpl in H. subst t'.
      destruct (driver w _ PgClientRelease); simpl;
        rewrite <- !app_assoc; apply issued_app.
    + destruct (driver w _ PgClientRelease); simpl;
        rewrite <- !app_assoc; apply issued_app.
  - intros e ->. reflexivity.
Qed.

Lemma bind_ret {S A B : Type} (a : A) (k : A -> M S B) :
  bind (ret a) k = k a.
Proof. reflexivity. Qed.

(** X13.  Every data operation of the pgvector adapter, on a connected
    adapter, takes one client from the pool, sends one statement and
    releases the client, whatever the server answers to the statement; when
    no client can be had it fails with the pool's error, having sent and
    released nothing.  One case sends no statement: [insertVector] with
    metadata that [JSON.stringify] refuses takes the client and releases
    it. *)
Theorem pgvector_operations_release_the_client :
  forall w a t,
    PgVectorAdapter.isConnected a = true ->
    let round {A : Type} (run : result A * PgVectorAdapter.t * trace)
              (statement : pg_statement) :=
      (driver w t PgPoolConnect = Ok tt ->
       issued t run
       = [PgPoolConnect; PgClientQuery statement; PgClientRelease])
      /\ (forall e, driver w t PgPoolConnect = Err e ->
                    run = (Err e, a, t ++ [PgPoolConnect])) in
    (forall name dimension,
       round (PgVectorAdapter.createTable name dimension w a t)
             (PgCreateTable (escapeIdentifier name) dimension))
    /\ (forall name v metadata serialized,
          stringify_metadata metadata = Ok serialized ->
          round (PgVectorAdapter.insertVector name v metadata w a t)
                (PgInsert (escapeIdentifier name) v serialized))
    /\ (forall name v metadata refusal,
          stringify_metadata metadata = Err refusal ->
          let run := PgVectorAdapter.insertVector name v metadata w a t in
          (driver w t PgPoolConnect = Ok tt ->
           issued t run = [PgPoolConnect; PgClientRelease]
           /\ exists e, result_of run = Err e)
          /\ (forall e, driver w t PgPoolConnect = Err e ->
                        run = (Err e, a, t ++ [PgPoolConnect])))
    /\ (forall name q limit f,
          round (PgVectorAdapter.searchSimilar name q limit f w a t)
                (PgSelectSimilar (escapeIdentifier name)
                   (PgVectorAdapter.distanceExpr
                      (or_else f PgVectorAdapter.cosine))
                   (Distance OpL2) q (or_else limit 10%Z)))
    /\ (forall name id,
          round (PgVectorAdapter.deleteVector name id w a t)
                (PgDelete (escapeIdentifier name) id))
    /\ (forall name,
          round (PgVectorAdapter.dropTable name w a t)
                (PgDropTable (escapeIdentifier name))).
Proof.
  intros w a t Hc round. unfold round.
  split; [| split; [| split; [| split; [| split]]]].
  - intros name dimension.
    apply (@pgvector_with_client unit w a t _ (fun _ => ret tt) Hc).
    reflexivity.
  - intros name v metadata serialized Hs.
    unfold PgVectorAdapter.insertVector.
    rewrite Hs. unfold lift_result. rewrite bind_ret.
    apply (@pgvector_with_client Z w a t _
             (fun result =>
                match pg_rows result with
                | row :: _ => ret (pg_id row)
                | [] => throw (Thrown "TypeError"
                                 "Cannot read properties of undefined (reading 'id')")
                end) Hc).
    intros r w' s' t'. destruct (pg_rows r); reflexivity.
  - intros name v metadata refusal Hs.
    set (run := PgVectorAdapter.insertVector name v metadata w a t). split.
    + intros Hp.
      pose proof (@pgvector_insertVector_run w a t name v metadata Hc Hp)
        as Ht.
      fold run in Ht. rewrite Hs in Ht. split.
      * destruct run as [[r s] t'].
        unfold trace_of in Ht. simpl in Ht. subst t'. apply issued_app.
      * unfold run, PgVectorAdapter.insertVector,
          PgVectorAdapter.ensureConnected, try_finally, bind, get, invoke,
          lift_result, throw, result_of.
        unfold PgVectorAdapter.isConnected in Hc.
        destruct (PgVectorAdapter.pool a); [| discriminate]. simpl.
        rewrite Hp, Hs. simpl.
        destruct (driver w _ PgClientRelease); simpl; eexists; reflexivity.
    + intros e Hp.
      unfold run, PgVectorAdapter.insertVector,
        PgVectorAdapter.ensureConnected, bind, get, invoke.
      unfold PgVectorAdapter.isConnected in Hc.
      destruct (PgVectorAdapter.pool a); [| discriminate]. simpl.
      rewrite Hp. reflexivity.
  - intros name q limit f.
    apply (@pgvector_with_client _ w a t _
             (fun result =>
                ret (map (fun row =>
                            PgVectorAdapter.mkSearchResult
                              (pg_id row) (pg_embedding row)
                              (pg_metadata row) (pg_distance row))
                         (pg_rows result))) Hc).
    reflexivity.
  - intros name id.
    apply (@pgvector_with_client bool w a t _
             (fun result => ret (Z.ltb 0 (or_else (pg_rowCount result) 0%Z)))
             Hc).
    reflexivity.
  - intros name.
    apply (@pgvector_with_client unit w a t _ (fun _ => ret tt) Hc).
    reflexivity.
Qed.

(** X13 at the connected adapter, a delete whose statement the quiet world
    answers. *)
Lemma pgvector_operations_release_witness :
  issued [] (PgVectorAdapter.deleteVector "items" 7 quiet_world
               pgvector_connected [])
  = [PgPoolConnect; PgClientQuery (PgDelete (escapeIdentifier "items") 7);
     PgClientRelease].
Proof.
  apply (proj1 (proj1 (proj2 (proj2 (proj2 (proj2
           (@pgvector_operations_release_the_client
              quiet_world pgvector_connected [] eq_refl))))) "items" 7%Z)).
  reflexivity.
Defined.

(** ** What a failed connect leaves behind *)

Lemma sqlite_connect_opened w a t u :
  SqliteAdapter.isConnected a = false ->
  driver w t (SqliteOpen (SqliteAdapter.databasePath (SqliteAdapter.config a)))
  = Ok u ->
  state_of (SqliteAdapter.connect w a t)
  = SqliteAdapter.mk (Some tt) (SqliteAdapter.config a)
                     (SqliteAdapter.vectorType a)
                     (SqliteAdapter.distanceMetric a).
Proof.
  intros Hc D. unfold SqliteAdapter.connect, SqliteAdapter.isConnected in *.
  erewrite bind_returns by reflexivity.
  destruct (SqliteAdapter.database a) as [h |]; [discriminate |].
  erewrite bind_returns by (unfold invoke; rewrite D; reflexivity).
  erewrite bind_returns by reflexivity.
  pose proof sqlite_applyPragmas_readonly.
  pose proof sqlite_loadSqliteVectorExtension_readonly.
  pose proof sqlite_loadAdditionalExtensions_readonly.
  pose proof sqlite_createTable_readonly.
  match goal with
  | |- state_of (?m w ?s ?t') = _ =>
      assert (R : readonly m) by readonly_walk; apply R
  end.
Qed.

(** X14.  The pgvector and the SQLite adapter keep their handle from the
    moment it is created: after [connect] on an adapter that was not
    connected, [isConnected()] is false only when creating the pool (or
    opening the database file) itself threw, in which case that is the one
    call made.  A [connect] that fails later, at the verification or at
    loading the extension, leaves the adapter reporting connected. *)
Theorem connect_keeps_the_handle_it_created :
  forall w t,
    (forall a,
       PgVectorAdapter.isConnected a = false ->
       let run := PgVectorAdapter.connect w a t in
       let create := PgNewPool (pg_connection_of (PgVectorAdapter.config a)) in
       (PgVectorAdapter.isConnected (state_of run) = false
        <-> exists e, driver w t create = Err e)
       /\ (forall e, driver w t create = Err e ->
                     run = (Err e, a, t ++ [create])))
    /\ (forall a,
          SqliteAdapter.isConnected a = false ->
          let run := SqliteAdapter.connect w a t in
          let open :=
            SqliteOpen (SqliteAdapter.databasePath (SqliteAdapter.config a)) in
          (SqliteAdapter.isConnected (state_of run) = false
           <-> exists e, driver w t open = Err e)
          /\ (forall e, driver w t open = Err e ->
                        run = (Err e, a, t ++ [open]))).
Proof.
  intros w t. split; intros a Hc run create.
  - unfold run, create, pg_connection_of, PgVectorAdapter.connect,
      PgVectorAdapter.isConnected, PgVectorAdapter.ensurePgVectorExtension,
      try_finally, bind, get, put, invoke, ret, state_of in *.
    destruct (PgVectorAdapter.pool a) eqn:P; [discriminate |]. simpl.
    match goal with
    | |- context [driver w t ?c] => destruct (driver w t c) as [u | e]
    end; simpl.
    + split; [| intros e H; discriminate H].
      answer; split; try discriminate; intros [e H]; discriminate H.
    + split; [| intros e' [= <-]; reflexivity].
      rewrite P. split; eauto.
  - assert (Hrun : forall e, driver w t create = Err e ->
                             run = (Err e, a, t ++ [create])).
    { intros e D. unfold run, SqliteAdapter.connect.
      unfold SqliteAdapter.isConnected in Hc.
      erewrite bind_returns by reflexivity.
      destruct (SqliteAdapter.database a); [discriminate |].
      apply bind_throws. unfold invoke. fold create. rewrite D. reflexivity. }
    split; [| exact Hrun]. split.
    + intros H.
      destruct (driver w t create) as [u | e] eqn:D; [| eauto].
      unfold run in H. rewrite (@sqlite_connect_opened w a t u Hc D) in H.
      discriminate H.
    + intros [e D]. rewrite (Hrun e D). exact Hc.
Qed.

(** X14 at a fresh pgvector adapter whose pool cannot be created; and
    where only the server is unreachable, the failed connect leaves the
    adapter reporting connected. *)
Lemma connect_keeps_the_handle_witness :
  let a := PgVectorAdapter.constructor
             (PgVectorAdapter.mkConfig None None None None None None None) in
  PgVectorAdapter.connect pool_refused a []
  = (Err (Thrown "TypeError" "invalid connection"), a,
     [] ++ [PgNewPool (pg_connection_of (PgVectorAdapter.config a))]).
Proof.
  intros a.
  apply (proj2 (proj1 (connect_keeps_the_handle_it_created pool_refused [])
                      a eq_refl)).
  reflexivity.
Defined.

Example pgvector_connected_after_failed_connect :
  let run := PgVectorAdapter.connect postgres_unreachable
               (PgVectorAdapter.constructor
                  (PgVectorAdapter.mkConfig None None None None None None None))
               [] in
  result_of run = Err (Thrown "Error" "connect ECONNREFUSED")
  /\ PgVectorAdapter.isConnected (state_of run) = true.
Proof. split; reflexivity. Qed.

Lemma extends_put {S : Type} (s : S) : extends (put s).
Proof. apply extends_silent. reflexivity. Qed.

(** X15.  On the Qdrant adapter, after [connect] on an adapter that was
    not connected, [isConnected()] is true exactly when [connect]
    resolved; after a failed [connect] the next one starts over by
    creating a new client. *)
Theorem qdrant_connected_iff_connect_resolved :
  forall w a t,
    QdrantAdapter.isConnected a = false ->
    let run := QdrantAdapter.connect w a t in
    (result_of run = Ok tt
     <-> QdrantAdapter.isConnected (state_of run) = true)
    /\ (QdrantAdapter.isConnected (state_of run) = false ->
        forall w' t',
          exists rest,
            trace_of (QdrantAdapter.connect w' (state_of run) t')
            = t' ++ QdrantNewClient
                      (QdrantAdapter.resolveUrl w' a)
                      (QdrantAdapter.resolveApiKey w' a)
                      (or_else (QdrantAdapter.timeoutMs
                                  (QdrantAdapter.config a)) 10000%Z)
                 :: rest).
Proof.
  intros w a t Hc run.
  assert (Hconfig : QdrantAdapter.config (state_of run)
                    = QdrantAdapter.config a).
  { unfold run, QdrantAdapter.connect, QdrantAdapter.isConnected, bind, get,
      put, ask, invoke, ret, state_of in *.
    rewrite Hc. simpl. answer; reflexivity. }
  split.
  - unfold run, QdrantAdapter.connect, QdrantAdapter.isConnected, bind, get,
      put, ask, invoke, ret, result_of, state_of in *.
    rewrite Hc. simpl.
    answer; split; intros H; try discriminate H; try reflexivity;
      congruence.
  - intros Hn w' t'.
    unfold QdrantAdapter.connect at 1.
    erewrite bind_returns by reflexivity.
    unfold QdrantAdapter.isConnected in Hn. rewrite Hn.
    erewrite bind_returns by reflexivity.
    unfold QdrantAdapter.resolveUrl, QdrantAdapter.resolveApiKey.
    rewrite Hconfig.
    apply invoke_first. intros u.
    apply extends_bind; [apply extends_put |]. intros _.
    apply extends_bind; [apply extends_invoke |]. intros _.
    apply extends_put.
Qed.

(** X15 at a fresh Qdrant adapter whose server is unreachable. *)
Lemma qdrant_connected_witness :
  let a := QdrantAdapter.constructor
             (QdrantAdapter.mkConfig None None None None None None) in
  let run := QdrantAdapter.connect qdrant_unreachable a [] in
  QdrantAdapter.isConnected (state_of run) = false
  /\ exists rest,
       trace_of (QdrantAdapter.connect quiet_world (state_of run) [])
       = [] ++ QdrantNewClient "http://localhost:6333" None 10000 :: rest.
Proof.
  intros a run. split; [reflexivity |].
  apply (proj2 (@qdrant_connected_iff_connect_resolved
                  qdrant_unreachable a [] eq_refl) eq_refl quiet_world []).
Defined.

(** ** The Qdrant URL *)

Lemma prefix_refl s : prefix s s = true.
Proof.
  induction s as [| c s IH]; [reflexivity |].
  simpl. destruct (ascii_dec c c); [exact IH | contradiction].
Qed.

Lemma includes_self s : includes s s = true.
Proof.
  destruct s; simpl; [reflexivity |].
  destruct (ascii_dec a a); [| contradiction].
  rewrite prefix_refl. reflexivity.
Qed.

Lemma includes_append a b : includes (a +++ b) b = true.
Proof.
  induction a as [| c a IH]; [apply includes_self |].
  cbn [String.append includes].
  destruct (prefix b (String c (a +++ b))); [reflexivity | exact IH].
Qed.

Lemma drop_final_slash_append s :
  drop_final_slash (s +++ "/") = s.
Proof.
  induction s as [| c s IH]; [reflexivity |].
  cbn [String.append]. destruct s as [| c' s]; [reflexivity |].
  cbn [String.append] in *. cbn [drop_final_slash].
  cbn [drop_final_slash] in IH. rewrite IH. reflexivity.
Qed.

(** X16.  [QdrantAdapter.resolveUrl]: a non-empty configured [url] is used
    as it is; otherwise, when a cluster id is known (configured, or from
    the environment) and not empty, the resolved URL contains it, appended
    after the endpoint less its final slash unless the endpoint contains it
    already. *)
Theorem qdrant_resolveUrl_names_the_cluster :
  forall w a,
    (forall u, QdrantAdapter.url (QdrantAdapter.config a) = Some u ->
               u <> EmptyString ->
               QdrantAdapter.resolveUrl w a = u)
    /\ (truthy_string (QdrantAdapter.url (QdrantAdapter.config a)) = false ->
        forall c, qdrant_clusterId w a = Some c -> c <> EmptyString ->
                  includes (QdrantAdapter.resolveUrl w a) c = true)
    /\ (truthy_string (QdrantAdapter.url (QdrantAdapter.config a)) = false ->
        forall c e,
          qdrant_clusterId w a = Some c -> c <> EmptyString ->
          QdrantAdapter.endpoint (QdrantAdapter.config a) = Some (e +++ "/") ->
          includes (e +++ "/") c = false ->
          QdrantAdapter.resolveUrl w a = e +++ "/" +++ c).
Proof.
  intros w a. unfold QdrantAdapter.resolveUrl, qdrant_clusterId.
  repeat split.
  - intros u -> Hu. destruct u; [contradiction | reflexivity].
  - intros -> c Hc Hne.
    rewrite Hc.
    assert (T : truthy_string (Some c) = true)
      by (destruct c; [contradiction | reflexivity]).
    rewrite T. simpl or_else. cbn [andb].
    match goal with
    | |- context [negb (includes ?e c)] =>
        destruct (includes e c) eqn:I; cbn [negb]
    end.
    + exact I.
    + match goal with
      | |- includes (?x +++ "/" +++ c) c = true =>
          replace (x +++ "/" +++ c) with ((x +++ "/") +++ c)
      end;
        [apply includes_append |].
      clear. generalize (drop_final_slash
        match QdrantAdapter.endpoint (QdrantAdapter.config a) with
        | Some e => e
        | None => or_else (env w "QDRANT_ENDPOINT") "http://localhost:6333"
        end). intros x.
      induction x as [| ch x IH]; [reflexivity |].
      cbn [String.append]. f_equal. exact IH.
  - intros -> c e Hc Hne He Hi.
    rewrite Hc, He. cbv beta iota zeta.
    assert (T : truthy_string (Some c) = true)
      by (destruct c; [contradiction | reflexivity]).
    cbn [or_else]. rewrite T, Hi. cbn [andb negb].
    rewrite drop_final_slash_append. reflexivity.
Qed.

(** ** Redis SET *)

(** X17.  [RedisAdapter.set] on a connected adapter sends one command:
    SETEX with the given seconds when a time to live is given that is
    neither zero nor [NaN], and a plain SET otherwise; a time to live of
    zero or of [NaN] is the same call as none, so the key is stored without
    expiry. *)
Theorem redis_set_uses_setex_for_nonzero_ttl :
  forall key value w a t,
    RedisAdapter.isConnected a = true ->
    (forall ttl, ttl <> NaN -> number_eqb ttl zero = false ->
       issued t (RedisAdapter.set key value (Some ttl) w a t)
       = [RedisSetEx key ttl value])
    /\ issued t (RedisAdapter.set key value None w a t) = [RedisSet key value]
    /\ (forall ttl, ttl = NaN \/ number_eqb ttl zero = true ->
          RedisAdapter.set key value (Some ttl) w a t
          = RedisAdapter.set key value None w a t).
Proof.
  intros key value w a t Hc.
  unfold RedisAdapter.set, RedisAdapter.ensureConnected, bind, get, invoke.
  unfold RedisAdapter.isConnected in Hc. rewrite Hc. simpl.
  split; [| split].
  - intros ttl Hnan Hne.
    destruct ttl as [| s | q]; [contradiction | |]; simpl in *;
      [| rewrite Hne; simpl]; apply issued_app.
  - apply issued_app.
  - intros ttl [-> | Hz]; [reflexivity |].
    destruct ttl as [| s | q]; [reflexivity | discriminate Hz |].
    simpl in *. rewrite Hz. reflexivity.
Qed.

(** X17 at a connected Redis adapter and sixty seconds. *)
Lemma redis_set_witness :
  issued [] (RedisAdapter.set "k" "v" (Some (Finite 60%Q)) quiet_world
               (RedisAdapter.mk (Some (RedisAdapter.mkClient true))
                  (RedisAdapter.mkConfig None None None None None)) [])
  = [RedisSetEx "k" (Finite 60%Q) "v"].
Proof.
  apply (proj1 (@redis_set_uses_setex_for_nonzero_ttl
                  "k" "v" quiet_world
                  (RedisAdapter.mk (Some (RedisAdapter.mkClient true))
                     (RedisAdapter.mkConfig None None None None None))
                  [] eq_refl)).
  - discriminate.
  - reflexivity.
Defined.

(** A time to live of [NaN] stores the key without expiry. *)
Example redis_set_NaN :
  issued [] (RedisAdapter.set "k" "v" (Some NaN) quiet_world
               (RedisAdapter.mk (Some (RedisAdapter.mkClient true))
                  (RedisAdapter.mkConfig None None None None None)) [])
  = [RedisSet "k" "v"].
Proof. reflexivity. Qed.

(** ** One request for a batch of texts *)

(** The run of [embed] on a batch that is not empty, by what the request
    is answered; the same for both providers. *)
Ltac embed_cases check_run :=
  match goal with
  | |- context [driver ?w ?t ?c] =>
      destruct (driver w t c) as [res | e]; simpl;
      [ destruct (res_ok res); simpl;
        [ destruct (res_json res) as [[| data] | e]; simpl;
          [ | destruct (embeddings data) as [vectors | e]; simpl;
              [ match goal with
                | |- context [match ?x with Some _ => _ | None => _ end] =>
                    destruct x as [expected |]; simpl;
                    [ match goal with
                      | |- context [?check expected ?vs ?w' ?p' ?t'] =>
                          let r := fresh "r" in
                          let H := fresh "H" in
                          destruct (check_run expected vs w' p' t')
                            as [r [H _]];
                          rewrite H; destruct r as [[] | e]; simpl
                      end
                    | ]
                end
              | ]
          | ]
        | ]
      | ]
  end;
  repeat match goal with
    | |- context [isAbortError ?e] => destruct (isAbortError e); simpl
    end.

(** X18.  [embed] of either provider sends no request for an empty batch,
    which it rejects, and exactly one request for any other batch, whatever
    comes back: there is no retry and no splitting.  The provider is left
    as it is. *)
Theorem embed_sends_one_request :
  forall w t texts,
    (forall p,
       let run := JinaAIEmbeddingProvider.embed texts w p t in
       state_of run = p
       /\ (texts = [] -> run = (Err EmptyTexts, p, t))
       /\ (texts <> [] ->
           issued t run
           = [Fetch (JinaAIEmbeddingProvider.baseUrl p +++ "/embeddings")
                    ("Bearer " +++ JinaAIEmbeddingProvider.apiKey p)
                    (JinaAIEmbeddingProvider.model p) texts]))
    /\ (forall p,
          let run := OpenAIEmbeddingProvider.embed texts w p t in
          state_of run = p
          /\ (texts = [] -> run = (Err EmptyTexts, p, t))
          /\ (texts <> [] ->
              issued t run
              = [Fetch (OpenAIEmbeddingProvider.baseUrl p +++ "/embeddings")
                       ("Bearer " +++ OpenAIEmbeddingProvider.apiKey p)
                       (OpenAIEmbeddingProvider.model p) texts])).
Proof.
  intros w t texts. split; intros p run; unfold run.
  - unfold JinaAIEmbeddingProvider.embed.
    destruct texts as [| text texts];
      [repeat split; intros; congruence |].
    change (Nat.eqb (List.length (text :: texts)) 0) with false. cbv iota.
    unfold try_catch, bind, get, invoke, lift_result, throw, ret, state_of.
    assert (forall A (r : result A) added,
               snd (fst (r, p, t ++ added)) = p
               /\ (text :: texts = [] -> (r, p, t ++ added) = (Err EmptyTexts, p, t))
               /\ (text :: texts <> [] -> issued t (r, p, t ++ added) = added))
      as Hshape.
    { intros A r added. repeat split; [discriminate |].
      intros _. apply issued_app. }
    embed_cases jina_check_dimensions_run; apply Hshape.
  - unfold OpenAIEmbeddingProvider.embed.
    destruct texts as [| text texts];
      [repeat split; intros; congruence |].
    change (Nat.eqb (List.length (text :: texts)) 0) with false. cbv iota.
    unfold try_catch, bind, get, invoke, lift_result, throw, ret, state_of.
    assert (forall A (r : result A) added,
               snd (fst (r, p, t ++ added)) = p
               /\ (text :: texts = [] -> (r, p, t ++ added) = (Err EmptyTexts, p, t))
               /\ (text :: texts <> [] -> issued t (r, p, t ++ added) = added))
      as Hshape.
    { intros A r added. repeat split; [discriminate |].
      intros _. apply issued_app. }
    embed_cases openai_check_dimensions_run; apply Hshape.
Qed.

(** X18 at the Jina provider and one text. *)
Lemma embed_sends_one_request_witness :
  issued [] (JinaAIEmbeddingProvider.embed ["hello world"] embeddings_of_three
               jina_896 [])
  = [Fetch "https://api.jina.ai/v1/embeddings" "Bearer key"
           "jina-code-embeddings-0.5b" ["hello world"]].
Proof.
  apply (proj2 (proj2 (proj1 (embed_sends_one_request
                                embeddings_of_three [] ["hello world"])
                             jina_896))).
  discriminate.
Defined.

(** ** How [embed] fails, and what it returns *)

(** X19.  The failures of [embed], for a batch that is not empty, in either
    provider: a request that throws the abort error fails with the
    timed-out error carrying the configured [timeoutMs], any other thrown
    error is passed on as it is; a response that is not a success fails
    with the status and the body text, or with the text "<no body>" when
    the body cannot be read; a success whose body has no [data] array fails
    with the unexpected-shape error. *)
Theorem embed_failures :
  forall w t texts,
    texts <> [] ->
    (forall p,
       let request :=
         Fetch (JinaAIEmbeddingProvider.baseUrl p +++ "/embeddings")
               ("Bearer " +++ JinaAIEmbeddingProvider.apiKey p)
               (JinaAIEmbeddingProvider.model p) texts in
       let failure := result_of (JinaAIEmbeddingProvider.embed texts w p t) in
       (forall e, driver w t request = Err e ->
          failure
          = Err (if isAbortError e
                 then EmbeddingsTimedOut Jina
                        (JinaAIEmbeddingProvider.timeoutMs p)
                 else e))
       /\ (forall res, driver w t request = Ok res -> res_ok res = false ->
             failure
             = Err (EmbeddingsFailed Jina (res_status res)
                      (match res_text res with
                       | Ok text => text
                       | Err _ => "<no body>"
                       end)))
       /\ (forall res, driver w t request = Ok res -> res_ok res = true ->
             res_json res = Ok NoData ->
             failure = Err (UnexpectedResponseShape Jina)))
    /\ (forall p,
          let request :=
            Fetch (OpenAIEmbeddingProvider.baseUrl p +++ "/embeddings")
                  ("Bearer " +++ OpenAIEmbeddingProvider.apiKey p)
                  (OpenAIEmbeddingProvider.model p) texts in
          let failure :=
            result_of (OpenAIEmbeddingProvider.embed texts w p t) in
          (forall e, driver w t request = Err e ->
             failure
             = Err (if isAbortError e
                    then EmbeddingsTimedOut OpenAI
                           (OpenAIEmbeddingProvider.timeoutMs p)
                    else e))
          /\ (forall res, driver w t request = Ok res -> res_ok res = false ->
                failure
                = Err (EmbeddingsFailed OpenAI (res_status res)
                         (match res_text res with
                          | Ok text => text
                          | Err _ => "<no body>"
                          end)))
          /\ (forall res, driver w t request = Ok res -> res_ok res = true ->
                res_json res = Ok NoData ->
                failure = Err (UnexpectedResponseShape OpenAI))).
Proof.
  intros w t texts Hne.
  destruct texts as [| text texts]; [contradiction |].
  split; intros p request failure; unfold failure.
  - unfold JinaAIEmbeddingProvider.embed.
    change (Nat.eqb (List.length (text :: texts)) 0) with false. cbv iota.
    unfold try_catch, bind, get, invoke, throw, ret, result_of, safeReadText.
    fold request. repeat split.
    + intros e ->. simpl. destruct (isAbortError e); reflexivity.
    + intros res -> ->. reflexivity.
    + intros res -> -> He. simpl. rewrite He. reflexivity.
  - unfold OpenAIEmbeddingProvider.embed.
    change (Nat.eqb (List.length (text :: texts)) 0) with false. cbv iota.
    unfold try_catch, bind, get, invoke, throw, ret, result_of, safeReadText.
    fold request. repeat split.
    + intros e ->. simpl. destruct (isAbortError e); reflexivity.
    + intros res -> ->. reflexivity.
    + intros res -> -> He. simpl. rewrite He. reflexivity.
Qed.

(** X19 at the Jina provider and an endpoint that times out. *)
Lemma embed_failures_witness :
  result_of (JinaAIEmbeddingProvider.embed ["hello world"] endpoint_times_out
               jina_896 [])
  = Err (EmbeddingsTimedOut Jina 60000).
Proof.
  refine (proj1 (proj1 (@embed_failures endpoint_times_out []
                          ["hello world"] _) jina_896)
                (Thrown "AbortError" "This operation was aborted") eq_refl).
  discriminate.
Defined.

Ltac check_dimensions_passed_walk :=
  let vectors := fresh "vectors" in
  let v := fresh "v" in
  let IH := fresh "IH" in
  let E := fresh "E" in
  let H := fresh "H" in
  intros expected vectors w p t s' t';
  induction vectors as [| [v |] vectors IH]; simpl;
  [ constructor
  | destruct (is_length expected (List.length v)) eqn:E; simpl;
    [| discriminate];
    intros H; constructor; [| apply IH; exact H];
    exists v; split; [reflexivity | exact E]
  | discriminate ].

Lemma jina_check_dimensions_passed :
  forall expected vectors w p t s' t',
    JinaAIEmbeddingProvider.check_dimensions expected vectors w p t
    = (Ok tt, s', t') ->
    Forall (has_dimension expected) vectors.
Proof. check_dimensions_passed_walk. Qed.

Lemma openai_check_dimensions_passed :
  forall expected vectors w p t s' t',
    OpenAIEmbeddingProvider.check_dimensions expected vectors w p t
    = (Ok tt, s', t') ->
    Forall (has_dimension expected) vectors.
Proof. check_dimensions_passed_walk. Qed.

(** A failure goes through the handler and stays a failure. *)
Ltac rethrown :=
  solve [ repeat match goal with
            | |- context [isAbortError ?e] => destruct (isAbortError e)
            end; simpl; discriminate ].

(** X20.  What [embed] returns, in either provider: when it resolves, the
    one request was answered by a success whose [data] array holds no
    [null] and gave the vectors, one for each item and in the items' order;
    and when [expectedDimensions] is configured every vector returned is an
    array of that length. *)
Theorem embed_returns_checked_vectors :
  forall w t texts vectors,
    (forall p,
       result_of (JinaAIEmbeddingProvider.embed texts w p t) = Ok vectors ->
       (exists res items,
          driver w t (Fetch (JinaAIEmbeddingProvider.baseUrl p +++ "/embeddings")
                            ("Bearer " +++ JinaAIEmbeddingProvider.apiKey p)
                            (JinaAIEmbeddingProvider.model p) texts) = Ok res
          /\ res_ok res = true
          /\ res_json res = Ok (DataArray (map Some items))
          /\ vectors = map embedding items)
       /\ (forall expected,
             JinaAIEmbeddingProvider.expectedDimensions p = Some expected ->
             Forall (has_dimension expected) vectors))
    /\ (forall p,
          result_of (OpenAIEmbeddingProvider.embed texts w p t) = Ok vectors ->
          (exists res items,
             driver w t (Fetch (OpenAIEmbeddingProvider.baseUrl p
                                  +++ "/embeddings")
                               ("Bearer " +++ OpenAIEmbeddingProvider.apiKey p)
                               (OpenAIEmbeddingProvider.model p) texts) = Ok res
             /\ res_ok res = true
             /\ res_json res = Ok (DataArray (map Some items))
             /\ vectors = map embedding items)
          /\ (forall expected,
                OpenAIEmbeddingProvider.expectedDimensions p = Some expected ->
                Forall (has_dimension expected) vectors)).
Proof.
  intros w t texts vectors. split; intros p.
  - unfold JinaAIEmbeddingProvider.embed.
    destruct (Nat.eqb (List.length texts) 0); [discriminate |].
    unfold try_catch, bind, get, invoke, lift_result, throw, ret, result_of.
    match goal with
    | |- context [driver w t ?c] =>
        destruct (driver w t c) as [res | e] eqn:D
    end; simpl;
      [| rethrown].
    destruct (res_ok res) eqn:Hok; simpl;
      [| rethrown].
    destruct (res_json res) as [[| data] | e] eqn:Hjson; simpl;
      try rethrown.
    destruct (embeddings data) as [vs | e] eqn:Hmap; simpl;
      [| rethrown].
    destruct (@embeddings_ok _ _ Hmap) as [items [-> ->]].
    destruct (JinaAIEmbeddingProvider.expectedDimensions p) as [d |]; simpl.
    + destruct (JinaAIEmbeddingProvider.check_dimensions d
                  (map embedding items) w p _) as [[[[] | e] s'] t']
        eqn:Hcheck; simpl;
        [| rethrown].
      intros [= <-]. split; [exists res, items; auto |].
      intros expected [= <-].
      eapply jina_check_dimensions_passed. exact Hcheck.
    + intros [= <-]. split; [exists res, items; auto |].
      intros expected H. discriminate H.
  - unfold OpenAIEmbeddingProvider.embed.
    destruct (Nat.eqb (List.length texts) 0); [discriminate |].
    unfold try_catch, bind, get, invoke, lift_result, throw, ret, result_of.
    match goal with
    | |- context [driver w t ?c] =>
        destruct (driver w t c) as [res | e] eqn:D
    end; simpl;
      [| rethrown].
    destruct (res_ok res) eqn:Hok; simpl;
      [| rethrown].
    destruct (res_json res) as [[| data] | e] eqn:Hjson; simpl;
      try rethrown.
    destruct (embeddings data) as [vs | e] eqn:Hmap; simpl;
      [| rethrown].
    destruct (@embeddings_ok _ _ Hmap) as [items [-> ->]].
    destruct (OpenAIEmbeddingProvider.expectedDimensions p) as [d |]; simpl.
    + destruct (OpenAIEmbeddingProvider.check_dimensions d
                  (map embedding items) w p _) as [[[[] | e] s'] t']
        eqn:Hcheck; simpl;
        [| rethrown].
      intros [= <-]. split; [exists res, items; auto |].
      intros expected [= <-].
      eapply openai_check_dimensions_passed. exact Hcheck.
    + intros [= <-]. split; [exists res, items; auto |].
      intros expected H. discriminate H.
Qed.

(** X20 at a Jina provider expecting three dimensions. *)
Lemma embed_returns_checked_vectors_witness :
  Forall (has_dimension (Finite 3%Q)) [Some [1%Q; 2%Q; 3%Q]].
Proof.
  refine (proj2 (proj1 (@embed_returns_checked_vectors
                          embeddings_of_three [] ["hello world"]
                          [Some [1%Q; 2%Q; 3%Q]])
                       (JinaAIEmbeddingProvider.mk
                          "key" "jina-code-embeddings-0.5b"
                          "https://api.jina.ai/v1" 60000
                          (Some (Finite 3%Q)))
                       eq_refl)
                (Finite 3%Q) eq_refl).
Defined.

(** X21.  [embedOne], in either provider, when the one request is answered
    by a success: with an empty [data] array it resolves to undefined, the
    dimension check having nothing to reject, whatever
    [expectedDimensions] says; without [expectedDimensions], and no item of
    [data] being [null], it resolves to the first item's embedding,
    unchecked, the other items being dropped; and with a [null] anywhere in
    [data] it fails with the [TypeError] of reading its [embedding],
    whatever the first item is. *)
Theorem embedOne_takes_the_first_vector :
  forall w t text res data,
    res_ok res = true ->
    res_json res = Ok (DataArray data) ->
    (forall p,
       driver w t (Fetch (JinaAIEmbeddingProvider.baseUrl p +++ "/embeddings")
                         ("Bearer " +++ JinaAIEmbeddingProvider.apiKey p)
                         (JinaAIEmbeddingProvider.model p) [text]) = Ok res ->
       let found := result_of (JinaAIEmbeddingProvider.embedOne text w p t) in
       (data = [] -> found = Ok None)
       /\ (JinaAIEmbeddingProvider.expectedDimensions p = None ->
           forall items,
             data = map Some items ->
             found = Ok (match items with
                         | item :: _ => embedding item
                         | [] => None
                         end))
       /\ (In None data -> found = Err reading_embedding_of_null))
    /\ (forall p,
          driver w t (Fetch (OpenAIEmbeddingProvider.baseUrl p +++ "/embeddings")
                            ("Bearer " +++ OpenAIEmbeddingProvider.apiKey p)
                            (OpenAIEmbeddingProvider.model p) [text]) = Ok res ->
          let found :=
            result_of (OpenAIEmbeddingProvider.embedOne text w p t) in
          (data = [] -> found = Ok None)
          /\ (OpenAIEmbeddingProvider.expectedDimensions p = None ->
              forall items,
                data = map Some items ->
                found = Ok (match items with
                            | item :: _ => embedding item
                            | [] => None
                            end))
          /\ (In None data -> found = Err reading_embedding_of_null)).
Proof.
  intros w t text res data Hok Hjson. split; intros p D found.
  - unfold found, JinaAIEmbeddingProvider.embedOne, bind.
    rewrite (@jina_embed_on_data w p t [text] res data); auto;
      [| discriminate].
    split; [| split].
    + intros ->. simpl.
      destruct (JinaAIEmbeddingProvider.expectedDimensions p); reflexivity.
    + intros -> items ->. rewrite embeddings_of_items.
      destruct items; reflexivity.
    + intros Hnull. rewrite (@embeddings_null data Hnull). reflexivity.
  - unfold found, OpenAIEmbeddingProvider.embedOne, bind.
    rewrite (@openai_embed_on_data w p t [text] res data); auto;
      [| discriminate].
    split; [| split].
    + intros ->. simpl.
      destruct (OpenAIEmbeddingProvider.expectedDimensions p); reflexivity.
    + intros -> items ->. rewrite embeddings_of_items.
      destruct items; reflexivity.
    + intros Hnull. rewrite (@embeddings_null data Hnull). reflexivity.
Qed.

(** X21 at the Jina provider and a success without items. *)
Lemma embedOne_witness :
  result_of (JinaAIEmbeddingProvider.embedOne "hello world" quiet_world
               jina_896 []) = Ok None.
Proof.
  refine (proj1 (proj1 (@embedOne_takes_the_first_vector
                          quiet_world [] "hello world"
                          (HttpResponse true 200 (Ok EmptyString)
                                        (Ok (DataArray [])))
                          [] eq_refl eq_refl)
                       jina_896 eq_refl)
                eq_refl).
Defined.

(** [embedOne] where the first item is a vector and a later one is
    [null]. *)
Example embedOne_null_item :
  result_of (JinaAIEmbeddingProvider.embedOne "hello world"
               (World (fun _ c =>
                         match c return result (reply c) with
                         | Fetch _ _ _ _ =>
                             Ok (HttpResponse true 200 (Ok EmptyString)
                                   (Ok (DataArray
                                          [Some (Item (Some [1%Q])); None])))
                         | other => Ok (quiet_reply other)
                         end)
                      no_env (fun text => Some text) in_array_order)
               (JinaAIEmbeddingProvider.mk "key" "jina-code-embeddings-0.5b"
                                           "https://api.jina.ai/v1" 60000 None)
               [])
  = Err reading_embedding_of_null.
Proof. reflexivity. Qed.

(** ** The registry *)

(** X22.  [setDefaultProvider] with a configured type makes it the default,
    leaves the providers as they are, and from then on [getProvider]
    without a type answers what it answers for that type; with a type that
    is not configured it fails and leaves the registry, and so its default,
    as it was. *)
Theorem setDefaultProvider_changes_the_fallback :
  forall w e t type,
    let run := VectorSmithEmbedding.setDefaultProvider type w e t in
    trace_of run = t
    /\ (VectorSmithEmbedding.hasProvider e type = true ->
        result_of run = Ok tt
        /\ VectorSmithEmbedding.getDefaultProviderType (state_of run)
           = Some type
        /\ VectorSmithEmbedding.providers (state_of run)
           = VectorSmithEmbedding.providers e
        /\ VectorSmithEmbedding.getProvider (state_of run) None
           = VectorSmithEmbedding.getProvider e (Some type)
        /\ exists p, VectorSmithEmbedding.getProvider (state_of run) None
                     = Ok p)
    /\ (VectorSmithEmbedding.hasProvider e type = false ->
        run = (Err (CannotSetDefault type), e, t)).
Proof.
  intros w e t type run.
  unfold run, VectorSmithEmbedding.setDefaultProvider,
    VectorSmithEmbedding.hasProvider, bind, get, put, throw, result_of,
    state_of, trace_of.
  destruct (Map_has (VectorSmithEmbedding.providers e) type) eqn:H; simpl.
  - split; [reflexivity |]. split; [| discriminate].
    intros _. repeat split.
    unfold VectorSmithEmbedding.getProvider. simpl.
    unfold Map_has in H.
    destruct (Map_get (VectorSmithEmbedding.providers e) type) as [p |];
      [| discriminate].
    exists p. reflexivity.
  - split; [reflexivity |]. split; [discriminate | reflexivity].
Qed.

(** X22 at the registry of Jina, asked to default to OpenAI. *)
Lemma setDefaultProvider_witness :
  VectorSmithEmbedding.setDefaultProvider OpenAI quiet_world registry_of_jina
                                          []
  = (Err (CannotSetDefault OpenAI), registry_of_jina, []).
Proof.
  apply (proj2 (proj2 (setDefaultProvider_changes_the_fallback
                         quiet_world registry_of_jina [] OpenAI))).
  reflexivity.
Defined.

(** X23.  [VectorSmithEmbedding.embed] never changes the registry.  When
    the type resolves to no provider it fails with [getProvider]'s error
    and sends nothing; otherwise its result and its calls are those of the
    resolved provider's own [embed]. *)
Theorem registry_embed_delegates :
  forall w e t texts type,
    let run := VectorSmithEmbedding.embed texts type w e t in
    state_of run = e
    /\ (forall err, VectorSmithEmbedding.getProvider e type = Err err ->
                    run = (Err err, e, t))
    /\ (forall p,
          VectorSmithEmbedding.getProvider e type
          = Ok (VectorSmithEmbedding.JinaProvider p) ->
          result_of run
          = result_of (JinaAIEmbeddingProvider.embed texts w p t)
          /\ trace_of run
             = trace_of (JinaAIEmbeddingProvider.embed texts w p t))
    /\ (forall p,
          VectorSmithEmbedding.getProvider e type
          = Ok (VectorSmithEmbedding.OpenAIProvider p) ->
          result_of run
          = result_of (OpenAIEmbeddingProvider.embed texts w p t)
          /\ trace_of run
             = trace_of (OpenAIEmbeddingProvider.embed texts w p t)).
Proof.
  intros w e t texts type run.
  unfold run, VectorSmithEmbedding.embed, VectorSmithEmbedding.on_provider,
    zoom, bind, get, throw, result_of, state_of, trace_of.
  simpl.
  destruct (VectorSmithEmbedding.getProvider e type) as [[p | p] | err];
    simpl.
  - destruct (JinaAIEmbeddingProvider.embed texts w p t) as [[r s] t'] eqn:E.
    split; [reflexivity |]. split; [discriminate |]. split.
    + intros p0 [= <-]. rewrite E. split; reflexivity.
    + discriminate.
  - destruct (OpenAIEmbeddingProvider.embed texts w p t) as [[r s] t'] eqn:E.
    split; [reflexivity |]. split; [discriminate |]. split.
    + discriminate.
    + intros p0 [= <-]. rewrite E. split; reflexivity.
  - split; [reflexivity |]. split; [intros err' [= <-]; reflexivity |].
    split; discriminate.
Qed.

(** X23 at the registry of Jina, asked for OpenAI embeddings. *)
Lemma registry_embed_witness :
  VectorSmithEmbedding.embed ["hello world"] (Some OpenAI) quiet_world
                             registry_of_jina []
  = (Err (ProviderNotConfigured OpenAI), registry_of_jina, []).
Proof.
  apply (proj1 (proj2 (registry_embed_delegates
                         quiet_world registry_of_jina [] ["hello world"]
                         (Some OpenAI)))).
  reflexivity.
Defined.

(** ** Retrievers *)

(** X24.  A retriever over an adapter that is not connected fails with the
    adapter's not-connected error, calls no driver and leaves the adapter
    as it is. *)
Theorem retrievers_refused_when_not_connected :
  (forall a request,
     RedisAdapter.isConnected a = false ->
     refused Redis (RedisRetriever.retrieve request) a)
  /\ (forall a request,
        PgVectorAdapter.isConnected a = false ->
        refused PgVector (PgVectorRetriever.retrieve request) a)
  /\ (forall a request,
        QdrantAdapter.isConnected a = false ->
        refused Qdrant (QdrantRetriever.retrieve request) a).
Proof.
  repeat split; intros a request H.
  - unfold RedisRetriever.retrieve, RedisAdapter.get_. guarded.
  - unfold PgVectorRetriever.retrieve. cbv zeta.
    unfold PgVectorAdapter.searchSimilar. cbv zeta. guarded.
  - unfold QdrantRetriever.retrieve. cbv zeta.
    unfold QdrantAdapter.search. cbv zeta. guarded.
Qed.

(** X24 at a fresh Qdrant adapter. *)
Lemma retrievers_refused_witness :
  let a := QdrantAdapter.constructor
             (QdrantAdapter.mkConfig None None None None None None) in
  QdrantRetriever.retrieve
    (Request (QdrantRetriever.mkQuery "points" [1%Q] None)) quiet_world a []
  = (Err (NotConnected Qdrant), a, []).
Proof.
  intros a.
  apply (proj2 (proj2 retrievers_refused_when_not_connected) a _ eq_refl).
Defined.

(** ** Finding the vector extension *)

(** X25.  [resolveExtensionPath] of the SQLite adapter: the path the
    extension package gives is returned; when the package throws its
    not-found error the platform package is asked, and its non-empty path
    is returned; in every other case the package's own error is thrown
    again, the platform package being asked only after a not-found
    error. *)
Theorem sqlite_resolveExtensionPath_fallback :
  forall w a t,
    let run := SqliteAdapter.resolveExtensionPath w a t in
    let after := t ++ [SqliteGetExtensionPath] in
    (forall p, driver w t SqliteGetExtensionPath = Ok p ->
               run = (Ok p, a, after))
    /\ (forall e, driver w t SqliteGetExtensionPath = Err e ->
          (forall message, e <> Thrown "ExtensionNotFoundError" message) ->
          run = (Err e, a, after))
    /\ (forall message,
          driver w t SqliteGetExtensionPath
          = Err (Thrown "ExtensionNotFoundError" message) ->
          trace_of run = after ++ [SqliteRequirePlatformPackage]
          /\ state_of run = a
          /\ result_of run
             = match driver w after SqliteRequirePlatformPackage with
               | Ok (Some (String c p)) => Ok (String c p)
               | _ => Err (Thrown "ExtensionNotFoundError" message)
               end).
Proof.
  intros w a t run after.
  unfold run, after, SqliteAdapter.resolveExtensionPath,
    SqliteAdapter.tryResolvePlatformPackage, try_catch, bind, invoke, ret,
    throw, result_of, state_of, trace_of.
  split; [| split].
  - intros p ->. reflexivity.
  - intros e -> Hne. destruct e; try reflexivity.
    destruct (String.eqb name "ExtensionNotFoundError") eqn:E;
      [| reflexivity].
    apply String.eqb_eq in E. subst name. exfalso. eapply Hne. reflexivity.
  - intros message ->. simpl.
    destruct (driver w _ SqliteRequirePlatformPackage) as [[[| c p] |] | e];
      repeat split; rewrite <- ?app_assoc; reflexivity.
Qed.

(** X25 where the extension is in the platform package. *)
Lemma sqlite_resolveExtensionPath_witness :
  result_of (SqliteAdapter.resolveExtensionPath extension_in_platform_package
               sqlite_three_dimensions [])
  = Ok "platform/vector.so".
Proof.
  apply (proj2 (proj2 (proj2 (proj2
           (sqlite_resolveExtensionPath_fallback
              extension_in_platform_package sqlite_three_dimensions []))
           "not found" eq_refl))).
Defined.

(** ** Providers from the environment *)

Lemma includes_string_In allowed value :
  includes_string allowed value = true <-> In value allowed.
Proof.
  unfold includes_string. rewrite existsb_exists. split.
  - intros [x [Hin E]]. apply String.eqb_eq in E. subst x. exact Hin.
  - intros Hin. exists value. split; [exact Hin | apply String.eqb_refl].
Qed.

(** X26.  A provider got from the environment has a model of its
    enumeration and the key of the environment, which is not empty.  The
    Jina provider has no default model: without [JINA_EMBEDDING_MODEL]
    [fromEnv] fails, whatever the key.  The OpenAI provider defaults to
    [text-embedding-3-small] when [OPENAI_EMBEDDING_MODEL] is not set. *)
Theorem fromEnv_checks_the_model :
  forall w,
    (forall options p,
       JinaAIEmbeddingProvider_fromEnv w options = Ok p ->
       In (JinaAIEmbeddingProvider.model p) JinaEmbeddingModel_values
       /\ env w "JINA_EMBEDDING_MODEL" = Some (JinaAIEmbeddingProvider.model p)
       /\ env w "JINA_API_KEY" = Some (JinaAIEmbeddingProvider.apiKey p)
       /\ JinaAIEmbeddingProvider.apiKey p <> EmptyString)
    /\ (forall options,
          env w "JINA_EMBEDDING_MODEL" = None ->
          exists message,
            JinaAIEmbeddingProvider_fromEnv w options
            = Err (Thrown "Error" message))
    /\ (forall options p,
          OpenAIEmbeddingProvider_fromEnv w options = Ok p ->
          In (OpenAIEmbeddingProvider.model p) OpenAIEmbeddingModel_values
          /\ env w "OPENAI_API_KEY" = Some (OpenAIEmbeddingProvider.apiKey p)
          /\ OpenAIEmbeddingProvider.apiKey p <> EmptyString)
    /\ (forall options key,
          env w "OPENAI_EMBEDDING_MODEL" = None ->
          env w "OPENAI_API_KEY" = Some key -> key <> EmptyString ->
          exists p,
            OpenAIEmbeddingProvider_fromEnv w options = Ok p
            /\ OpenAIEmbeddingProvider.model p = "text-embedding-3-small").
Proof.
  intros w. split; [| split; [| split]].
  - intros options p. unfold JinaAIEmbeddingProvider_fromEnv,
      toJinaEmbeddingModel.
    destruct (includes_string JinaEmbeddingModel_values
                (or_else (env w "JINA_EMBEDDING_MODEL") EmptyString)) eqn:I;
      [| discriminate].
    apply includes_string_In in I.
    unfold JinaAIEmbeddingProvider.constructor.
    destruct (env w "JINA_API_KEY") as [[| c k] |]; simpl; try discriminate.
    destruct (env w "JINA_EMBEDDING_MODEL") as [[| c' m] |]; simpl in *;
      try discriminate;
      try (exfalso; intuition discriminate).
    intros [= <-]. simpl. repeat split; [exact I | discriminate].
  - intros options Hm. unfold JinaAIEmbeddingProvider_fromEnv. rewrite Hm.
    eexists. reflexivity.
  - intros options p. unfold OpenAIEmbeddingProvider_fromEnv,
      toOpenAIEmbeddingModel.
    destruct (includes_string OpenAIEmbeddingModel_values
                (or_else (env w "OPENAI_EMBEDDING_MODEL")
                         "text-embedding-3-small")) eqn:I;
      [| discriminate].
    apply includes_string_In in I.
    unfold OpenAIEmbeddingProvider.constructor.
    destruct (env w "OPENAI_API_KEY") as [[| c k] |]; simpl; try discriminate.
    destruct (or_else (env w "OPENAI_EMBEDDING_MODEL")
                      "text-embedding-3-small") as [| c' m]; simpl in *;
      try discriminate; try (exfalso; intuition discriminate).
    intros [= <-]. simpl. repeat split; [exact I | discriminate].
  - intros options key Hm Hk Hne.
    unfold OpenAIEmbeddingProvider_fromEnv. rewrite Hm, Hk. simpl.
    unfold OpenAIEmbeddingProvider.constructor.
    destruct key as [| c k]; [contradiction |]. simpl.
    eexists. split; reflexivity.
Qed.

(** X26 where only the OpenAI key is set. *)
Lemma fromEnv_witness :
  exists p,
    OpenAIEmbeddingProvider_fromEnv openai_key_only None = Ok p
    /\ OpenAIEmbeddingProvider.model p = "text-embedding-3-small".
Proof.
  refine (proj2 (proj2 (proj2 (fromEnv_checks_the_model openai_key_only)))
                None "key" eq_refl eq_refl _).
  discriminate.
Defined.

(** ** The Qdrant URL, an instance; and the L2 search *)

(** X16 at an endpoint with a final slash and the cluster [abc]. *)
Lemma qdrant_resolveUrl_witness :
  QdrantAdapter.resolveUrl quiet_world qdrant_in_cluster = "https://host/abc".
Proof.
  refine (proj2 (proj2 (qdrant_resolveUrl_names_the_cluster
                          quiet_world qdrant_in_cluster))
                eq_refl "abc" "https://host" eq_refl _ eq_refl eq_refl).
  discriminate.
Defined.

Lemma firstn_subset {A : Type} (x : A) n l : In x (firstn n l) -> In x l.
Proof.
  revert l. induction n as [| n IH]; intros [| y l]; simpl; try tauto.
  intros [-> | H]; [left; reflexivity | right; apply IH; exact H].
Qed.

Lemma insert_by_subset key y row s :
  In row (Pgvector.insert_by key y s) -> y = row \/ In row s.
Proof.
  induction s as [| z s IH]; simpl; [tauto |].
  destruct (Qle_bool (key y) (key z)); simpl; [tauto |].
  intros [-> | Hin]; [tauto |]. destruct (IH Hin); tauto.
Qed.

Lemma order_by_subset key row l :
  In row (Pgvector.order_by key l) -> In row l.
Proof.
  induction l as [| x l IH]; simpl; [tauto |].
  intros H. destruct (insert_by_subset _ _ _ _ H);
    [left; assumption | right; apply IH; assumption].
Qed.

(** X27.  Against a pgvector server, [PgVectorAdapter.searchSimilar] with
    the L2 distance function returns its results closest first, each of
    them a row of the table, and no more of them than the limit, which is
    ten when none is given. *)
Theorem pgvector_l2_search_is_closest_first :
  forall tb a t name q limit results,
    result_of (PgVectorAdapter.searchSimilar name q limit
                 (Some PgVectorAdapter.l2) (Pgvector.serving tb) a t)
    = Ok results ->
    closest_first PgVectorAdapter.l2 q results = true
    /\ (Z.of_nat (List.length results) <= or_else limit 10)%Z
    /\ forall r, In r results ->
         exists row, In row (Pgvector.rows tb)
                     /\ PgVectorAdapter.id r = Pgvector.stored_id row
                     /\ PgVectorAdapter.embedding r
                        = Pgvector.stored_embedding row
                     /\ PgVectorAdapter.metadata r
                        = Pgvector.stored_metadata row.
Proof.
  intros tb a t name q limit results.
  unfold PgVectorAdapter.searchSimilar, PgVectorAdapter.ensureConnected,
    try_finally, bind, get, invoke, ret, throw, result_of.
  destruct (PgVectorAdapter.pool a); simpl; [| discriminate].
  unfold Pgvector.execute, Pgvector.select_similar.
  destruct (String.eqb _ _); simpl; [| discriminate].
  destruct (negb _); simpl; [discriminate |].
  destruct (Z.ltb (or_else limit 10%Z) 0) eqn:L; simpl; [discriminate |].
  apply Z.ltb_ge in L.
  intros [= <-]. split; [| split].
  - unfold closest_first. simpl.
    rewrite !map_map. simpl. rewrite <- firstn_map.
    apply firstn_ascending. apply order_by_ascending.
  - rewrite !length_map.
    match goal with
    | |- context [firstn ?n ?l] => pose proof (firstn_le_length n l) as H
    end.
    lia.
  - intros r Hr. rewrite map_map in Hr. apply in_map_iff in Hr.
    destruct Hr as [row [<- Hrow]]. simpl.
    exists row. repeat split.
    apply firstn_subset in Hrow. apply order_by_subset in Hrow. exact Hrow.
Qed.

(** X27 at the table of two items and the query [1,0]. *)
Lemma pgvector_l2_search_witness :
  closest_first PgVectorAdapter.l2 [1%Q; 0%Q]
    [PgVectorAdapter.mkSearchResult 2 [1%Q; 1%Q] None 1%Q;
     PgVectorAdapter.mkSearchResult 1 [3%Q; 0%Q] None 4%Q] = true.
Proof.
  apply (proj1 (@pgvector_l2_search_is_closest_first
                  two_items pgvector_connected [] "items" [1%Q; 0%Q] None
                  _ eq_refl)).
Defined.
